(** * Ticket integrity and check-in reconciliation of the event-organizer app

    A shallow embedding of
    - [generateQRCodeData] and [verifyQRCodeData] of the module the routes
      import as [@/lib/qr-utils],
    - the scan route, [POST /api/attendance/scan],
    - the manual check-in route, [POST /api/attendance],
    with the JavaScript values they manipulate: strings as sequences of UTF-16
    code units, JSON values, [JSON.parse] and [JSON.stringify].

    What the routes obtain from the runtime and from libraries (the keyed hash,
    [Date], [URL], [Buffer], number conversion, the Prisma client's reading of a
    [where] value) is collected in the record [Platform]; the repository's own
    logic is written out against it. *)

From Stdlib Require Import Ascii String.
From Stdlib Require Import List ZArith NArith Lia Bool QArith.
Import ListNotations.

#[local] Set Warnings "-register-all".

Close Scope Q_scope.
Local Open Scope list_scope.

(* ================================================================== *)
(** ** JavaScript strings *)
(* ================================================================== *)

(** A JavaScript string is a sequence of 16-bit code units. *)
Abbreviation jschar := N (only parsing).
Abbreviation jsstring := (list N) (only parsing).

(** A literal of the source, read as code units. *)
Definition js (s : String.string) : jsstring :=
  map N_of_ascii (String.list_ascii_of_string s).
Arguments js s%_string.

(** The same with every apostrophe read as a double quote; used to write
    JSON texts down. *)
Definition jsq (s : String.string) : jsstring :=
  map (fun c => if N.eqb c 39 then 34%N else c) (js s).
Arguments jsq s%_string.

Fixpoint str_eqb (a b : jsstring) : bool :=
  match a, b with
  | [], [] => true
  | x :: a', y :: b' => N.eqb x y && str_eqb a' b'
  | _, _ => false
  end.

(** [s.startsWith(p)] *)
Fixpoint startsWith (p s : jsstring) : bool :=
  match p, s with
  | [], _ => true
  | x :: p', y :: s' => N.eqb x y && startsWith p' s'
  | _ :: _, [] => false
  end.


(** [s.substring(0, n)] *)
Definition substring0 (n : nat) (s : jsstring) : jsstring := firstn n s.

(** [!s] for a string, or for an absent one. *)
Definition str_falsy (s : option jsstring) : bool :=
  match s with
  | None => true
  | Some [] => true
  | Some (_ :: _) => false
  end.

Definition in_range (lo hi c : N) : bool := N.leb lo c && N.leb c hi.
Definition is_digit (c : jschar) : bool := in_range 48 57 c.
Definition is_upper (c : jschar) : bool := in_range 65 90 c.
Definition is_lower (c : jschar) : bool := in_range 97 122 c.

(** The class of [/^[a-zA-Z0-9-_]+$/]. *)
Definition is_id_char (c : jschar) : bool :=
  is_lower c || is_upper c || is_digit c || N.eqb c 45 || N.eqb c 95.

(** [qrData.match(/^[a-zA-Z0-9-_]+$/)] as a truth value. *)
Definition matches_simple_id (s : jsstring) : bool :=
  match s with
  | [] => false
  | _ :: _ => forallb is_id_char s
  end.

(* ================================================================== *)
(** ** JSON values *)
(* ================================================================== *)

(** What [JSON.parse] returns.  A number keeps the text of its literal (its
    value is a double; the two things the code can observe of it, its truth
    value and its printed form, come from the [Platform]).  An object lists
    its own properties in the order JavaScript enumerates them. *)
Inductive json : Type :=
| JNull
| JBool (b : bool)
| JNumber (literal : jsstring)
| JString (s : jsstring)
| JArray (items : list json)
| JObject (props : list (jsstring * json)).

Fixpoint assoc (k : jsstring) (props : list (jsstring * json)) : option json :=
  match props with
  | [] => None
  | (k', v) :: rest => if str_eqb k k' then Some v else assoc k rest
  end.

(** [v.k] for one of the keys the code reads ([registrationId], [eventId],
    [hash], [timestamp]); [None] is [undefined].  Only an object parsed from
    JSON carries such a property. *)
Definition get_prop (v : json) (k : jsstring) : option json :=
  match v with
  | JObject props => assoc k props
  | _ => None
  end.

(** The rest of an object pattern: the properties other than [k], in order. *)
Fixpoint without_key (k : jsstring) (props : list (jsstring * json))
  : list (jsstring * json) :=
  match props with
  | [] => []
  | (k', v) :: rest =>
      if str_eqb k k' then without_key k rest else (k', v) :: without_key k rest
  end.

(** *** Property order

    JavaScript enumerates the array-index keys of an object first, in
    ascending order, then the other keys in the order of their creation. *)

Fixpoint decimal_value (acc : N) (s : jsstring) : N :=
  match s with
  | [] => acc
  | c :: rest => decimal_value (acc * 10 + (c - 48)) rest
  end.

Definition array_index (k : jsstring) : option N :=
  match k with
  | [] => None
  | c :: rest =>
      if forallb is_digit k && (negb (N.eqb c 48) || match rest with [] => true | _ => false end)
      then let n := decimal_value 0 k in
           if N.leb n 4294967294 then Some n else None
      else None
  end.

Fixpoint replace_prop (k : jsstring) (v : json) (props : list (jsstring * json))
  : list (jsstring * json) :=
  match props with
  | [] => []
  | (k', v') :: rest =>
      if str_eqb k k' then (k', v) :: rest else (k', v') :: replace_prop k v rest
  end.

Fixpoint insert_index (n : N) (k : jsstring) (v : json) (props : list (jsstring * json))
  : list (jsstring * json) :=
  match props with
  | [] => [(k, v)]
  | (k', v') :: rest =>
      match array_index k' with
      | Some m => if N.ltb n m then (k, v) :: props
                  else (k', v') :: insert_index n k v rest
      | None => (k, v) :: props
      end
  end.

(** [CreateDataProperty(obj, k, v)] on the property list. *)
Definition obj_set (k : jsstring) (v : json) (props : list (jsstring * json))
  : list (jsstring * json) :=
  match assoc k props with
  | Some _ => replace_prop k v props
  | None =>
      match array_index k with
      | Some n => insert_index n k v props
      | None => props ++ [(k, v)]
      end
  end.

(* ================================================================== *)
(** ** JSON.parse *)
(* ================================================================== *)

Definition is_ws (c : jschar) : bool :=
  N.eqb c 9 || N.eqb c 10 || N.eqb c 13 || N.eqb c 32.
Arguments is_ws c%_N.

Fixpoint skip_ws (s : jsstring) : jsstring :=
  match s with
  | [] => []
  | c :: rest => if is_ws c then skip_ws rest else s
  end.

Definition hex_value (c : jschar) : option N :=
  if is_digit c then Some (c - 48)%N
  else if in_range 97 102 c then Some (c - 87)%N
  else if in_range 65 70 c then Some (c - 55)%N
  else None.

Definition hex4_value (a b c d : jschar) : option N :=
  match hex_value a, hex_value b, hex_value c, hex_value d with
  | Some x, Some y, Some z, Some w => Some (((x * 16 + y) * 16 + z) * 16 + w)%N
  | _, _, _, _ => None
  end.

(** The character a one-letter escape stands for. *)
Definition unescape (e : jschar) : option jschar :=
  if N.eqb e 34 then Some 34%N          (* quote *)
  else if N.eqb e 92 then Some 92%N     (* backslash *)
  else if N.eqb e 47 then Some 47%N     (* solidus *)
  else if N.eqb e 98 then Some 8%N      (* b *)
  else if N.eqb e 102 then Some 12%N    (* f *)
  else if N.eqb e 110 then Some 10%N    (* n *)
  else if N.eqb e 114 then Some 13%N    (* r *)
  else if N.eqb e 116 then Some 9%N     (* t *)
  else None.

Definition cons_fst {A B : Type} (a : A) (r : option (list A * B)) : option (list A * B) :=
  match r with
  | Some (l, b) => Some (a :: l, b)
  | None => None
  end.

(** The characters of a string literal after its opening quote, up to and
    including the closing quote: the string denoted, and what follows. *)
Fixpoint parse_string_body (s : jsstring) : option (jsstring * jsstring) :=
  match s with
  | [] => None
  | c :: rest =>
      if N.eqb c 34 then Some ([], rest)
      else if N.eqb c 92 then
        match rest with
        | [] => None
        | e :: rest1 =>
            if N.eqb e 117 then
              match rest1 with
              | h1 :: h2 :: h3 :: h4 :: rest2 =>
                  match hex4_value h1 h2 h3 h4 with
                  | Some u => cons_fst u (parse_string_body rest2)
                  | None => None
                  end
              | _ => None
              end
            else
              match unescape e with
              | Some u => cons_fst u (parse_string_body rest1)
              | None => None
              end
        end
      else if N.ltb c 32 then None
      else cons_fst c (parse_string_body rest)
  end.

Fixpoint span_digits (s : jsstring) : jsstring * jsstring :=
  match s with
  | [] => ([], [])
  | c :: rest =>
      if is_digit c then let (d, r) := span_digits rest in (c :: d, r)
      else ([], s)
  end.

(** A digit run that must not be empty. *)
Definition digits1 (s : jsstring) : option (jsstring * jsstring) :=
  match span_digits s with
  | ([], _) => None
  | (d, r) => Some (d, r)
  end.

(** A number literal: an optional minus sign; a zero, or a non-zero digit
    and more digits; an optional fraction; an optional exponent. *)
Definition parse_int_part (s : jsstring) : option (jsstring * jsstring) :=
  match s with
  | [] => None
  | c :: rest =>
      if N.eqb c 48 then Some ([c], rest)
      else if in_range 49 57 c then let (d, r) := span_digits rest in Some (c :: d, r)
      else None
  end.

Definition parse_frac_part (s : jsstring) : option (jsstring * jsstring) :=
  match s with
  | c :: rest =>
      if N.eqb c 46 then
        match digits1 rest with
        | Some (d, r) => Some (c :: d, r)
        | None => None
        end
      else Some ([], s)
  | [] => Some ([], s)
  end.

Definition parse_exp_part (s : jsstring) : option (jsstring * jsstring) :=
  match s with
  | c :: rest =>
      if N.eqb c 101 || N.eqb c 69 then
        match rest with
        | sg :: rest1 =>
            if N.eqb sg 43 || N.eqb sg 45 then
              match digits1 rest1 with
              | Some (d, r) => Some (c :: sg :: d, r)
              | None => None
              end
            else
              match digits1 rest with
              | Some (d, r) => Some (c :: d, r)
              | None => None
              end
        | [] => None
        end
      else Some ([], s)
  | [] => Some ([], s)
  end.

Definition parse_number (s : jsstring) : option (jsstring * jsstring) :=
  let (sign, s1) := match s with
                    | c :: rest => if N.eqb c 45 then ([c], rest) else ([], s)
                    | [] => ([], s)
                    end in
  match parse_int_part s1 with
  | None => None
  | Some (i, s2) =>
      match parse_frac_part s2 with
      | None => None
      | Some (f, s3) =>
          match parse_exp_part s3 with
          | None => None
          | Some (e, s4) => Some (sign ++ i ++ f ++ e, s4)
          end
      end
  end.

(** [s] minus the prefix [p], when it starts with it. *)
Fixpoint strip_prefix (p s : jsstring) : option jsstring :=
  match p, s with
  | [], _ => Some s
  | x :: p', y :: s' => if N.eqb x y then strip_prefix p' s' else None
  | _ :: _, [] => None
  end.

Inductive parse_result : Type :=
| Parsed (v : json) (rest : jsstring)
| SyntaxError
| OutOfFuel.

(** A value, then the elements of an array after the first, then the members
    of an object.  [fuel] bounds the number of nested calls; [JSON_parse]
    gives more than any text can use. *)
Fixpoint parse_value (fuel : nat) (s : jsstring) : parse_result :=
  match fuel with
  | O => OutOfFuel
  | S fuel' =>
      match skip_ws s with
      | [] => SyntaxError
      | c :: rest =>
          if N.eqb c 123 then                                   (* { *)
            match skip_ws rest with
            | c1 :: rest1 =>
                if N.eqb c1 125 then Parsed (JObject []) rest1
                else parse_members fuel' (c1 :: rest1) []
            | [] => SyntaxError
            end
          else if N.eqb c 91 then                               (* [ *)
            match skip_ws rest with
            | c1 :: rest1 =>
                if N.eqb c1 93 then Parsed (JArray []) rest1
                else parse_elements fuel' (c1 :: rest1) []
            | [] => SyntaxError
            end
          else if N.eqb c 34 then
            match parse_string_body rest with
            | Some (str, r) => Parsed (JString str) r
            | None => SyntaxError
            end
          else if N.eqb c 45 || is_digit c then
            match parse_number (c :: rest) with
            | Some (lit, r) => Parsed (JNumber lit) r
            | None => SyntaxError
            end
          else
            match strip_prefix (js "null") (c :: rest) with
            | Some r => Parsed JNull r
            | None =>
                match strip_prefix (js "true") (c :: rest) with
                | Some r => Parsed (JBool true) r
                | None =>
                    match strip_prefix (js "false") (c :: rest) with
                    | Some r => Parsed (JBool false) r
                    | None => SyntaxError
                    end
                end
            end
      end
  end
with parse_elements (fuel : nat) (s : jsstring) (acc : list json) : parse_result :=
  match fuel with
  | O => OutOfFuel
  | S fuel' =>
      match parse_value fuel' s with
      | Parsed v r =>
          match skip_ws r with
          | c :: r1 =>
              if N.eqb c 44 then parse_elements fuel' r1 (acc ++ [v])
              else if N.eqb c 93 then Parsed (JArray (acc ++ [v])) r1
              else SyntaxError
          | [] => SyntaxError
          end
      | SyntaxError => SyntaxError
      | OutOfFuel => OutOfFuel
      end
  end
with parse_members (fuel : nat) (s : jsstring) (acc : list (jsstring * json))
  : parse_result :=
  match fuel with
  | O => OutOfFuel
  | S fuel' =>
      match skip_ws s with
      | c :: r1 =>
          if N.eqb c 34 then
            match parse_string_body r1 with
            | Some (k, r2) =>
                match skip_ws r2 with
                | c2 :: r3 =>
                    if N.eqb c2 58 then
                      match parse_value fuel' r3 with
                      | Parsed v r4 =>
                          match skip_ws r4 with
                          | c4 :: r5 =>
                              if N.eqb c4 44 then parse_members fuel' r5 (obj_set k v acc)
                              else if N.eqb c4 125 then Parsed (JObject (obj_set k v acc)) r5
                              else SyntaxError
                          | [] => SyntaxError
                          end
                      | SyntaxError => SyntaxError
                      | OutOfFuel => OutOfFuel
                      end
                    else SyntaxError
                | [] => SyntaxError
                end
            | None => SyntaxError
            end
          else SyntaxError
      | [] => SyntaxError
      end
  end.

(** Twice the length of the text, and three more: no text uses it up (see
    [JSON_parse_fuel_suffices]). *)
Definition JSON_fuel (s : jsstring) : nat := S (S (S (length s + length s))).

(** [JSON.parse(text)]; [None] when it throws a [SyntaxError]. *)
Definition JSON_parse (text : jsstring) : option json :=
  match parse_value (JSON_fuel text) text with
  | Parsed v rest =>
      match skip_ws rest with
      | [] => Some v
      | _ :: _ => None
      end
  | SyntaxError => None
  | OutOfFuel => None
  end.

(* ================================================================== *)
(** ** The platform *)
(* ================================================================== *)

(** What the code obtains from Node, from the [crypto] module and from the
    Prisma client.  Time values are milliseconds since the epoch. *)
Record Platform : Type := {
  (** [crypto.createHmac('sha256', key).update(message).digest('hex')] *)
  hmac_sha256_hex : jsstring -> jsstring -> jsstring;
  (** [new Date(t).toISOString()] for the time value [t] *)
  toISOString : Z -> jsstring;
  (** [new Date(v).getTime()], [None] for [NaN]; the argument [None] is
      [undefined] *)
  Date_getTime : option json -> option Z;
  (** whether the number a literal denotes is neither [0] nor [-0] *)
  Number_truthy : jsstring -> bool;
  (** what [JSON.stringify] prints for the number a literal denotes *)
  Number_stringify : jsstring -> jsstring;
  (** [new URL(s)]: [None] when it throws, otherwise the function
      [name => url.searchParams.get(name)], [None] for [null] *)
  URL_searchParams_get : jsstring -> option (jsstring -> option jsstring);
  (** [Buffer.from(s, 'base64').toString('utf-8')] *)
  Buffer_base64_utf8 : jsstring -> jsstring;
  (** Prisma's reading of a [where] value that is not a string, for a string
      column: [None] when the client rejects the query (it throws), otherwise
      the column values it selects *)
  prisma_filter : json -> option (jsstring -> bool);
  (** the identifier the store gives a new row, from those in use *)
  prisma_new_id : list jsstring -> jsstring
}.

(* ================================================================== *)
(** ** JSON.stringify *)
(* ================================================================== *)

Definition hex_digit (n : N) : jschar :=
  if N.ltb n 10 then (48 + n)%N else (87 + n)%N.

(** [\uXXXX], in lower-case digits. *)
Definition unicode_escape (c : jschar) : jsstring :=
  [92; 117; hex_digit (c / 4096); hex_digit ((c / 256) mod 16);
   hex_digit ((c / 16) mod 16); hex_digit (c mod 16)]%N.

Definition is_high_surrogate (c : jschar) : bool := in_range 55296 56319 c.
Definition is_low_surrogate (c : jschar) : bool := in_range 56320 57343 c.

(** The characters of [QuoteJSONString] between the quotes. *)
Fixpoint quote_chars (s : jsstring) : jsstring :=
  match s with
  | [] => []
  | c :: rest =>
      if N.eqb c 8 then 92 :: 98 :: quote_chars rest
      else if N.eqb c 9 then 92 :: 116 :: quote_chars rest
      else if N.eqb c 10 then 92 :: 110 :: quote_chars rest
      else if N.eqb c 12 then 92 :: 102 :: quote_chars rest
      else if N.eqb c 13 then 92 :: 114 :: quote_chars rest
      else if N.eqb c 34 then 92 :: 34 :: quote_chars rest
      else if N.eqb c 92 then 92 :: 92 :: quote_chars rest
      else if N.ltb c 32 then unicode_escape c ++ quote_chars rest
      else if is_high_surrogate c then
        match rest with
        | d :: rest1 =>
            if is_low_surrogate d then c :: d :: quote_chars rest1
            else unicode_escape c ++ quote_chars rest
        | [] => unicode_escape c
        end
      else if is_low_surrogate c then unicode_escape c ++ quote_chars rest
      else c :: quote_chars rest
  end%N.

Definition quote (s : jsstring) : jsstring := 34%N :: quote_chars s ++ [34%N].

Section Stringify.

Variable P : Platform.

Fixpoint JSON_stringify (v : json) : jsstring :=
  match v with
  | JNull => js "null"
  | JBool true => js "true"
  | JBool false => js "false"
  | JNumber lit => Number_stringify P lit
  | JString s => quote s
  | JArray items =>
      91%N ::
      (fix elements (l : list json) : jsstring :=
         match l with
         | [] => []
         | [x] => JSON_stringify x
         | x :: rest => JSON_stringify x ++ 44%N :: elements rest
         end) items ++ [93%N]
  | JObject props =>
      123%N ::
      (fix members (l : list (jsstring * json)) : jsstring :=
         match l with
         | [] => []
         | [(k, x)] => quote k ++ 58%N :: JSON_stringify x
         | (k, x) :: rest => quote k ++ 58%N :: JSON_stringify x ++ 44%N :: members rest
         end) props ++ [125%N]
  end.

End Stringify.

(** The inner loop of [JSON_stringify] on an object, by itself. *)
Fixpoint members_text (P : Platform) (l : list (jsstring * json)) : jsstring :=
  match l with
  | [] => []
  | [(k, x)] => quote k ++ 58%N :: JSON_stringify P x
  | (k, x) :: rest => quote k ++ 58%N :: JSON_stringify P x ++ 44%N :: members_text P rest
  end.

(** The properties of an object all of whose values are strings. *)
Definition flat (props : list (jsstring * jsstring)) : list (jsstring * json) :=
  map (fun kv => (fst kv, JString (snd kv))) props.

(* ================================================================== *)
(** ** Signed payloads: [generateQRCodeData] and [verifyQRCodeData] *)
(* ================================================================== *)

(** [!v] negated: the truth value of a property that may be absent. *)
Definition truthy (P : Platform) (v : option json) : bool :=
  match v with
  | None => false
  | Some JNull => false
  | Some (JBool b) => b
  | Some (JNumber lit) => Number_truthy P lit
  | Some (JString s) => negb (str_falsy (Some s))
  | Some (JArray _) => true
  | Some (JObject _) => true
  end.

(** [v !== expected] for a string [expected]. *)
Definition strict_neq (v : option json) (expected : jsstring) : bool :=
  match v with
  | Some (JString h) => negb (str_eqb h expected)
  | _ => true
  end.

(** [process.env.NEXTAUTH_SECRET || 'fallback-secret'] *)
Definition secret_of (env : option jsstring) : jsstring :=
  match env with
  | Some (c :: s) => c :: s
  | _ => js "fallback-secret"
  end.

(** The object [data] of [generateQRCodeData]. *)
Definition ticket_data (registrationId eventId userId timestamp : jsstring)
  : list (jsstring * json) :=
  [ (js "registrationId", JString registrationId);
    (js "eventId", JString eventId);
    (js "userId", JString userId);
    (js "timestamp", JString timestamp);
    (js "type", JString (js "EVENT_TICKET")) ].

(** [generateQRCodeData(registrationId, eventId, userId)], called at the time
    [now] in a process whose [NEXTAUTH_SECRET] is [env]. *)
Definition generateQRCodeData (P : Platform) (env : option jsstring) (now : Z)
    (registrationId eventId userId : jsstring) : jsstring :=
  let timestamp := toISOString P now in
  let secret := secret_of env in
  let data := ticket_data registrationId eventId userId timestamp in
  let hash := hmac_sha256_hex P secret (JSON_stringify P (JObject data)) in
  let qrData := data ++ [(js "hash", JString hash)] in
  JSON_stringify P (JObject qrData).

(** An object with the five signed properties of a ticket, whatever their
    values; [ticket_data] is the one whose [type] is [EVENT_TICKET]. *)
Definition signed_fields (registrationId eventId userId timestamp type : jsstring)
  : list (jsstring * json) :=
  [ (js "registrationId", JString registrationId);
    (js "eventId", JString eventId);
    (js "userId", JString userId);
    (js "timestamp", JString timestamp);
    (js "type", JString type) ].

(** The parts of [generateQRCodeData] by name: the text the hash is taken of,
    the hash, and the object that is serialised. *)
Definition signed_text (P : Platform) (now : Z) (registrationId eventId userId : jsstring)
  : jsstring :=
  JSON_stringify P (JObject (ticket_data registrationId eventId userId (toISOString P now))).

Definition ticket_hash (P : Platform) (env : option jsstring) (now : Z)
    (registrationId eventId userId : jsstring) : jsstring :=
  hmac_sha256_hex P (secret_of env) (signed_text P now registrationId eventId userId).

Definition ticket_payload (P : Platform) (env : option jsstring) (now : Z)
    (registrationId eventId userId : jsstring) : json :=
  JObject (ticket_data registrationId eventId userId (toISOString P now)
           ++ [(js "hash", JString (ticket_hash P env now registrationId eventId userId))]).

Record VerifyResult : Type := {
  valid : bool;
  data : option json;
  error : option jsstring
}.

Definition invalid_format : VerifyResult :=
  {| valid := false; data := None; error := Some (js "Invalid QR code format") |}.
Definition tampered : VerifyResult :=
  {| valid := false; data := None; error := Some (js "QR code has been tampered with") |}.
Definition expired : VerifyResult :=
  {| valid := false; data := None; error := Some (js "QR code has expired") |}.
Definition verified (qrData : json) : VerifyResult :=
  {| valid := true; data := Some qrData; error := None |}.

(** [hoursDiff = (now.getTime() - qrTimestamp.getTime()) / (1000 * 60 * 60)].
    The difference and the quotient are taken exactly.  The code rounds each
    to the nearest double; rounding is monotone, it leaves 86 400 000 and 24
    as they are, and the quotient of an integer above 86 400 000 is too far
    from 24 to be rounded to it, so the comparison [hoursDiff > 24] has the
    same outcome on both. *)
Definition hoursDiff (now qrTimestamp : Z) : Q :=
  Qdiv (inject_Z (now - qrTimestamp)) (inject_Z (1000 * 60 * 60)).

Definition too_old (now qrTimestamp : Z) : bool :=
  negb (Qle_bool (hoursDiff now qrTimestamp) (inject_Z 24)).

(** The first half of [verifyQRCodeData]: parsing, the format check and the
    hash check.  A failure of [JSON.parse], or of the destructuring of
    [null], is caught and reported as a format error; in a value that is not
    an object [hash] is [undefined]. *)
Definition check_integrity (P : Platform) (env : option jsstring)
    (qrDataString : jsstring) : VerifyResult + json :=
  match JSON_parse qrDataString with
  | None => inl invalid_format
  | Some qrData =>
      match qrData with
      | JObject props =>
          let hash := assoc (js "hash") props in
          let originalData := JObject (without_key (js "hash") props) in
          if negb (truthy P hash)
             || negb (truthy P (get_prop qrData (js "registrationId")))
             || negb (truthy P (get_prop qrData (js "eventId")))
          then inl invalid_format
          else
            let secret := secret_of env in
            let expectedHash := hmac_sha256_hex P secret (JSON_stringify P originalData) in
            if strict_neq hash expectedHash then inl tampered
            else inr qrData
      | _ => inl invalid_format
      end
  end.

(** The second half: the age of the payload.  With a timestamp that is no
    date the difference is [NaN], and [NaN > 24] is false. *)
Definition check_age (P : Platform) (now : Z) (qrData : json) : VerifyResult :=
  match Date_getTime P (get_prop qrData (js "timestamp")) with
  | Some qrTimestamp =>
      if too_old now qrTimestamp then expired else verified qrData
  | None => verified qrData
  end.

(** [verifyQRCodeData(qrDataString)], called at the time [now]. *)
Definition verifyQRCodeData (P : Platform) (env : option jsstring) (now : Z)
    (qrDataString : jsstring) : VerifyResult :=
  match check_integrity P env qrDataString with
  | inl failure => failure
  | inr qrData => check_age P now qrData
  end.

(* ================================================================== *)
(** ** The store *)
(* ================================================================== *)

Module RegistrationStatus.
Inductive t : Type := PENDING | CONFIRMED | CANCELLED | WAITLIST.
End RegistrationStatus.

Module EventStatus.
Inductive t : Type := DRAFT | PUBLISHED | ONGOING | COMPLETED | CANCELLED.
End EventStatus.

Module UserRole.
Inductive t : Type := USER | ADMIN | EVENT_ORGANIZER.
End UserRole.

Module CheckInMethod.
Inductive t : Type := QR_CODE | MANUAL.
End CheckInMethod.

(** Rows as the queries of the two routes return them.  A ticket comes with
    the registration, user and event its query includes; dates are time
    values. *)
Record User : Type := {
  user_id : jsstring;
  user_name : option jsstring;
  user_email : jsstring
}.

Record Event : Type := {
  event_id : jsstring;
  event_name : jsstring;
  startDate : Z;
  endDate : Z;
  event_status : EventStatus.t
}.

Record Registration : Type := {
  registration_id : jsstring;
  registration_status : RegistrationStatus.t;
  registration_user : User;
  registration_event : Event
}.

Record Ticket : Type := {
  ticket_id : jsstring;
  ticket_registrationId : jsstring;
  ticketNumber : jsstring;
  qrCodeData : option jsstring;
  registration : Registration
}.

Record Attendance : Type := {
  attendance_id : jsstring;
  attendance_registrationId : jsstring;
  sessionId : option jsstring;
  checkInTime : option Z;
  checkOutTime : option Z;
  method : CheckInMethod.t
}.

(** The tables the two routes read and write.  [prisma.attendance.create]
    appends a row and [findFirst] returns the first row that matches; the
    constraints of the database schema, which is not part of the sources, are
    not modelled. *)
Record Store : Type := {
  tickets : list Ticket;
  registrations : list Registration;
  attendances : list Attendance
}.

Definition set_attendances (st : Store) (rows : list Attendance) : Store :=
  {| tickets := tickets st; registrations := registrations st; attendances := rows |}.

(** [sessionId || null] *)
Definition sessionId_or_null (sessionId : option jsstring) : option jsstring :=
  match sessionId with
  | Some (c :: s) => Some (c :: s)
  | _ => None
  end.

Definition opt_str_eqb (a b : option jsstring) : bool :=
  match a, b with
  | None, None => true
  | Some x, Some y => str_eqb x y
  | _, _ => false
  end.

Definition is_some {A : Type} (o : option A) : bool :=
  match o with Some _ => true | None => false end.

(** [data: { checkOutTime: time }] applied to a row. *)
Definition with_checkOutTime (time : Z) (a : Attendance) : Attendance :=
  {| attendance_id := attendance_id a;
     attendance_registrationId := attendance_registrationId a;
     sessionId := sessionId a;
     checkInTime := checkInTime a;
     checkOutTime := Some time;
     method := method a |}.

(** The row [prisma.attendance.update] changes: the one with the given id. *)
Fixpoint update_checkOutTime (id : jsstring) (time : Z) (rows : list Attendance)
  : list Attendance :=
  match rows with
  | [] => []
  | a :: rest =>
      if str_eqb (attendance_id a) id
      then with_checkOutTime time a :: rest
      else a :: update_checkOutTime id time rest
  end.

(** A row exists for the pair, whatever its state. *)
Definition has_attendance (st : Store) (registrationId : jsstring)
    (sessionId' : option jsstring) : Prop :=
  exists a, In a (attendances st) /\
            attendance_registrationId a = registrationId /\ sessionId a = sessionId'.


(* ================================================================== *)
(** ** Requests and responses *)
(* ================================================================== *)

Record SessionUser : Type := {
  session_user_id : jsstring;
  role : UserRole.t
}.

(** The body of a scan request; an absent field is [None]. *)
Record ScanBody : Type := {
  qrData : option jsstring;
  scan_sessionId : option jsstring;
  action : option jsstring
}.

(** The body of a manual check-in request. *)
Record ManualBody : Type := {
  manual_registrationId : option jsstring;
  manual_sessionId : option jsstring
}.

Record TicketPreview : Type := {
  preview_id : jsstring;
  preview_registrationId : jsstring;
  preview_ticketNumber : jsstring;
  qrDataPreview : jsstring
}.

(** One constructor for each [NextResponse.json] of the two routes, with the
    parts of its body that vary.  The [participant] block of a success and the
    relations loaded with [include], which repeat stored fields of the
    registration, are left out. *)
Inductive Response : Type :=
| Unauthorized
| InsufficientPermissions
| QRDataRequired
| InvalidQRFormat (received : jsstring)
| MissingRegistrationId
| InvalidTicket (searchedId : json) (receivedQrData : jsstring)
                (availableTickets : list TicketPreview)
| RegistrationNotConfirmed
| EventNotAvailable (status : EventStatus.t)
| EventNotStarted
| EventEnded
| AlreadyCheckedIn (existingAttendance : Attendance)
| CheckInSuccessful (attendance : Attendance)
| NoActiveCheckIn
| CheckOutSuccessful (updatedAttendance : Attendance)
| InvalidAction
| RegistrationIdRequired
| RegistrationNotFound
| AlreadyCheckedInForSession (existingAttendance : Attendance)
| InternalServerError.

(** The HTTP status of a response. *)
Definition http_status (r : Response) : Z :=
  match r with
  | Unauthorized => 401
  | InsufficientPermissions => 403
  | InvalidTicket _ _ _ => 404
  | RegistrationNotFound => 404
  | CheckInSuccessful _ => 200
  | CheckOutSuccessful _ => 200
  | InternalServerError => 500
  | _ => 400
  end.

(** The [error] text of a response, [None] for a success. *)
Definition error_text (r : Response) : option jsstring :=
  match r with
  | Unauthorized => Some (js "Unauthorized")
  | InsufficientPermissions => Some (js "Insufficient permissions")
  | QRDataRequired => Some (js "QR data is required")
  | InvalidQRFormat _ => Some (js "Invalid QR code format")
  | MissingRegistrationId => Some (js "Invalid QR code: missing registration ID")
  | InvalidTicket _ _ _ => Some (js "Invalid ticket")
  | RegistrationNotConfirmed => Some (js "Registration not confirmed")
  | EventNotAvailable _ => Some (js "Event not available for check-in")
  | EventNotStarted => Some (js "Event not started")
  | EventEnded => Some (js "Event ended")
  | AlreadyCheckedIn _ => Some (js "Already checked in")
  | NoActiveCheckIn => Some (js "No active check-in found")
  | InvalidAction => Some (js "Invalid action")
  | RegistrationIdRequired => Some (js "Registration ID is required")
  | RegistrationNotFound => Some (js "Registration not found")
  | AlreadyCheckedInForSession _ => Some (js "Already checked in for this session")
  | InternalServerError => Some (js "Internal server error")
  | CheckInSuccessful _ => None
  | CheckOutSuccessful _ => None
  end.

(** The state errors of the scan route: the registration or the event does
    not allow a scan now. *)
Definition is_state_error (r : Response) : bool :=
  match r with
  | RegistrationNotConfirmed => true
  | EventNotAvailable _ => true
  | EventNotStarted => true
  | EventEnded => true
  | _ => false
  end.

(* ================================================================== *)
(** ** The scan route: [POST /api/attendance/scan] *)
(* ================================================================== *)

(** A handler returns early with a response, or goes on with a value. *)
Notation "x <- e ;; k" :=
  (match e with inl early => inl early | inr x => k end)
  (at level 61, e at next level, right associativity).

Section ScanRoute.

Variable P : Platform.

(** The session and role checks that open both routes. *)
Definition authorize (session : option SessionUser) : Response + unit :=
  match session with
  | None => inl Unauthorized
  | Some user =>
      match role user with
      | UserRole.ADMIN => inr tt
      | UserRole.EVENT_ORGANIZER => inr tt
      | UserRole.USER => inl InsufficientPermissions
      end
  end.

(** [qrData.substring(0, 100) + (qrData.length > 100 ? '...' : '')] *)
Definition received_preview (qrData : jsstring) : jsstring :=
  substring0 100 qrData ++ (if Nat.ltb 100 (length qrData) then js "..." else []).

(** The URL branch: all three parameters must be present and not empty,
    otherwise it throws. *)
Definition resolve_url (qrData : jsstring) : option json :=
  match URL_searchParams_get P qrData with
  | None => None
  | Some get =>
      let registrationId := get (js "registrationId") in
      let eventId := get (js "eventId") in
      let userId := get (js "userId") in
      match registrationId, eventId, userId with
      | Some r, Some e, Some u =>
          if negb (str_falsy registrationId) && negb (str_falsy eventId)
             && negb (str_falsy userId)
          then Some (JObject [ (js "registrationId", JString r);
                               (js "eventId", JString e);
                               (js "userId", JString u) ])
          else None
      | _, _, _ => None
      end
  end.

(** What is tried when [JSON.parse(qrData)] has thrown; [None] when this
    throws in turn. *)
Definition resolve_fallback (qrData : jsstring) : option json :=
  if startsWith (js "http") qrData then resolve_url qrData
  else if matches_simple_id qrData then
    Some (JObject [ (js "registrationId", JString qrData) ])
  else JSON_parse (Buffer_base64_utf8 P qrData).

(** The value of [qrCodeData]. *)
Definition resolve (qrData : jsstring) : Response + json :=
  match JSON_parse qrData with
  | Some qrCodeData => inr qrCodeData
  | None =>
      match resolve_fallback qrData with
      | Some qrCodeData => inr qrCodeData
      | None => inl (InvalidQRFormat (received_preview qrData))
      end
  end.

(** [const { registrationId } = qrCodeData] and the test that follows.
    Destructuring [null] throws, which the outer handler turns into a 500. *)
Definition registrationId_of (qrCodeData : json) : Response + json :=
  match qrCodeData with
  | JNull => inl InternalServerError
  | _ =>
      match get_prop qrCodeData (js "registrationId") with
      | Some registrationId =>
          if truthy P (Some registrationId) then inr registrationId
          else inl MissingRegistrationId
      | None => inl MissingRegistrationId
      end
  end.

(** The column values a [where] value selects: those equal to it for a
    string, what the client makes of it otherwise. *)
Definition prisma_where (v : json) : option (jsstring -> bool) :=
  match v with
  | JString s => Some (str_eqb s)
  | _ => prisma_filter P v
  end.

(** The second and third lookups of the ticket: by registration id, then
    by ticket number; [None] when the client throws. *)
Definition find_ticket_by_id (st : Store) (registrationId : json)
  : option (option Ticket) :=
  match prisma_where registrationId with
  | None => None
  | Some selects =>
      match find (fun t => selects (ticket_registrationId t)) (tickets st) with
      | Some ticket => Some (Some ticket)
      | None => Some (find (fun t => selects (ticketNumber t)) (tickets st))
      end
  end.

(** The first lookup: the ticket whose stored payload text is the raw input. *)
Definition find_ticket_by_text (st : Store) (qrData : jsstring) : option Ticket :=
  find (fun t => opt_str_eqb (qrCodeData t) (Some qrData)) (tickets st).

(** The three lookups of the ticket, in order. *)
Definition find_ticket (st : Store) (qrData : jsstring) (registrationId : json)
  : option (option Ticket) :=
  match find_ticket_by_text st qrData with
  | Some ticket => Some (Some ticket)
  | None => find_ticket_by_id st registrationId
  end.

Definition preview (t : Ticket) : TicketPreview :=
  {| preview_id := substring0 8 (ticket_id t) ++ js "...";
     preview_registrationId := ticket_registrationId t;
     preview_ticketNumber := ticketNumber t;
     qrDataPreview :=
       match qrCodeData t with
       | Some q => substring0 100 q
       | None => js "undefined"
       end ++ js "..." |}.

(** Everything up to the ticket: who calls, what was scanned, which ticket. *)
Definition scan_frontend (st : Store) (session : option SessionUser) (body : ScanBody)
  : Response + (jsstring * json * Ticket) :=
  _ <- authorize session ;;
  match qrData body with
  | None => inl QRDataRequired
  | Some [] => inl QRDataRequired
  | Some qr =>
      qrCodeData <- resolve qr ;;
      registrationId <- registrationId_of qrCodeData ;;
      match find_ticket st qr registrationId with
      | None => inl InternalServerError
      | Some None =>
          inl (InvalidTicket registrationId (substring0 200 qr)
                 (map preview (firstn 5 (tickets st))))
      | Some (Some ticket) => inr (qr, registrationId, ticket)
      end
  end.

(** The checks on the registration and the event, at the time [now];
    [inr tt] when the scan may proceed. *)
Definition check_scannable (now : Z) (ticket : Ticket) : Response + unit :=
  match registration_status (registration ticket) with
  | RegistrationStatus.CONFIRMED =>
      let event := registration_event (registration ticket) in
      match event_status event with
      | EventStatus.PUBLISHED | EventStatus.ONGOING =>
          if Z.ltb now (startDate event) then inl EventNotStarted
          else if Z.gtb now (endDate event) then inl EventEnded
          else inr tt
      | status => inl (EventNotAvailable status)
      end
  | _ => inl RegistrationNotConfirmed
  end.

(** The rows [where: { registrationId, sessionId: sessionId || null }]
    selects. *)
Definition attendance_for (selects : jsstring -> bool) (sessionId' : option jsstring)
    (a : Attendance) : bool :=
  selects (attendance_registrationId a) && opt_str_eqb (sessionId a) sessionId'.

Definition new_attendance (st : Store) (registrationId : jsstring)
    (sessionId' : option jsstring) (time : Z) (how : CheckInMethod.t) : Attendance :=
  {| attendance_id := prisma_new_id P (map attendance_id (attendances st));
     attendance_registrationId := registrationId;
     sessionId := sessionId';
     checkInTime := Some time;
     checkOutTime := None;
     method := how |}.

(** [action === 'checkin']; [time] is the [new Date()] of the write.  The
    client takes only a string as the [registrationId] of a new row. *)
Definition scan_checkin (st : Store) (time : Z) (registrationId : json)
    (sessionId' : option jsstring) : Response * Store :=
  match prisma_where registrationId with
  | None => (InternalServerError, st)
  | Some selects =>
      match find (attendance_for selects (sessionId_or_null sessionId')) (attendances st) with
      | Some existingAttendance => (AlreadyCheckedIn existingAttendance, st)
      | None =>
          match registrationId with
          | JString r =>
              let attendance :=
                new_attendance st r (sessionId_or_null sessionId') time CheckInMethod.QR_CODE in
              (CheckInSuccessful attendance,
               set_attendances st (attendances st ++ [attendance]))
          | _ => (InternalServerError, st)
          end
      end
  end.

(** The rows with [checkInTime: { not: null }, checkOutTime: null]. *)
Definition is_open (a : Attendance) : bool :=
  is_some (checkInTime a) && negb (is_some (checkOutTime a)).

(** [action === 'checkout'] *)
Definition scan_checkout (st : Store) (time : Z) (registrationId : json)
    (sessionId' : option jsstring) : Response * Store :=
  match prisma_where registrationId with
  | None => (InternalServerError, st)
  | Some selects =>
      match find (fun a => attendance_for selects (sessionId_or_null sessionId') a && is_open a)
                 (attendances st) with
      | None => (NoActiveCheckIn, st)
      | Some attendance =>
          let rows := update_checkOutTime (attendance_id attendance) time (attendances st) in
          match find (fun a => str_eqb (attendance_id a) (attendance_id attendance)) rows with
          | Some updatedAttendance =>
              (CheckOutSuccessful updatedAttendance, set_attendances st rows)
          | None => (InternalServerError, st)
          end
      end
  end.

(** The dispatch on [action], which defaults to ['checkin']. *)
Definition scan_action (st : Store) (time : Z) (registrationId : json)
    (body : ScanBody) : Response * Store :=
  let action' := match action body with Some a => a | None => js "checkin" end in
  if str_eqb action' (js "checkin") then
    scan_checkin st time registrationId (scan_sessionId body)
  else if str_eqb action' (js "checkout") then
    scan_checkout st time registrationId (scan_sessionId body)
  else (InvalidAction, st).

(** The handler.  [now] is the clock read before the time checks, [time] the
    clock read when the attendance row is written. *)
Definition scan_POST (st : Store) (now time : Z) (session : option SessionUser)
    (body : ScanBody) : Response * Store :=
  match scan_frontend st session body with
  | inl early => (early, st)
  | inr (_, registrationId, ticket) =>
      match check_scannable now ticket with
      | inl early => (early, st)
      | inr _ => scan_action st time registrationId body
      end
  end.

(* ================================================================== *)
(** ** The manual route: [POST /api/attendance] *)
(* ================================================================== *)

Definition manual_checkin (st : Store) (time : Z) (registrationId : jsstring)
    (sessionId' : option jsstring) : Response * Store :=
  match find (attendance_for (str_eqb registrationId) (sessionId_or_null sessionId'))
             (attendances st) with
  | Some existingAttendance => (AlreadyCheckedInForSession existingAttendance, st)
  | None =>
      let attendance :=
        new_attendance st registrationId (sessionId_or_null sessionId') time
                       CheckInMethod.MANUAL in
      (CheckInSuccessful attendance, set_attendances st (attendances st ++ [attendance]))
  end.

(** Everything before the attendance is looked up: the registration the body
    names, which must exist and be confirmed. *)
Definition manual_frontend (st : Store) (session : option SessionUser) (body : ManualBody)
  : Response + (jsstring * Registration) :=
  _ <- authorize session ;;
  match manual_registrationId body with
  | None => inl RegistrationIdRequired
  | Some [] => inl RegistrationIdRequired
  | Some registrationId =>
      match find (fun r => str_eqb registrationId (registration_id r)) (registrations st) with
      | None => inl RegistrationNotFound
      | Some registration' =>
          match registration_status registration' with
          | RegistrationStatus.CONFIRMED => inr (registrationId, registration')
          | _ => inl RegistrationNotConfirmed
          end
      end
  end.

Definition manual_POST (st : Store) (time : Z) (session : option SessionUser)
    (body : ManualBody) : Response * Store :=
  match manual_frontend st session body with
  | inl early => (early, st)
  | inr (registrationId, _) =>
      manual_checkin st time registrationId (manual_sessionId body)
  end.

(** The raw input is the stored text of no ticket, or of the ticket that the
    registration id finds as well. *)
Definition stored_text_names_ticket (st : Store) (qrData : jsstring)
    (registrationId : json) : Prop :=
  forall ticket, find_ticket_by_text st qrData = Some ticket ->
                 find_ticket_by_id st registrationId = Some (Some ticket).

End ScanRoute.

(** The platform with another keyed hash. *)
Definition with_hmac (P : Platform) (hmac : jsstring -> jsstring -> jsstring) : Platform :=
  {| hmac_sha256_hex := hmac;
     toISOString := toISOString P;
     Date_getTime := Date_getTime P;
     Number_truthy := Number_truthy P;
     Number_stringify := Number_stringify P;
     URL_searchParams_get := URL_searchParams_get P;
     Buffer_base64_utf8 := Buffer_base64_utf8 P;
     prisma_filter := prisma_filter P;
     prisma_new_id := prisma_new_id P |}.

(** A response without the echo of the raw input that the ticket-not-found
    diagnostic carries. *)
Definition without_echo (r : Response) : Response :=
  match r with
  | InvalidTicket searchedId _ availableTickets =>
      InvalidTicket searchedId [] availableTickets
  | _ => r
  end.

(* ================================================================== *)
(** ** A sample platform *)
(* ================================================================== *)

(** One platform to run the definitions on: it prints and reads dates in the
    format of [toISOString], splits the query of an [http(s)://] address at
    [&] and [=], decodes base64 text of ASCII content, prints an integer
    literal as it stands, rejects every [where] value that is not a string,
    and stands in for the keyed hash with a toy digest of 64 hexadecimal
    digits. *)
Module Sample.

Definition digest (key message : jsstring) : jsstring :=
  let h := fold_left (fun acc c =>
                        ((acc * 6364136223846793005 + c + 1442695040888963407) mod 2 ^ 256)%N)
                     (key ++ 0%N :: message) 7640891576956012808%N in
  map (fun i => hex_digit ((h / 16 ^ N.of_nat (63 - i)) mod 16)%N) (seq 0 64).

(** Decimal digits, padded with zeros to [width] digits. *)
Fixpoint digits (width : nat) (n : Z) : jsstring :=
  match width with
  | O => []
  | S w => digits w (n / 10) ++ [Z.to_N (48 + n mod 10)]
  end.

(** The civil date of a day number (days since 1970-01-01). *)
Definition civil_from_days (days : Z) : Z * Z * Z :=
  let z := (days + 719468)%Z in
  let era := (z / 146097)%Z in
  let doe := (z - era * 146097)%Z in
  let yoe := ((doe - doe / 1460 + doe / 36524 - doe / 146096) / 365)%Z in
  let doy := (doe - (365 * yoe + yoe / 4 - yoe / 100))%Z in
  let mp := ((5 * doy + 2) / 153)%Z in
  let d := (doy - (153 * mp + 2) / 5 + 1)%Z in
  let m := (if Z.ltb mp 10 then mp + 3 else mp - 9)%Z in
  let y := (yoe + era * 400 + (if Z.leb m 2 then 1 else 0))%Z in
  (y, m, d).

Definition days_from_civil (y m d : Z) : Z :=
  let y' := (if Z.leb m 2 then y - 1 else y)%Z in
  let era := (y' / 400)%Z in
  let yoe := (y' - era * 400)%Z in
  let mp := (if Z.ltb 2 m then m - 3 else m + 9)%Z in
  let doy := ((153 * mp + 2) / 5 + d - 1)%Z in
  let doe := (yoe * 365 + yoe / 4 - yoe / 100 + doy)%Z in
  (era * 146097 + doe - 719468)%Z.

Definition iso_string (t : Z) : jsstring :=
  let day := (t / 86400000)%Z in
  let ms := (t mod 86400000)%Z in
  let '(y, m, d) := civil_from_days day in
  let year :=
    if Z.leb 0 y && Z.leb y 9999 then digits 4 y
    else (if Z.ltb y 0 then js "-" else js "+") ++ digits 6 (Z.abs y) in
  year ++ js "-" ++ digits 2 m ++ js "-" ++ digits 2 d ++ js "T"
       ++ digits 2 (ms / 3600000) ++ js ":" ++ digits 2 ((ms / 60000) mod 60) ++ js ":"
       ++ digits 2 ((ms / 1000) mod 60) ++ js "." ++ digits 3 (ms mod 1000) ++ js "Z".

Definition number_of (s : jsstring) : option Z :=
  if forallb is_digit s then Some (Z.of_N (decimal_value 0 s)) else None.

(** Reads [YYYY-MM-DDTHH:mm:ss.sssZ]; anything else is no date here. *)
Definition time_of (v : option json) : option Z :=
  match v with
  | Some (JString [y1; y2; y3; y4; 45; m1; m2; 45; d1; d2; 84;
                   h1; h2; 58; n1; n2; 58; s1; s2; 46; f1; f2; f3; 90]%N) =>
      match number_of [y1; y2; y3; y4], number_of [m1; m2], number_of [d1; d2],
            number_of [h1; h2], number_of [n1; n2], number_of [s1; s2],
            number_of [f1; f2; f3] with
      | Some y, Some m, Some d, Some h, Some n, Some s, Some f =>
          Some (days_from_civil y m d * 86400000 + h * 3600000 + n * 60000 + s * 1000 + f)%Z
      | _, _, _, _, _, _, _ => None
      end
  | _ => None
  end.

Definition number_truthy (literal : jsstring) : bool :=
  let fix mantissa (s : jsstring) : bool :=
    match s with
    | [] => false
    | c :: rest =>
        if N.eqb c 101 || N.eqb c 69 then false
        else in_range 49 57 c || mantissa rest
    end in
  mantissa literal.

(** [s] up to the first [sep], and what follows it. *)
Fixpoint split_at (sep : N) (s : jsstring) : jsstring * option jsstring :=
  match s with
  | [] => ([], None)
  | c :: rest =>
      if N.eqb c sep then ([], Some rest)
      else let (a, b) := split_at sep rest in (c :: a, b)
  end.

Fixpoint split_all (fuel : nat) (sep : N) (s : jsstring) : list jsstring :=
  match fuel with
  | O => [s]
  | S f =>
      match split_at sep s with
      | (a, Some b) => a :: split_all f sep b
      | (a, None) => [a]
      end
  end.

Definition query_pairs (query : jsstring) : list (jsstring * jsstring) :=
  map (fun part => match split_at 61 part with
                   | (name, Some value) => (name, value)
                   | (name, None) => (name, [])
                   end)
      (filter (fun part => match part with [] => false | _ => true end)
              (split_all (length query) 38 query)).

Fixpoint first_value (name : jsstring) (pairs : list (jsstring * jsstring))
  : option jsstring :=
  match pairs with
  | [] => None
  | (n, v) :: rest => if str_eqb name n then Some v else first_value name rest
  end.

Definition search_params (s : jsstring) : option (jsstring -> option jsstring) :=
  let after_scheme :=
    match strip_prefix (js "https://") s with
    | Some r => Some r
    | None => strip_prefix (js "http://") s
    end in
  match after_scheme with
  | Some (c :: r) =>
      if N.eqb c 47 || N.eqb c 63 || N.eqb c 35 then None
      else
        let (before_fragment, _) := split_at 35 (c :: r) in
        match split_at 63 before_fragment with
        | (_, Some query) => Some (fun name => first_value name (query_pairs query))
        | (_, None) => Some (fun _ => None)
        end
  | _ => None
  end.

Definition sextet (c : N) : option N :=
  if is_upper c then Some (c - 65)%N
  else if is_lower c then Some (c - 71)%N
  else if is_digit c then Some (c + 4)%N
  else if N.eqb c 43 || N.eqb c 45 then Some 62%N
  else if N.eqb c 47 || N.eqb c 95 then Some 63%N
  else None.

Fixpoint sextets (s : jsstring) : list N :=
  match s with
  | [] => []
  | c :: rest =>
      if N.eqb c 61 then []
      else match sextet c with
           | Some v => v :: sextets rest
           | None => sextets rest
           end
  end.

Definition ascii_or_replacement (b : N) : N :=
  if N.ltb b 128 then b else 65533%N.

Fixpoint octets (fuel : nat) (l : list N) : jsstring :=
  match fuel, l with
  | S f, a :: b :: c :: d :: rest =>
      ascii_or_replacement (a * 4 + b / 16)
        :: ascii_or_replacement ((b mod 16) * 16 + c / 4)
        :: ascii_or_replacement ((c mod 4) * 64 + d) :: octets f rest
  | S _, [a; b; c] =>
      [ascii_or_replacement (a * 4 + b / 16);
       ascii_or_replacement ((b mod 16) * 16 + c / 4)]
  | S _, [a; b] => [ascii_or_replacement (a * 4 + b / 16)]
  | _, _ => []
  end%N.

Definition base64_text (s : jsstring) : jsstring :=
  octets (length s) (sextets s).

Definition fresh_id (used : list jsstring) : jsstring :=
  js "att" ++ repeat 48%N (S (fold_right (fun s m => Nat.max (length s) m) 0 used)).

Definition platform : Platform :=
  {| hmac_sha256_hex := digest;
     toISOString := iso_string;
     Date_getTime := time_of;
     Number_truthy := number_truthy;
     Number_stringify := fun literal => literal;
     URL_searchParams_get := search_params;
     Buffer_base64_utf8 := base64_text;
     prisma_filter := fun _ => None;
     prisma_new_id := fresh_id |}.

(** A confirmed registration for a published event of 15 March 2024, 09:00
    to 17:00 UTC, with the ticket issued for it the evening before. *)
Definition user1 : User :=
  {| user_id := js "u1"; user_name := Some (js "Ani"); user_email := js "ani@example.com" |}.

Definition event1 : Event :=
  {| event_id := js "e1"; event_name := js "Seminar";
     startDate := 1710493200000; endDate := 1710522000000;
     event_status := EventStatus.PUBLISHED |}.

Definition registration1 : Registration :=
  {| registration_id := js "r1";
     registration_status := RegistrationStatus.CONFIRMED;
     registration_user := user1;
     registration_event := event1 |}.

Definition payload1 : jsstring :=
  generateQRCodeData platform None 1710450000000 (js "r1") (js "e1") (js "u1").

Definition ticket1 : Ticket :=
  {| ticket_id := js "t1";
     ticket_registrationId := js "r1";
     ticketNumber := js "TK-LTS0V1-9F3A21BC";
     qrCodeData := Some payload1;
     registration := registration1 |}.

Definition store0 : Store :=
  {| tickets := [ticket1]; registrations := [registration1]; attendances := [] |}.

Definition open_row : Attendance :=
  {| attendance_id := js "a1";
     attendance_registrationId := js "r1";
     sessionId := None;
     checkInTime := Some 1710493800000%Z;
     checkOutTime := None;
     method := CheckInMethod.QR_CODE |}.

Definition store1 : Store :=
  {| tickets := [ticket1]; registrations := [registration1]; attendances := [open_row] |}.

Definition admin : SessionUser :=
  {| session_user_id := js "admin"; role := UserRole.ADMIN |}.


Definition checkout_r1 : ScanBody :=
  {| qrData := Some (js "r1"); scan_sessionId := None; action := Some (js "checkout") |}.

Definition manual_r1 : ManualBody :=
  {| manual_registrationId := Some (js "r1"); manual_sessionId := None |}.

(** A time during the event. *)
Definition noon : Z := 1710504000000.

End Sample.

(* ================================================================== *)
(** ** Tactics *)
(* ================================================================== *)

(** Boolean tests on characters, as propositions. *)
Ltac bools :=
  repeat match goal with
         | H : N.eqb _ _ = true |- _ => apply N.eqb_eq in H
         | H : N.eqb _ _ = false |- _ => apply N.eqb_neq in H
         | H : N.ltb _ _ = true |- _ => apply N.ltb_lt in H
         | H : N.ltb _ _ = false |- _ => apply N.ltb_ge in H
         | H : N.leb _ _ = true |- _ => apply N.leb_le in H
         | H : N.leb _ _ = false |- _ => apply N.leb_gt in H
         | H : andb _ _ = true |- _ => apply andb_prop in H; destruct H
         | H : andb _ _ = false |- _ => apply andb_false_iff in H; destruct H
         end.

(** One case analysis on what a hypothesis branches on. *)
Ltac break_match H :=
  match type of H with
  | context [match ?x with _ => _ end] => destruct x eqn:?
  | context [if ?x then _ else _] => destruct x eqn:?
  end.

(* ================================================================== *)
(** ** An attendance row by its id: [PUT /api/attendance/[id]] *)
(* ================================================================== *)

(** The responses of the route.  Those it words as the scan route does
    (401, 403, the success of a check-out, [Invalid action], 500) are the
    scan route's. *)
Inductive AttendanceResponse : Type :=
| Shared (response : Response)
| AttendanceNotFound
| AlreadyCheckedOut.

Definition attendance_http_status (r : AttendanceResponse) : Z :=
  match r with
  | Shared response => http_status response
  | AttendanceNotFound => 404
  | AlreadyCheckedOut => 400
  end.

(** [prisma.attendance.findUnique({ where: { id } })] *)
Definition find_attendance (st : Store) (attendanceId : jsstring) : option Attendance :=
  find (fun a => str_eqb (attendance_id a) attendanceId) (attendances st).

(** The handler; [params.id] is [attendanceId], [action] the field of the
    body, [time] the [new Date()] of the write.  The row is looked up before
    the action is. *)
Definition attendance_PUT (st : Store) (time : Z) (session : option SessionUser)
    (attendanceId : jsstring) (action' : option jsstring) : AttendanceResponse * Store :=
  match authorize session with
  | inl early => (Shared early, st)
  | inr _ =>
      match find_attendance st attendanceId with
      | None => (AttendanceNotFound, st)
      | Some attendance =>
          if opt_str_eqb action' (Some (js "checkout")) then
            if is_some (checkOutTime attendance) then (AlreadyCheckedOut, st)
            else
              let rows := update_checkOutTime attendanceId time (attendances st) in
              match find (fun a => str_eqb (attendance_id a) attendanceId) rows with
              | Some updatedAttendance =>
                  (Shared (CheckOutSuccessful updatedAttendance), set_attendances st rows)
              | None => (Shared InternalServerError, st)
              end
          else (Shared InvalidAction, st)
      end
  end.

(** The (registrationId, sessionId) pairs of the attendance rows. *)
Definition attendance_pairs (st : Store) : list (jsstring * option jsstring) :=
  map (fun a => (attendance_registrationId a, sessionId a)) (attendances st).

(* ================================================================== *)
(** ** The tables of the ticket and registration routes *)
(* ================================================================== *)

(** The rows as the tables hold them, with the columns these routes read or
    write; the relations a query includes are joined on the foreign keys
    ([registration_of], [event_of]).  Columns that are only copied into a
    response (names, descriptions, locations, [customFields], [createdAt])
    are left out. *)
Record EventRow : Type := {
  eventRow_id : jsstring;
  eventRow_startDate : Z;
  eventRow_endDate : Z;
  eventRow_status : EventStatus.t;
  maxCapacity : option Z;
  createdById : jsstring
}.

Record RegistrationRow : Type := {
  registrationRow_id : jsstring;
  eventId : jsstring;
  userId : jsstring;
  category : jsstring;
  registrationRow_status : RegistrationStatus.t
}.

Record TicketRow : Type := {
  ticketRow_id : jsstring;
  registrationId : jsstring;
  ticketRow_ticketNumber : jsstring;
  qrCode : jsstring;
  ticketRow_qrCodeData : option jsstring;
  isUsed : bool;
  usedAt : option Z
}.

Record Database : Type := {
  events : list EventRow;
  registrationRows : list RegistrationRow;
  ticketRows : list TicketRow
}.

(** [include: { registration: ... }] of a ticket query. *)
Definition registration_of (db : Database) (ticket : TicketRow) : option RegistrationRow :=
  find (fun r => str_eqb (registrationRow_id r) (registrationId ticket)) (registrationRows db).

(** [include: { event: ... }] of a registration query. *)
Definition event_of (db : Database) (registration' : RegistrationRow) : option EventRow :=
  find (fun e => str_eqb (eventRow_id e) (eventId registration')) (events db).

(** [!session?.user?.id]: the routes below go on with a session whose user
    id is not empty. *)
Definition signed_in (session : option SessionUser) : option SessionUser :=
  match session with
  | Some user => if str_falsy (Some (session_user_id user)) then None else Some user
  | None => None
  end.

(** [role === 'EVENT_ORGANIZER' && event.createdById !== session.user.id] *)
Definition not_own_event (user : SessionUser) (event : EventRow) : bool :=
  match role user with
  | UserRole.EVENT_ORGANIZER => negb (str_eqb (createdById event) (session_user_id user))
  | _ => false
  end.

(* ================================================================== *)
(** ** [POST /api/qr/verify] *)
(* ================================================================== *)

Inductive QRVerifyResponse : Type :=
| QRVerifyUnauthorized
| QRVerifyForbidden
| QRCodeDataRequired
| QRCodeInvalid (error : jsstring)
| QRTicketNotFound
| QRCodeDoesNotMatch
| QRNotOwnEvent
| EventHasNotStarted (eventStart : jsstring)
| EventHasEnded (eventEnd : jsstring)
| QRValid (ticket : TicketRow) (registration : RegistrationRow) (event : EventRow)
| QRVerifyFailed.

Definition qr_verify_status (r : QRVerifyResponse) : Z :=
  match r with
  | QRVerifyUnauthorized => 401
  | QRVerifyForbidden => 403
  | QRNotOwnEvent => 403
  | QRTicketNotFound => 404
  | QRValid _ _ _ => 200
  | QRVerifyFailed => 500
  | _ => 400
  end.

Section TicketRoutes.

Variable P : Platform.

(** [where: { registrationId: qrData.registrationId }]: a property that is
    [undefined] is no condition. *)
Definition where_registrationId (v : option json) : option (jsstring -> bool) :=
  match v with
  | None => Some (fun _ => true)
  | Some registrationId => prisma_where P registrationId
  end.

(** The handler.  [verify_time] is the clock [verifyQRCodeData] reads, [now]
    the one read before the time checks; [env] is [NEXTAUTH_SECRET]. *)
Definition qr_verify_POST (env : option jsstring) (db : Database) (verify_time now : Z)
    (session : option SessionUser) (qrCodeData' : option jsstring) : QRVerifyResponse :=
  match signed_in session with
  | None => QRVerifyUnauthorized
  | Some user =>
      match role user with
      | UserRole.USER => QRVerifyForbidden
      | _ =>
          match qrCodeData' with
          | None => QRCodeDataRequired
          | Some [] => QRCodeDataRequired
          | Some text =>
              let verification := verifyQRCodeData P env verify_time text in
              if negb (valid verification) then
                QRCodeInvalid (match error verification with
                               | Some (c :: e) => c :: e
                               | _ => js "Invalid QR code"
                               end)
              else
                match data verification with
                | None => QRVerifyFailed
                | Some JNull => QRVerifyFailed
                | Some qrData =>
                    match where_registrationId (get_prop qrData (js "registrationId")) with
                    | None => QRVerifyFailed
                    | Some selects =>
                        match find (fun t => selects (registrationId t)) (ticketRows db) with
                        | None => QRTicketNotFound
                        | Some ticket =>
                            match registration_of db ticket with
                            | None => QRVerifyFailed
                            | Some registration' =>
                                match event_of db registration' with
                                | None => QRVerifyFailed
                                | Some event =>
                                    if strict_neq (get_prop qrData (js "eventId"))
                                                  (eventId registration')
                                       || strict_neq (get_prop qrData (js "userId"))
                                                     (userId registration')
                                    then QRCodeDoesNotMatch
                                    else if not_own_event user event then QRNotOwnEvent
                                    else if Z.ltb now (eventRow_startDate event) then
                                      EventHasNotStarted (toISOString P (eventRow_startDate event))
                                    else if Z.gtb now (eventRow_endDate event) then
                                      EventHasEnded (toISOString P (eventRow_endDate event))
                                    else QRValid ticket registration' event
                                end
                            end
                        end
                    end
                end
          end
      end
  end.

End TicketRoutes.

(* ================================================================== *)
(** ** [PUT /api/tickets/[id]]: marking a ticket as used *)
(* ================================================================== *)

Inductive TicketResponse : Type :=
| TicketUnauthorized
| TicketForbidden
| TicketInvalidAction
| TicketNotFound
| TicketNotOwnEvent
| TicketAlreadyUsed
| TicketCheckedIn (ticket : TicketRow)
| TicketCheckInFailed.

Definition ticket_http_status (r : TicketResponse) : Z :=
  match r with
  | TicketUnauthorized => 401
  | TicketForbidden => 403
  | TicketNotOwnEvent => 403
  | TicketNotFound => 404
  | TicketCheckedIn _ => 200
  | TicketCheckInFailed => 500
  | _ => 400
  end.

(** [data: { isUsed: true, usedAt: time }] applied to a row. *)
Definition with_used (time : Z) (t : TicketRow) : TicketRow :=
  {| ticketRow_id := ticketRow_id t;
     registrationId := registrationId t;
     ticketRow_ticketNumber := ticketRow_ticketNumber t;
     qrCode := qrCode t;
     ticketRow_qrCodeData := ticketRow_qrCodeData t;
     isUsed := true;
     usedAt := Some time |}.

(** The row [prisma.ticket.update] changes: the one with the given id. *)
Fixpoint update_used (id : jsstring) (time : Z) (rows : list TicketRow) : list TicketRow :=
  match rows with
  | [] => []
  | t :: rest =>
      if str_eqb (ticketRow_id t) id then with_used time t :: rest
      else t :: update_used id time rest
  end.

Definition set_ticketRows (db : Database) (rows : list TicketRow) : Database :=
  {| events := events db; registrationRows := registrationRows db; ticketRows := rows |}.

(** [prisma.ticket.findUnique({ where: { id } })] *)
Definition find_ticketRow (db : Database) (id : jsstring) : option TicketRow :=
  find (fun t => str_eqb (ticketRow_id t) id) (ticketRows db).

(** The handler; [params.id] is [id], [action] the field of the body, [time]
    the [new Date()] of the write. *)
Definition ticket_PUT (db : Database) (time : Z) (session : option SessionUser)
    (id : jsstring) (action' : option jsstring) : TicketResponse * Database :=
  match signed_in session with
  | None => (TicketUnauthorized, db)
  | Some user =>
      match role user with
      | UserRole.USER => (TicketForbidden, db)
      | _ =>
          if negb (opt_str_eqb action' (Some (js "check-in"))) then (TicketInvalidAction, db)
          else
            match find_ticketRow db id with
            | None => (TicketNotFound, db)
            | Some ticket =>
                match registration_of db ticket with
                | None => (TicketCheckInFailed, db)
                | Some registration' =>
                    match event_of db registration' with
                    | None => (TicketCheckInFailed, db)
                    | Some event =>
                        if not_own_event user event then (TicketNotOwnEvent, db)
                        else if isUsed ticket then (TicketAlreadyUsed, db)
                        else
                          let rows := update_used id time (ticketRows db) in
                          match find (fun t => str_eqb (ticketRow_id t) id) rows with
                          | Some updatedTicket =>
                              (TicketCheckedIn updatedTicket, set_ticketRows db rows)
                          | None => (TicketCheckInFailed, db)
                          end
                    end
                end
            end
      end
  end.

(** Sample rows for the routes above: the ticket of [Sample.ticket1] as the
    tables hold it. *)
Module SampleDb.

Definition event1 : EventRow :=
  {| eventRow_id := js "e1";
     eventRow_startDate := 1710493200000; eventRow_endDate := 1710522000000;
     eventRow_status := EventStatus.PUBLISHED;
     maxCapacity := Some 2%Z;
     createdById := js "org1" |}.

Definition registration1 : RegistrationRow :=
  {| registrationRow_id := js "r1"; eventId := js "e1"; userId := js "u1";
     category := js "PUBLIC";
     registrationRow_status := RegistrationStatus.CONFIRMED |}.

Definition ticket1 : TicketRow :=
  {| ticketRow_id := js "t1"; registrationId := js "r1";
     ticketRow_ticketNumber := js "TK-LTS0V1-9F3A21BC";
     qrCode := js "data:image/png;base64,AAAA";
     ticketRow_qrCodeData := Some Sample.payload1;
     isUsed := false; usedAt := None |}.

Definition db1 : Database :=
  {| events := [event1]; registrationRows := [registration1]; ticketRows := [ticket1] |}.

Definition organizer : SessionUser :=
  {| session_user_id := js "org1"; role := UserRole.EVENT_ORGANIZER |}.

End SampleDb.

(* ================================================================== *)
(** ** Ticket numbers and tickets: [generateTicketNumber], [generateTicket] *)
(* ================================================================== *)

(** The digits of [n.toString(36)] for a positive integer, last digit first
    into [acc]; [hex_digit] writes the digits [0-9a-z].  The fuel is the
    number of bits of [n], which is enough. *)
Fixpoint digits36 (fuel : nat) (n : N) (acc : jsstring) : jsstring :=
  match fuel with
  | O => acc
  | S fuel' =>
      let acc' := hex_digit (n mod 36) :: acc in
      if N.eqb (n / 36) 0 then acc' else digits36 fuel' (n / 36) acc'
  end.

(** [n.toString(36)] for an integer. *)
Definition toString36 (n : Z) : jsstring :=
  match n with
  | Z0 => js "0"
  | Zpos p => digits36 (N.to_nat (N.size (Npos p))) (Npos p) []
  | Zneg p => 45%N :: digits36 (N.to_nat (N.size (Npos p))) (Npos p) []
  end.

(** [buffer.toString('hex')], each byte as two digits. *)
Definition Buffer_hex (bytes : list N) : jsstring :=
  flat_map (fun b => [hex_digit ((b / 16) mod 16); hex_digit (b mod 16)]) bytes.

(** [s.toUpperCase()] for a text of ASCII characters, as a hex text is. *)
Definition toUpperCase (s : jsstring) : jsstring :=
  map (fun c => if is_lower c then (c - 32)%N else c) s.

(** [generateTicketNumber()]: [now] is [Date.now()] and [random] are the
    bytes of [crypto.randomBytes(4)]. *)
Definition generateTicketNumber (now : Z) (random : list N) : jsstring :=
  let timestamp := toString36 now in
  let random' := toUpperCase (Buffer_hex random) in
  js "TK-" ++ timestamp ++ js "-" ++ random'.

(** The value a text has in base 36, for reading a timestamp back. *)
Definition digit36_value (c : jschar) : N :=
  if N.ltb c 58 then (c - 48)%N else (c - 87)%N.

Definition parse36 (s : jsstring) : N :=
  fold_left (fun v c => (v * 36 + digit36_value c)%N) s 0%N.

(** What a call of [generateTicket] reads from outside: the clock of
    [generateTicketNumber], the random bytes, the clock of
    [generateQRCodeData], and [QRCode.toDataURL], which may throw. *)
Record Issuer : Type := {
  Date_now : Z;
  randomBytes : list N;
  issued_at : Z;
  QRCode_toDataURL : jsstring -> option jsstring
}.

(** [generateQRCodeImage(data)]; [None] when it throws. *)
Definition generateQRCodeImage (I : Issuer) (data' : jsstring) : option jsstring :=
  QRCode_toDataURL I data'.

Record TicketData : Type := {
  ticketData_ticketNumber : jsstring;
  ticketData_qrCodeData : jsstring;
  ticketData_qrCode : jsstring
}.

(** [generateTicket(registrationId, eventId, userId)]; [None] when it
    throws. *)
Definition generateTicket (P : Platform) (env : option jsstring) (I : Issuer)
    (registrationId' eventId' userId' : jsstring) : option TicketData :=
  let ticketNumber' := generateTicketNumber (Date_now I) (randomBytes I) in
  let qrCodeData' := generateQRCodeData P env (issued_at I) registrationId' eventId' userId' in
  match generateQRCodeImage I qrCodeData' with
  | None => None
  | Some qrCodeImage =>
      Some {| ticketData_ticketNumber := ticketNumber';
              ticketData_qrCodeData := qrCodeData';
              ticketData_qrCode := qrCodeImage |}
  end.

(* ================================================================== *)
(** ** [isValidParticipantCategory] and [POST /api/registrations] *)
(* ================================================================== *)

(** [Object.values(X).includes(v)] for an object of string constants: only
    a string is equal to one of them. *)
Definition includes (values : list jsstring) (v : json) : bool :=
  match v with
  | JString s => existsb (str_eqb s) values
  | _ => false
  end.

Definition ParticipantCategory_values : list jsstring :=
  [js "INTERNAL"; js "PUBLIC"; js "VIP"].

Definition isValidParticipantCategory (category' : json) : bool :=
  includes ParticipantCategory_values category'.

(** The body of a registration request; an absent field is [None]. *)
Record RegisterBody : Type := {
  register_eventId : option jsstring;
  register_category : option json
}.

(** [category = 'PUBLIC'] in the pattern, then
    [isValidParticipantCategory(category) ? category : ParticipantCategory.PUBLIC]. *)
Definition validCategory (body : RegisterBody) : jsstring :=
  let category' :=
    match register_category body with
    | None => JString (js "PUBLIC")
    | Some c => c
    end in
  match category' with
  | JString s => if isValidParticipantCategory category' then s else js "PUBLIC"
  | _ => js "PUBLIC"
  end.

Inductive RegisterResponse : Type :=
| RegisterUnauthorized
| EventIdRequired
| EventNotFound
| EventNotOpen
| EventFull
| AlreadyRegistered
| Registered (registration : RegistrationRow) (ticket : TicketRow)
| RegisteredWithoutTicket (registration : RegistrationRow)
| RegisterFailed.

Definition register_http_status (r : RegisterResponse) : Z :=
  match r with
  | RegisterUnauthorized => 401
  | EventNotFound => 404
  | Registered _ _ => 201
  | RegisteredWithoutTicket _ => 201
  | RegisterFailed => 500
  | _ => 400
  end.

(** [event._count.registrations] *)
Definition count_registrations (db : Database) (event : EventRow) : Z :=
  Z.of_nat (length (filter (fun r => str_eqb (eventId r) (eventRow_id event))
                           (registrationRows db))).

(** [event.maxCapacity && event._count.registrations >= event.maxCapacity] *)
Definition is_full (db : Database) (event : EventRow) : bool :=
  match maxCapacity event with
  | None => false
  | Some capacity =>
      negb (Z.eqb capacity 0) && Z.geb (count_registrations db event) capacity
  end.

(** [where: { eventId_userId: { eventId, userId } }] *)
Definition find_registration (db : Database) (eventId' userId' : jsstring)
  : option RegistrationRow :=
  find (fun r => str_eqb (eventId r) eventId' && str_eqb (userId r) userId')
       (registrationRows db).

Definition add_registration (db : Database) (row : RegistrationRow) : Database :=
  {| events := events db;
     registrationRows := registrationRows db ++ [row];
     ticketRows := ticketRows db |}.

Definition add_ticket (db : Database) (row : TicketRow) : Database :=
  set_ticketRows db (ticketRows db ++ [row]).

Section RegistrationRoute.

Variable P : Platform.

(** The row of [prisma.registration.create]; the database chooses the id. *)
Definition new_registration (db : Database) (eventId' userId' : jsstring)
    (body : RegisterBody) : RegistrationRow :=
  {| registrationRow_id := prisma_new_id P (map registrationRow_id (registrationRows db));
     eventId := eventId';
     userId := userId';
     category := validCategory body;
     registrationRow_status := RegistrationStatus.CONFIRMED |}.

(** The row of [prisma.ticket.create]; a new ticket is unused. *)
Definition new_ticket (db : Database) (registration' : RegistrationRow)
    (ticketData : TicketData) : TicketRow :=
  {| ticketRow_id := prisma_new_id P (map ticketRow_id (ticketRows db));
     registrationId := registrationRow_id registration';
     ticketRow_ticketNumber := ticketData_ticketNumber ticketData;
     qrCode := ticketData_qrCode ticketData;
     ticketRow_qrCodeData := Some (ticketData_qrCodeData ticketData);
     isUsed := false;
     usedAt := None |}.

(** The handler; [env] is [NEXTAUTH_SECRET].  The two [create] calls append
    a row.  A failure of [generateTicket] is caught: the registration stays,
    without a ticket. *)
Definition registrations_POST (env : option jsstring) (I : Issuer) (db : Database)
    (session : option SessionUser) (body : RegisterBody) : RegisterResponse * Database :=
  match signed_in session with
  | None => (RegisterUnauthorized, db)
  | Some user =>
      match register_eventId body with
      | None => (EventIdRequired, db)
      | Some [] => (EventIdRequired, db)
      | Some eventId' =>
          match find (fun e => str_eqb (eventRow_id e) eventId') (events db) with
          | None => (EventNotFound, db)
          | Some event =>
              match eventRow_status event with
              | EventStatus.PUBLISHED =>
                  if is_full db event then (EventFull, db)
                  else
                    match find_registration db eventId' (session_user_id user) with
                    | Some existingRegistration => (AlreadyRegistered, db)
                    | None =>
                        let registration' :=
                          new_registration db eventId' (session_user_id user) body in
                        let db1 := add_registration db registration' in
                        match generateTicket P env I (registrationRow_id registration')
                                eventId' (session_user_id user) with
                        | None => (RegisteredWithoutTicket registration', db1)
                        | Some ticketData =>
                            let ticket := new_ticket db1 registration' ticketData in
                            (Registered registration' ticket, add_ticket db1 ticket)
                        end
                    end
              | _ => (EventNotOpen, db)
              end
          end
      end
  end.

End RegistrationRoute.

Module SampleIssuer.

Definition issuer : Issuer :=
  {| Date_now := 1710450000000;
     randomBytes := [159; 58; 33; 188]%N;
     issued_at := 1710450000000;
     QRCode_toDataURL := fun data' => Some (js "data:image/png;base64," ++ data') |}.

Definition visitor : SessionUser :=
  {| session_user_id := js "u2"; role := UserRole.USER |}.

Definition register_e1 : RegisterBody :=
  {| register_eventId := Some (js "e1"); register_category := Some (JString (js "VIP")) |}.

(** A ticket that carries a generated number, in a store where the
    registration has an attendance row already. *)
Definition number2 : jsstring := generateTicketNumber 1710450000000 [159; 58; 33; 188]%N.

Definition ticket2 : Ticket :=
  {| ticket_id := js "t2";
     ticket_registrationId := js "r1";
     ticketNumber := number2;
     qrCodeData := Some Sample.payload1;
     registration := Sample.registration1 |}.

Definition store2 : Store :=
  {| tickets := [ticket2];
     registrations := [Sample.registration1];
     attendances := [Sample.open_row] |}.

End SampleIssuer.

(* ================================================================== *)
(** * Properties *)
(* ================================================================== *)

(** ** Strings *)

Lemma str_eqb_refl (a : jsstring) : str_eqb a a = true.
Proof.
  induction a as [|x a IH]; simpl; [reflexivity|].
  now rewrite N.eqb_refl, IH.
Qed.

Lemma str_eqb_eq (a b : jsstring) : str_eqb a b = true <-> a = b.
Proof.
  split.
  - revert b; induction a as [|x a IH]; intros [|y b]; simpl; try discriminate; auto.
    intros H; apply andb_prop in H as [Hx Hab].
    apply N.eqb_eq in Hx; subst; f_equal; auto.
  - intros ->; apply str_eqb_refl.
Qed.

Lemma str_eqb_neq (a b : jsstring) : str_eqb a b = false <-> a <> b.
Proof.
  rewrite <- str_eqb_eq. destruct (str_eqb a b); split; congruence.
Qed.

Lemma opt_str_eqb_eq (a b : option jsstring) : opt_str_eqb a b = true <-> a = b.
Proof.
  destruct a, b; simpl; try (split; congruence).
  rewrite str_eqb_eq; split; congruence.
Qed.

(** ** String literals: reading back what [QuoteJSONString] writes *)

Lemma in_range_spec (lo hi c : N) : in_range lo hi c = true <-> (lo <= c <= hi)%N.
Proof.
  unfold in_range. rewrite andb_true_iff, !N.leb_le. tauto.
Qed.

Lemma in_range_false (lo hi c : N) :
  in_range lo hi c = false <-> (c < lo \/ hi < c)%N.
Proof.
  unfold in_range. rewrite andb_false_iff, !N.leb_gt. tauto.
Qed.

Lemma hex_value_digit (n : N) : (n < 16)%N -> hex_value (hex_digit n) = Some n.
Proof.
  intros Hn. unfold hex_value, hex_digit, is_digit.
  destruct (N.ltb n 10) eqn:E; bools.
  - assert (H : in_range 48 57 (48 + n) = true) by (apply in_range_spec; lia).
    rewrite H. f_equal. lia.
  - assert (H1 : in_range 48 57 (87 + n) = false) by (apply in_range_false; lia).
    assert (H2 : in_range 97 102 (87 + n) = true) by (apply in_range_spec; lia).
    rewrite H1, H2. f_equal. lia.
Qed.

Lemma hex4_unicode_escape (c : N) :
  (c < 65536)%N ->
  hex4_value (hex_digit (c / 4096)) (hex_digit ((c / 256) mod 16))
             (hex_digit ((c / 16) mod 16)) (hex_digit (c mod 16)) = Some c.
Proof.
  intros Hc. unfold hex4_value.
  assert (H1 : (c / 4096 < 16)%N) by (apply N.Div0.div_lt_upper_bound; lia).
  assert (H2 : ((c / 256) mod 16 < 16)%N) by (apply N.mod_lt; lia).
  assert (H3 : ((c / 16) mod 16 < 16)%N) by (apply N.mod_lt; lia).
  assert (H4 : (c mod 16 < 16)%N) by (apply N.mod_lt; lia).
  rewrite !hex_value_digit by assumption. f_equal.
  pose proof (N.div_mod c 16 ltac:(lia)) as E1.
  pose proof (N.div_mod (c / 16) 16 ltac:(lia)) as E2.
  pose proof (N.div_mod (c / 256) 16 ltac:(lia)) as E3.
  assert (E4 : (c / 16 / 16 = c / 256)%N) by (rewrite N.Div0.div_div; reflexivity).
  assert (E5 : (c / 256 / 16 = c / 4096)%N) by (rewrite N.Div0.div_div; reflexivity).
  rewrite E4 in E2. rewrite E5 in E3. lia.
Qed.

Lemma parse_literal_char (c : jschar) (r : jsstring) :
  c <> 34%N -> c <> 92%N -> (32 <= c)%N ->
  parse_string_body (c :: r) = cons_fst c (parse_string_body r).
Proof.
  intros H1 H2 H3. cbn [parse_string_body].
  apply N.eqb_neq in H1, H2. apply N.ltb_ge in H3.
  now rewrite H1, H2, H3.
Qed.

Lemma parse_short_escape (e u : jschar) (r : jsstring) :
  e <> 117%N -> unescape e = Some u ->
  parse_string_body (92%N :: e :: r) = cons_fst u (parse_string_body r).
Proof.
  intros H1 H2. cbn [parse_string_body].
  apply N.eqb_neq in H1. now rewrite H1, H2.
Qed.

Lemma parse_unicode_escape (c : jschar) (r : jsstring) :
  (c < 65536)%N ->
  parse_string_body (unicode_escape c ++ r) = cons_fst c (parse_string_body r).
Proof.
  intros Hc. unfold unicode_escape. cbn [app parse_string_body].
  change (N.eqb 92 34) with false. change (N.eqb 92 92) with true.
  change (N.eqb 117 117) with true. cbv iota.
  now rewrite hex4_unicode_escape.
Qed.

Lemma parse_quote_chars_len (n : nat) :
  forall (s tail : jsstring), length s <= n ->
    parse_string_body (quote_chars s ++ 34%N :: tail) = Some (s, tail).
Proof.
  induction n as [|n IH]; intros s tail Hlen.
  - destruct s; [reflexivity | simpl in Hlen; lia].
  - destruct s as [|c rest]; [reflexivity|].
    simpl in Hlen. assert (Hrest : length rest <= n) by lia.
    cbn [quote_chars].
    destruct (N.eqb c 8) eqn:E8;
      [bools; subst; cbn [app]; rewrite (parse_short_escape 98%N 8%N) by (reflexivity || discriminate); now rewrite IH|].
    destruct (N.eqb c 9) eqn:E9;
      [bools; subst; cbn [app]; rewrite (parse_short_escape 116%N 9%N) by (reflexivity || discriminate); now rewrite IH|].
    destruct (N.eqb c 10) eqn:E10;
      [bools; subst; cbn [app]; rewrite (parse_short_escape 110%N 10%N) by (reflexivity || discriminate); now rewrite IH|].
    destruct (N.eqb c 12) eqn:E12;
      [bools; subst; cbn [app]; rewrite (parse_short_escape 102%N 12%N) by (reflexivity || discriminate); now rewrite IH|].
    destruct (N.eqb c 13) eqn:E13;
      [bools; subst; cbn [app]; rewrite (parse_short_escape 114%N 13%N) by (reflexivity || discriminate); now rewrite IH|].
    destruct (N.eqb c 34) eqn:E34;
      [bools; subst; cbn [app]; rewrite (parse_short_escape 34%N 34%N) by (reflexivity || discriminate); now rewrite IH|].
    destruct (N.eqb c 92) eqn:E92;
      [bools; subst; cbn [app]; rewrite (parse_short_escape 92%N 92%N) by (reflexivity || discriminate); now rewrite IH|].
    destruct (N.ltb c 32) eqn:E32.
    { bools. rewrite <- app_assoc, parse_unicode_escape by lia. now rewrite IH. }
    bools.
    destruct (is_high_surrogate c) eqn:Ehi.
    { apply in_range_spec in Ehi.
      destruct rest as [|d rest1].
      - rewrite parse_unicode_escape by lia. reflexivity.
      - destruct (is_low_surrogate d) eqn:Elo.
        + apply in_range_spec in Elo. cbn [app].
          rewrite parse_literal_char by lia.
          rewrite parse_literal_char by lia.
          rewrite IH by (simpl in Hrest; lia). reflexivity.
        + rewrite <- app_assoc, parse_unicode_escape by lia. now rewrite IH. }
    destruct (is_low_surrogate c) eqn:Elo.
    { apply in_range_spec in Elo.
      rewrite <- app_assoc, parse_unicode_escape by lia. now rewrite IH. }
    cbn [app]. rewrite parse_literal_char by lia. now rewrite IH.
Qed.

(** A string literal is read back as the string it was written from. *)
Lemma parse_quote_chars (s tail : jsstring) :
  parse_string_body (quote_chars s ++ 34%N :: tail) = Some (s, tail).
Proof. apply (parse_quote_chars_len (length s)); lia. Qed.

Lemma quote_app (s tail : jsstring) :
  quote s ++ tail = 34%N :: quote_chars s ++ 34%N :: tail.
Proof. unfold quote. cbn [app]. now rewrite <- app_assoc. Qed.

(** ** Objects of strings: [JSON.parse] after [JSON.stringify] *)

Section RoundTrip.

Variable P : Platform.

Lemma stringify_object (props : list (jsstring * json)) :
  JSON_stringify P (JObject props) = 123%N :: members_text P props ++ [125%N].
Proof.
  cbn [JSON_stringify]. do 2 f_equal.
  induction props as [|[k x] rest IH]; [reflexivity|].
  destruct rest as [|kv rest]; [reflexivity|].
  change (members_text P ((k, x) :: kv :: rest))
    with (quote k ++ 58%N :: JSON_stringify P x ++ 44%N :: members_text P (kv :: rest)).
  rewrite <- IH. reflexivity.
Qed.

Lemma parse_value_string (f : nat) (x tail : jsstring) :
  parse_value (S f) (34%N :: quote_chars x ++ 34%N :: tail) = Parsed (JString x) tail.
Proof.
  cbn [parse_value skip_ws]. change (is_ws 34) with false. cbv iota.
  change (N.eqb 34 123) with false. change (N.eqb 34 91) with false.
  change (N.eqb 34 34) with true. cbv iota.
  now rewrite parse_quote_chars.
Qed.

Lemma parse_value_open_brace (f : nat) (c : jschar) (r : jsstring) :
  is_ws c = false -> N.eqb c 125 = false ->
  parse_value (S f) (123%N :: c :: r) = parse_members f (c :: r) [].
Proof.
  intros Hws Hc. cbn [parse_value skip_ws]. change (is_ws 123) with false. cbv iota.
  change (N.eqb 123 123) with true. cbv iota. cbn [skip_ws]. now rewrite Hws, Hc.
Qed.

Lemma parse_members_step (f : nat) (k r3 : jsstring) (acc : list (jsstring * json)) :
  parse_members (S f) (34%N :: quote_chars k ++ 34%N :: 58%N :: r3) acc =
  match parse_value f r3 with
  | Parsed v r4 =>
      match skip_ws r4 with
      | c4 :: r5 =>
          if N.eqb c4 44 then parse_members f r5 (obj_set k v acc)
          else if N.eqb c4 125 then Parsed (JObject (obj_set k v acc)) r5
          else SyntaxError
      | [] => SyntaxError
      end
  | SyntaxError => SyntaxError
  | OutOfFuel => OutOfFuel
  end.
Proof.
  cbn [parse_members skip_ws]. change (is_ws 34) with false. cbv iota.
  change (N.eqb 34 34) with true. cbv iota.
  rewrite parse_quote_chars. cbn [skip_ws]. change (is_ws 58) with false. cbv iota.
  change (N.eqb 58 58) with true. cbv iota. reflexivity.
Qed.

Lemma members_text_flat_cons (k x : jsstring) (rest : list (jsstring * jsstring)) (tail : jsstring) :
  members_text P (flat ((k, x) :: rest)) ++ tail =
  34%N :: quote_chars k ++ 34%N :: 58%N :: 34%N :: quote_chars x ++ 34%N ::
    match rest with
    | [] => tail
    | _ :: _ => 44%N :: members_text P (flat rest) ++ tail
    end.
Proof.
  destruct rest as [|kv rest]; cbn [flat map members_text fst snd JSON_stringify].
  - rewrite <- app_assoc. cbn [app]. rewrite !quote_app. reflexivity.
  - rewrite <- app_assoc. cbn [app]. rewrite <- app_assoc. cbn [app].
    rewrite !quote_app. reflexivity.
Qed.

Lemma parse_members_flat (props : list (jsstring * jsstring)) :
  forall (f : nat) (acc : list (jsstring * json)) (tail : jsstring),
    props <> [] -> length props <= f ->
    parse_members (S f) (members_text P (flat props) ++ 125%N :: tail) acc =
    Parsed (JObject (fold_left (fun a kv => obj_set (fst kv) (JString (snd kv)) a) props acc))
           tail.
Proof.
  induction props as [|[k x] rest IH]; intros f acc tail Hne Hlen; [congruence|].
  rewrite members_text_flat_cons, parse_members_step.
  destruct f as [|f]; [simpl in Hlen; lia|].
  rewrite parse_value_string.
  destruct rest as [|kv rest].
  - cbn [skip_ws]. change (is_ws 125) with false. cbv iota.
    change (N.eqb 125 44) with false. change (N.eqb 125 125) with true. reflexivity.
  - cbn [skip_ws]. change (is_ws 44) with false. cbv iota.
    change (N.eqb 44 44) with true. cbv iota.
    rewrite IH; [reflexivity | discriminate | simpl in Hlen |- *; lia].
Qed.

Lemma members_text_flat_length (props : list (jsstring * jsstring)) :
  length props <= length (members_text P (flat props)).
Proof.
  induction props as [|[k x] rest IH]; [simpl; lia|].
  pose proof (members_text_flat_cons k x rest []) as E.
  rewrite app_nil_r in E. rewrite E.
  destruct rest as [|kv rest]; cbn [length]; [lia|].
  rewrite app_nil_r, length_app. cbn [length]. rewrite length_app. cbn [length].
  cbn [length] in IH. lia.
Qed.

(** An object whose properties are strings is read back from its JSON text,
    property by property. *)
Lemma JSON_parse_stringify_flat (props : list (jsstring * jsstring)) :
  props <> [] ->
  JSON_parse (JSON_stringify P (JObject (flat props))) =
  Some (JObject (fold_left (fun a kv => obj_set (fst kv) (JString (snd kv)) a) props [])).
Proof.
  intros Hne. rewrite stringify_object. unfold JSON_parse, JSON_fuel.
  set (fuel := length _ + length _).
  assert (Hlen : length props <= S fuel).
  { subst fuel. cbn [length]. rewrite length_app.
    pose proof (members_text_flat_length props). lia. }
  clearbody fuel.
  destruct props as [|[k x] rest]; [congruence|].
  pose proof (members_text_flat_cons k x rest [125%N]) as E.
  rewrite E, parse_value_open_brace by reflexivity.
  rewrite <- E, parse_members_flat by (discriminate || assumption).
  reflexivity.
Qed.

End RoundTrip.

(** ** [JSON_parse] never runs out of fuel *)

Lemma skip_ws_length (s : jsstring) : length (skip_ws s) <= length s.
Proof.
  induction s as [|c s IH]; cbn [skip_ws]; [lia|].
  destruct (is_ws c); cbn [length]; lia.
Qed.

Lemma skip_ws_cons_length (s rest : jsstring) (c : jschar) :
  skip_ws s = c :: rest -> length rest < length s.
Proof.
  intros H. pose proof (skip_ws_length s) as L. rewrite H in L. cbn [length] in L. lia.
Qed.

Lemma cons_fst_some {A B : Type} (a : A) (x : option (list A * B)) (l : list A) (b : B) :
  cons_fst a x = Some (l, b) -> exists l', x = Some (l', b).
Proof.
  destruct x as [[l' b']|]; cbn; [|discriminate].
  intros H; injection H as <- <-. now exists l'.
Qed.

Lemma parse_string_body_shorter (n : nat) :
  forall (s str r : jsstring), length s <= n ->
    parse_string_body s = Some (str, r) -> length r < length s.
Proof.
  induction n as [|n IH]; intros s str r Hlen H.
  - destruct s; [discriminate | cbn in Hlen; lia].
  - destruct s as [|c rest]; [discriminate|]. cbn [length] in Hlen |- *.
    cbn [parse_string_body] in H.
    repeat break_match H; try discriminate;
      try (injection H as <- <-; lia);
      apply cons_fst_some in H as [l' H];
      apply IH in H; cbn [length] in *; lia.
Qed.

Lemma span_digits_length (s : jsstring) :
  length (snd (span_digits s)) <= length s.
Proof.
  induction s as [|c s IH]; cbn [span_digits]; [cbn; lia|].
  destruct (is_digit c); [|cbn; lia].
  destruct (span_digits s) as [d r]. cbn [snd length] in *. lia.
Qed.

Lemma digits1_length (s d r : jsstring) :
  digits1 s = Some (d, r) -> length r <= length s.
Proof.
  unfold digits1. pose proof (span_digits_length s) as L.
  destruct (span_digits s) as [[|c d'] r']; [discriminate|].
  intros H; injection H as <- <-. exact L.
Qed.

Lemma parse_number_shorter (s lit r : jsstring) :
  parse_number s = Some (lit, r) -> length r < length s.
Proof.
  unfold parse_number.
  set (signed := match s with
                 | c :: rest => if N.eqb c 45 then ([c], rest) else ([], s)
                 | [] => ([], s)
                 end).
  assert (Hs1 : length (snd signed) <= length s).
  { subst signed. destruct s as [|c rest]; [cbn; lia|].
    destruct (N.eqb c 45); cbn [snd length]; lia. }
  destruct signed as [sign s1]. cbn [snd] in Hs1.
  destruct (parse_int_part s1) as [[i s2]|] eqn:Ei; [|discriminate].
  assert (Hs2 : length s2 < length s1).
  { unfold parse_int_part in Ei. destruct s1 as [|c rest]; [discriminate|].
    destruct (N.eqb c 48); [injection Ei as <- <-; cbn; lia|].
    destruct (in_range 49 57 c); [|discriminate].
    pose proof (span_digits_length rest) as L.
    destruct (span_digits rest) as [d r']. injection Ei as <- <-. cbn [snd length] in *. lia. }
  destruct (parse_frac_part s2) as [[f s3]|] eqn:Ef; [|discriminate].
  assert (Hs3 : length s3 <= length s2).
  { unfold parse_frac_part in Ef. destruct s2 as [|c rest]; [injection Ef as <- <-; lia|].
    destruct (N.eqb c 46).
    - destruct (digits1 rest) as [[d r']|] eqn:Ed; [|discriminate].
      apply digits1_length in Ed. injection Ef as <- <-. cbn [length]. lia.
    - injection Ef as <- <-. lia. }
  destruct (parse_exp_part s3) as [[e s4]|] eqn:Ee; [|discriminate].
  assert (Hs4 : length s4 <= length s3).
  { unfold parse_exp_part in Ee. destruct s3 as [|c rest]; [injection Ee as <- <-; lia|].
    destruct (N.eqb c 101 || N.eqb c 69).
    - destruct rest as [|sg rest1]; [discriminate|].
      destruct (N.eqb sg 43 || N.eqb sg 45).
      + destruct (digits1 rest1) as [[d r']|] eqn:Ed; [|discriminate].
        apply digits1_length in Ed. injection Ee as <- <-. cbn [length]. lia.
      + destruct (digits1 (sg :: rest1)) as [[d r']|] eqn:Ed; [|discriminate].
        apply digits1_length in Ed. injection Ee as <- <-. cbn [length] in *. lia.
    - injection Ee as <- <-. lia. }
  intros H; injection H as <- <-. lia.
Qed.

Lemma strip_prefix_length (p s r : jsstring) :
  strip_prefix p s = Some r -> length s = length p + length r.
Proof.
  revert s; induction p as [|x p IH]; intros s; cbn [strip_prefix].
  - intros H; injection H as <-. reflexivity.
  - destruct s as [|y s]; [discriminate|].
    destruct (N.eqb x y); [|discriminate].
    intros H. apply IH in H. cbn [length]. lia.
Qed.

(** A value, an element list, a member list: each takes at least one
    character. *)
Lemma parse_shorter (fuel : nat) :
  (forall s v r, parse_value fuel s = Parsed v r -> length r < length s) /\
  (forall s acc v r, parse_elements fuel s acc = Parsed v r -> length r < length s) /\
  (forall s acc v r, parse_members fuel s acc = Parsed v r -> length r < length s).
Proof.
  induction fuel as [|fuel (IHv & IHe & IHm)]; [repeat split; discriminate|].
  split; [|split].
  - intros s v r H. cbn [parse_value] in H.
    destruct (skip_ws s) as [|c rest] eqn:Es; [discriminate|].
    apply skip_ws_cons_length in Es.
    destruct (N.eqb c 123).
    { destruct (skip_ws rest) as [|c1 rest1] eqn:Er; [discriminate|].
      pose proof (skip_ws_length rest) as L. rewrite Er in L. cbn [length] in L.
      destruct (N.eqb c1 125); [injection H as <- <-; lia|].
      apply IHm in H. cbn [length] in H. lia. }
    destruct (N.eqb c 91).
    { destruct (skip_ws rest) as [|c1 rest1] eqn:Er; [discriminate|].
      pose proof (skip_ws_length rest) as L. rewrite Er in L. cbn [length] in L.
      destruct (N.eqb c1 93); [injection H as <- <-; lia|].
      apply IHe in H. cbn [length] in H. lia. }
    destruct (N.eqb c 34).
    { destruct (parse_string_body rest) as [[str r']|] eqn:Eb; [|discriminate].
      apply (parse_string_body_shorter (length rest)) in Eb; [|lia].
      injection H as <- <-. lia. }
    destruct (N.eqb c 45 || is_digit c).
    { destruct (parse_number (c :: rest)) as [[lit r']|] eqn:En; [|discriminate].
      apply parse_number_shorter in En. cbn [length] in En.
      injection H as <- <-. lia. }
    repeat break_match H; try discriminate; injection H as <- <-;
      match goal with
      | E : strip_prefix _ _ = Some _ |- _ =>
          apply strip_prefix_length in E; cbn [length] in E; cbn in E; lia
      end.
  - intros s acc v r H. cbn [parse_elements] in H.
    destruct (parse_value fuel s) as [v0 r0| |] eqn:Ev; try discriminate.
    apply IHv in Ev.
    destruct (skip_ws r0) as [|c r1] eqn:Es; [discriminate|].
    apply skip_ws_cons_length in Es.
    destruct (N.eqb c 44); [apply IHe in H; lia|].
    destruct (N.eqb c 93); [injection H as <- <-; lia | discriminate].
  - intros s acc v r H. cbn [parse_members] in H.
    destruct (skip_ws s) as [|c r1] eqn:Es; [discriminate|].
    apply skip_ws_cons_length in Es.
    destruct (N.eqb c 34); [|discriminate].
    destruct (parse_string_body r1) as [[k r2]|] eqn:Eb; [|discriminate].
    apply (parse_string_body_shorter (length r1)) in Eb; [|lia].
    destruct (skip_ws r2) as [|c2 r3] eqn:Es2; [discriminate|].
    apply skip_ws_cons_length in Es2.
    destruct (N.eqb c2 58); [|discriminate].
    destruct (parse_value fuel r3) as [v0 r4| |] eqn:Ev; try discriminate.
    apply IHv in Ev.
    destruct (skip_ws r4) as [|c4 r5] eqn:Es4; [discriminate|].
    apply skip_ws_cons_length in Es4.
    destruct (N.eqb c4 44); [apply IHm in H; lia|].
    destruct (N.eqb c4 125); [injection H as <- <-; lia | discriminate].
Qed.

(** With twice the length of the text, and one more, the fuel is never used
    up. *)
Lemma parse_enough_fuel (fuel : nat) :
  (forall s, 2 * length s + 1 <= fuel -> parse_value fuel s <> OutOfFuel) /\
  (forall s acc, 2 * length s + 2 <= fuel -> parse_elements fuel s acc <> OutOfFuel) /\
  (forall s acc, 2 * length s + 2 <= fuel -> parse_members fuel s acc <> OutOfFuel).
Proof.
  induction fuel as [|fuel (IHv & IHe & IHm)]; [repeat split; intros; lia|].
  destruct (parse_shorter fuel) as (Lv & Le & Lm).
  split; [|split].
  - intros s Hf. cbn [parse_value].
    destruct (skip_ws s) as [|c rest] eqn:Es; [discriminate|].
    apply skip_ws_cons_length in Es.
    destruct (N.eqb c 123).
    { destruct (skip_ws rest) as [|c1 rest1] eqn:Er; [discriminate|].
      pose proof (skip_ws_length rest) as L. rewrite Er in L.
      destruct (N.eqb c1 125); [discriminate|].
      apply IHm. lia. }
    destruct (N.eqb c 91).
    { destruct (skip_ws rest) as [|c1 rest1] eqn:Er; [discriminate|].
      pose proof (skip_ws_length rest) as L. rewrite Er in L.
      destruct (N.eqb c1 93); [discriminate|].
      apply IHe. lia. }
    destruct (N.eqb c 34); [destruct (parse_string_body rest) as [[? ?]|]; discriminate|].
    destruct (N.eqb c 45 || is_digit c);
      [destruct (parse_number (c :: rest)) as [[? ?]|]; discriminate|].
    destruct (strip_prefix (js "null") (c :: rest)); [discriminate|].
    destruct (strip_prefix (js "true") (c :: rest)); [discriminate|].
    destruct (strip_prefix (js "false") (c :: rest)); discriminate.
  - intros s acc Hf. cbn [parse_elements].
    destruct (parse_value fuel s) as [v0 r0| |] eqn:Ev; [|discriminate|].
    + apply Lv in Ev.
      destruct (skip_ws r0) as [|c r1] eqn:Es; [discriminate|].
      apply skip_ws_cons_length in Es.
      destruct (N.eqb c 44); [apply IHe; lia|].
      destruct (N.eqb c 93); discriminate.
    + exfalso. revert Ev. apply IHv. lia.
  - intros s acc Hf. cbn [parse_members].
    destruct (skip_ws s) as [|c r1] eqn:Es; [discriminate|].
    apply skip_ws_cons_length in Es.
    destruct (N.eqb c 34); [|discriminate].
    destruct (parse_string_body r1) as [[k r2]|] eqn:Eb; [|discriminate].
    apply (parse_string_body_shorter (length r1)) in Eb; [|lia].
    destruct (skip_ws r2) as [|c2 r3] eqn:Es2; [discriminate|].
    apply skip_ws_cons_length in Es2.
    destruct (N.eqb c2 58); [|discriminate].
    destruct (parse_value fuel r3) as [v0 r4| |] eqn:Ev; [|discriminate|].
    + apply Lv in Ev.
      destruct (skip_ws r4) as [|c4 r5] eqn:Es4; [discriminate|].
      apply skip_ws_cons_length in Es4.
      destruct (N.eqb c4 44); [apply IHm; lia|].
      destruct (N.eqb c4 125); discriminate.
    + exfalso. revert Ev. apply IHv. lia.
Qed.

(** [JSON_parse] answers [None] only for a text that is no JSON: the fuel it
    gives is enough for every text. *)
Lemma JSON_parse_fuel_suffices (text : jsstring) :
  parse_value (JSON_fuel text) text <> OutOfFuel.
Proof.
  apply (proj1 (parse_enough_fuel (JSON_fuel text))). unfold JSON_fuel. lia.
Qed.

(** ** Signed payloads *)

Lemma generate_is_payload_text (P : Platform) (env : option jsstring) (now : Z)
    (r e u : jsstring) :
  generateQRCodeData P env now r e u = JSON_stringify P (ticket_payload P env now r e u).
Proof. reflexivity. Qed.

(** The text of a ticket object, whatever its fields, is read back as that
    object. *)
Lemma parse_ticket_object (P : Platform) (r e u ts h : jsstring) :
  JSON_parse (JSON_stringify P (JObject (ticket_data r e u ts ++ [(js "hash", JString h)])))
  = Some (JObject (ticket_data r e u ts ++ [(js "hash", JString h)])).
Proof.
  change (ticket_data r e u ts ++ [(js "hash", JString h)])
    with (flat [ (js "registrationId", r); (js "eventId", e); (js "userId", u);
                 (js "timestamp", ts); (js "type", js "EVENT_TICKET"); (js "hash", h) ]).
  rewrite JSON_parse_stringify_flat by discriminate.
  reflexivity.
Qed.

Lemma parse_signed_fields (P : Platform) (r e u ts ty : jsstring) :
  JSON_parse (JSON_stringify P (JObject (signed_fields r e u ts ty)))
  = Some (JObject (signed_fields r e u ts ty)).
Proof.
  change (signed_fields r e u ts ty)
    with (flat [ (js "registrationId", r); (js "eventId", e); (js "userId", u);
                 (js "timestamp", ts); (js "type", ty) ]).
  rewrite JSON_parse_stringify_flat by discriminate.
  reflexivity.
Qed.

(** Two objects of signed fields with the same text have the same fields. *)
Lemma signed_text_injective (P : Platform) (r e u ts ty r' e' u' ts' ty' : jsstring) :
  JSON_stringify P (JObject (signed_fields r e u ts ty))
  = JSON_stringify P (JObject (signed_fields r' e' u' ts' ty')) ->
  (r, e, u, ts, ty) = (r', e', u', ts', ty').
Proof.
  intros H. apply (f_equal JSON_parse) in H.
  rewrite !parse_signed_fields in H. unfold signed_fields in H. congruence.
Qed.

Lemma too_old_spec (now ts : Z) :
  too_old now ts = true <-> (now - ts > 86400000)%Z.
Proof.
  unfold too_old. rewrite negb_true_iff.
  destruct (Qle_bool (hoursDiff now ts) (inject_Z 24)) eqn:E.
  - apply Qle_bool_iff in E. unfold hoursDiff, Qle, Qdiv, Qmult, Qinv, inject_Z in E.
    simpl in E. split; [discriminate | lia].
  - split; [intros _ | reflexivity].
    destruct (Z_le_gt_dec (now - ts) 86400000) as [Hle|Hgt]; [|assumption].
    assert (Q : Qle (hoursDiff now ts) (inject_Z 24)).
    { unfold hoursDiff, Qle, Qdiv, Qmult, Qinv, inject_Z. simpl. lia. }
    apply Qle_bool_iff in Q. congruence.
Qed.

(** What [check_integrity] makes of a text that reads as an object of signed
    fields with the hash [h]: the format check passes when the identifiers
    and the hash are not empty, and the hash check compares [h] with the hash
    of the other fields. *)
Lemma check_integrity_signed (P : Platform) (env : option jsstring)
    (text r e u ts ty h : jsstring) :
  JSON_parse text = Some (JObject (signed_fields r e u ts ty ++ [(js "hash", JString h)])) ->
  r <> [] -> e <> [] -> h <> [] ->
  check_integrity P env text
  = if str_eqb h (hmac_sha256_hex P (secret_of env)
                    (JSON_stringify P (JObject (signed_fields r e u ts ty))))
    then inr (JObject (signed_fields r e u ts ty ++ [(js "hash", JString h)]))
    else inl tampered.
Proof.
  intros Hparse Hr He Hh. unfold check_integrity. rewrite Hparse.
  change (assoc (js "hash") (signed_fields r e u ts ty ++ [(js "hash", JString h)]))
    with (Some (JString h)).
  change (get_prop (JObject (signed_fields r e u ts ty ++ [(js "hash", JString h)]))
            (js "registrationId")) with (Some (JString r)).
  change (get_prop (JObject (signed_fields r e u ts ty ++ [(js "hash", JString h)]))
            (js "eventId")) with (Some (JString e)).
  change (without_key (js "hash") (signed_fields r e u ts ty ++ [(js "hash", JString h)]))
    with (signed_fields r e u ts ty).
  destruct r; [congruence|]. destruct e; [congruence|]. destruct h as [|c h]; [congruence|].
  cbn [truthy str_falsy negb orb strict_neq].
  destruct (str_eqb (c :: h) _); reflexivity.
Qed.

Lemma verify_fresh_ticket (P : Platform) (env : option jsstring) (issued now : Z)
    (r e u : jsstring) :
  r <> [] -> e <> [] ->
  ticket_hash P env issued r e u <> [] ->
  check_integrity P env (generateQRCodeData P env issued r e u)
  = inr (ticket_payload P env issued r e u).
Proof.
  intros Hr He Hh.
  rewrite (check_integrity_signed P env _ r e u (toISOString P issued) (js "EVENT_TICKET")
             (ticket_hash P env issued r e u))
    by (assumption || (rewrite generate_is_payload_text; apply parse_ticket_object)).
  unfold ticket_hash, signed_text.
  change (signed_fields r e u (toISOString P issued) (js "EVENT_TICKET"))
    with (ticket_data r e u (toISOString P issued)).
  now rewrite str_eqb_refl.
Qed.

(** Without a registration id the payload that was just signed is refused. *)
Lemma verify_empty_registrationId (P : Platform) (env : option jsstring) (issued now : Z)
    (e u : jsstring) :
  verifyQRCodeData P env now (generateQRCodeData P env issued [] e u) = invalid_format.
Proof.
  unfold verifyQRCodeData, check_integrity.
  rewrite generate_is_payload_text. unfold ticket_payload. rewrite parse_ticket_object.
  change (get_prop (JObject (ticket_data [] e u (toISOString P issued) ++
                             [(js "hash", JString (ticket_hash P env issued [] e u))]))
            (js "registrationId")) with (Some (JString [])).
  cbn [truthy str_falsy negb]. rewrite orb_true_r. reflexivity.
Qed.

(** C1, as amended: for every triple whose registrationId and eventId are
    not empty, a payload produced by [generateQRCodeData] and verified with
    the same secret no later than 24 hours after it was issued is accepted
    ([valid = true]), and the data returned carry the signed fields
    registrationId, eventId, userId, timestamp and type unchanged, beside the
    hash.  The keyed hash is assumed to print a digest that is not empty, and
    [Date] to read back the ISO string it printed. *)
Theorem generate_verify_round_trip (P : Platform) (env : option jsstring)
    (issued now : Z) (r e u : jsstring) :
  r <> [] -> e <> [] ->
  ticket_hash P env issued r e u <> [] ->
  Date_getTime P (Some (JString (toISOString P issued))) = Some issued ->
  (now - issued <= 86400000)%Z ->
  let result := verifyQRCodeData P env now (generateQRCodeData P env issued r e u) in
  valid result = true /\
  error result = None /\
  data result =
    Some (JObject [ (js "registrationId", JString r);
                    (js "eventId", JString e);
                    (js "userId", JString u);
                    (js "timestamp", JString (toISOString P issued));
                    (js "type", JString (js "EVENT_TICKET"));
                    (js "hash", JString (ticket_hash P env issued r e u)) ]).
Proof.
  intros Hr He Hh Hdate Hage result. subst result. unfold verifyQRCodeData.
  rewrite verify_fresh_ticket by assumption.
  unfold check_age.
  change (get_prop (ticket_payload P env issued r e u) (js "timestamp"))
    with (Some (JString (toISOString P issued))).
  rewrite Hdate.
  destruct (too_old now issued) eqn:E.
  - apply too_old_spec in E. lia.
  - repeat split.
Qed.

Lemma generate_verify_round_trip_witness :
  let P := Sample.platform in
  let result :=
    verifyQRCodeData P None 1710579600000
      (generateQRCodeData P None 1710493200000 (js "r1") (js "e1") (js "u1")) in
  (1710579600000 - 1710493200000 <= 86400000)%Z /\
  valid result = true /\
  error result = None /\
  data result =
    Some (JObject [ (js "registrationId", JString (js "r1"));
                    (js "eventId", JString (js "e1"));
                    (js "userId", JString (js "u1"));
                    (js "timestamp", JString (js "2024-03-15T09:00:00.000Z"));
                    (js "type", JString (js "EVENT_TICKET"));
                    (js "hash",
                     JString (ticket_hash P None 1710493200000 (js "r1") (js "e1") (js "u1"))) ]).
Proof.
  split; [lia|].
  apply (generate_verify_round_trip Sample.platform None 1710493200000 1710579600000
           (js "r1") (js "e1") (js "u1")).
  - discriminate.
  - discriminate.
  - vm_compute. discriminate.
  - vm_compute. reflexivity.
  - lia.
Defined.

(** C1, as stated, fails on the triple with the empty registrationId: the
    payload is well signed, the clock has not moved, the digest is not empty
    and the date reads back, and yet the payload is refused. *)
Lemma round_trip_fails_for_empty_id :
  let P := Sample.platform in
  let issued := 1710493200000%Z in
  ticket_hash P None issued [] (js "e1") (js "u1") <> [] /\
  Date_getTime P (Some (JString (toISOString P issued))) = Some issued /\
  verifyQRCodeData P None issued (generateQRCodeData P None issued [] (js "e1") (js "u1"))
  = {| valid := false; data := None; error := Some (js "Invalid QR code format") |}.
Proof.
  split; [vm_compute; discriminate|].
  split; [vm_compute; reflexivity|].
  apply verify_empty_registrationId.
Qed.

(** C5: a payload that passes the format and hash checks, and whose
    timestamp is the time [ts], is rejected as expired exactly when
    [now - ts] is more than 24 hours (86 400 000 ms); up to and including 24
    hours it is accepted. *)
Theorem expired_exactly_after_24_hours (P : Platform) (env : option jsstring)
    (qrDataString : jsstring) (qrData : json) (ts now : Z) :
  check_integrity P env qrDataString = inr qrData ->
  Date_getTime P (get_prop qrData (js "timestamp")) = Some ts ->
  (verifyQRCodeData P env now qrDataString = expired <-> (now - ts > 86400000)%Z) /\
  ((now - ts <= 86400000)%Z -> verifyQRCodeData P env now qrDataString = verified qrData) /\
  ((now - ts = 86400000)%Z -> valid (verifyQRCodeData P env now qrDataString) = true).
Proof.
  intros Hok Hts. unfold verifyQRCodeData, check_age. rewrite Hok, Hts.
  destruct (too_old now ts) eqn:E.
  - apply too_old_spec in E. repeat split; intros; (reflexivity || lia || assumption).
  - assert (Hle : (now - ts <= 86400000)%Z).
    { destruct (Z_le_gt_dec (now - ts) 86400000) as [H|H]; [assumption|].
      apply too_old_spec in H. congruence. }
    repeat split; intros; try reflexivity; try lia. discriminate.
Qed.

Lemma expired_exactly_after_24_hours_witness :
  let P := Sample.platform in
  let issued := 1710493200000%Z in
  let text := generateQRCodeData P None issued (js "r1") (js "e1") (js "u1") in
  verifyQRCodeData P None (issued + 86400000) text
    = verified (ticket_payload P None issued (js "r1") (js "e1") (js "u1")) /\
  verifyQRCodeData P None (issued + 86400001) text = expired.
Proof.
  pose (P := Sample.platform). pose (issued := 1710493200000%Z).
  assert (Hok : check_integrity P None
                  (generateQRCodeData P None issued (js "r1") (js "e1") (js "u1"))
                = inr (ticket_payload P None issued (js "r1") (js "e1") (js "u1")))
    by (vm_compute; reflexivity).
  assert (Hts : Date_getTime P
                  (get_prop (ticket_payload P None issued (js "r1") (js "e1") (js "u1"))
                     (js "timestamp")) = Some issued)
    by (vm_compute; reflexivity).
  split.
  - apply (expired_exactly_after_24_hours P None _ _ issued (issued + 86400000) Hok Hts).
    subst issued; lia.
  - apply (expired_exactly_after_24_hours P None _ _ issued (issued + 86400001) Hok Hts).
    subst issued; lia.
Defined.

Lemma truthy_string (P : Platform) (s : jsstring) :
  truthy P (Some (JString s)) = true <-> s <> [].
Proof. destruct s; cbn; split; congruence. Qed.






(** C9, as amended: with the secret unset (or empty) neither operation
    fails; both compute the keyed hash with the constant [fallback-secret]. *)
Theorem unset_secret_falls_back (P : Platform) (now : Z) (r e u text : jsstring) :
  secret_of None = js "fallback-secret" /\
  secret_of (Some []) = js "fallback-secret" /\
  generateQRCodeData P None now r e u
  = JSON_stringify P
      (JObject (ticket_data r e u (toISOString P now)
                ++ [(js "hash",
                     JString (hmac_sha256_hex P (js "fallback-secret")
                                (signed_text P now r e u)))])) /\
  verifyQRCodeData P None now text
  = verifyQRCodeData P (Some (js "fallback-secret")) now text.
Proof. repeat split. Qed.

(** C9, as stated, fails: with the secret unset a payload is generated, its
    hash is the keyed hash under [fallback-secret], and verification, again
    with the secret unset, accepts it. *)
Lemma unset_secret_does_not_fail :
  let P := Sample.platform in
  let issued := 1710493200000%Z in
  let text := generateQRCodeData P None issued (js "r1") (js "e1") (js "u1") in
  JSON_parse text
  = Some (JObject (ticket_data (js "r1") (js "e1") (js "u1") (js "2024-03-15T09:00:00.000Z")
                   ++ [(js "hash",
                        JString (hmac_sha256_hex P (js "fallback-secret")
                                   (signed_text P issued (js "r1") (js "e1") (js "u1"))))])) /\
  valid (verifyQRCodeData P None issued text) = true.
Proof. vm_compute. repeat split. Qed.

(** ** The resolution chain *)

(** No JSON text begins with a character that opens no value. *)
Lemma JSON_parse_bad_start (c : jschar) (rest : jsstring) :
  is_ws c = false -> is_digit c = false ->
  c <> 123%N -> c <> 91%N -> c <> 34%N -> c <> 45%N ->
  c <> 110%N -> c <> 116%N -> c <> 102%N ->
  JSON_parse (c :: rest) = None.
Proof.
  intros Hws Hd H1 H2 H3 H4 H5 H6 H7.
  unfold JSON_parse, JSON_fuel. cbn [parse_value skip_ws]. rewrite Hws.
  apply N.eqb_neq in H1, H2, H3, H4. rewrite H1, H2, H3, H4, Hd. cbn [orb].
  change (js "null") with [110; 117; 108; 108]%N.
  change (js "true") with [116; 114; 117; 101]%N.
  change (js "false") with [102; 97; 108; 115; 101]%N.
  cbn [strip_prefix].
  assert (E5 : N.eqb 110 c = false) by (apply N.eqb_neq; congruence).
  assert (E6 : N.eqb 116 c = false) by (apply N.eqb_neq; congruence).
  assert (E7 : N.eqb 102 c = false) by (apply N.eqb_neq; congruence).
  now rewrite E5, E6, E7.
Qed.

Lemma JSON_parse_http (qrData : jsstring) :
  startsWith (js "http") qrData = true -> JSON_parse qrData = None.
Proof.
  change (js "http") with [104; 116; 116; 112]%N.
  destruct qrData as [|c rest]; [discriminate|].
  cbn [startsWith]. intros H. apply andb_prop in H as [H _].
  apply N.eqb_eq in H. subst c.
  apply JSON_parse_bad_start; (reflexivity || discriminate).
Qed.

(** C7, as amended: for a raw input that begins with [http] and that [URL]
    accepts, resolution succeeds, with the registrationId of the query, when
    the three parameters registrationId, eventId and userId are all present
    and not empty; when one of them is absent or empty it fails with the
    format error. *)
Theorem url_needs_all_three_parameters (P : Platform) (qrData : jsstring)
    (get : jsstring -> option jsstring) :
  startsWith (js "http") qrData = true ->
  URL_searchParams_get P qrData = Some get ->
  (forall r e u : jsstring,
      get (js "registrationId") = Some r -> r <> [] ->
      get (js "eventId") = Some e -> e <> [] ->
      get (js "userId") = Some u -> u <> [] ->
      resolve P qrData
      = inr (JObject [ (js "registrationId", JString r);
                       (js "eventId", JString e);
                       (js "userId", JString u) ]) /\
      (qrCodeData <- resolve P qrData ;; registrationId_of P qrCodeData)
      = inr (JString r)) /\
  (str_falsy (get (js "registrationId")) = true \/
   str_falsy (get (js "eventId")) = true \/
   str_falsy (get (js "userId")) = true ->
   resolve P qrData = inl (InvalidQRFormat (received_preview qrData))).
Proof.
  intros Hhttp Hurl. unfold resolve, resolve_fallback, resolve_url.
  rewrite (JSON_parse_http _ Hhttp), Hhttp, Hurl. split.
  - intros r e u Hr Hr' He He' Hu Hu'. rewrite Hr, He, Hu.
    destruct r; [congruence|]. destruct e; [congruence|]. destruct u; [congruence|].
    cbn [str_falsy negb andb]. split; reflexivity.
  - intros H.
    destruct (get (js "registrationId")) as [[|? ?]|];
      destruct (get (js "eventId")) as [[|? ?]|];
      destruct (get (js "userId")) as [[|? ?]|];
      cbn [str_falsy negb andb] in *; try reflexivity.
    destruct H as [H|[H|H]]; discriminate.
Qed.

Lemma url_needs_all_three_parameters_witness :
  let P := Sample.platform in
  resolve P (js "https://x/ticket?registrationId=r1&eventId=e1&userId=u1")
  = inr (JObject [ (js "registrationId", JString (js "r1"));
                   (js "eventId", JString (js "e1"));
                   (js "userId", JString (js "u1")) ]) /\
  resolve P (js "https://x/ticket?registrationId=r1&eventId=e1")
  = inl (InvalidQRFormat (js "https://x/ticket?registrationId=r1&eventId=e1")).
Proof.
  split.
  - apply (proj1 (url_needs_all_three_parameters Sample.platform
                    (js "https://x/ticket?registrationId=r1&eventId=e1&userId=u1")
                    (fun name => Sample.first_value name
                                   (Sample.query_pairs (js "registrationId=r1&eventId=e1&userId=u1")))
                    eq_refl eq_refl)
             (js "r1") (js "e1") (js "u1"));
      (reflexivity || discriminate).
  - apply (proj2 (url_needs_all_three_parameters Sample.platform
                    (js "https://x/ticket?registrationId=r1&eventId=e1")
                    (fun name => Sample.first_value name
                                   (Sample.query_pairs (js "registrationId=r1&eventId=e1")))
                    eq_refl eq_refl)).
    right. right. reflexivity.
Defined.

(** C7, as stated, fails: the address carries a registrationId and nothing
    else, [URL] accepts it and finds the parameter, and resolution fails. *)
Lemma url_with_registrationId_only_fails :
  let P := Sample.platform in
  let qrData := js "https://x/ticket?registrationId=r1" in
  startsWith (js "http") qrData = true /\
  option_map (fun get => get (js "registrationId")) (URL_searchParams_get P qrData)
  = Some (Some (js "r1")) /\
  resolve P qrData = inl (InvalidQRFormat qrData) /\
  error_text (InvalidQRFormat qrData) = Some (js "Invalid QR code format").
Proof. vm_compute. repeat split. Qed.

Lemma matches_simple_id_nonempty (s : jsstring) :
  matches_simple_id s = true -> s <> [].
Proof. destruct s; [discriminate | discriminate]. Qed.

(** C8, as amended: a raw string of the identifier class that is no JSON
    text and does not begin with [http] is taken, whole, as the
    registrationId. *)
Theorem bare_identifier_is_registrationId (P : Platform) (qrData : jsstring) :
  matches_simple_id qrData = true ->
  JSON_parse qrData = None ->
  startsWith (js "http") qrData = false ->
  resolve P qrData = inr (JObject [ (js "registrationId", JString qrData) ]) /\
  (qrCodeData <- resolve P qrData ;; registrationId_of P qrCodeData)
  = inr (JString qrData).
Proof.
  intros Hid Hjson Hhttp. unfold resolve, resolve_fallback.
  rewrite Hjson, Hhttp, Hid. split; [reflexivity|].
  apply matches_simple_id_nonempty in Hid.
  destruct qrData; [congruence | reflexivity].
Qed.

Lemma bare_identifier_is_registrationId_witness :
  let P := Sample.platform in
  resolve P (js "r1") = inr (JObject [ (js "registrationId", JString (js "r1")) ]) /\
  (qrCodeData <- resolve P (js "r1") ;; registrationId_of P qrCodeData)
  = inr (JString (js "r1")).
Proof.
  apply (bare_identifier_is_registrationId Sample.platform (js "r1")); reflexivity.
Defined.

(** C8, as stated, fails: [123] is of the identifier class, but it is a JSON
    text, the number 123, which has no registrationId; the scan is refused
    for a missing registration id. *)
Lemma digits_are_not_taken_as_registrationId :
  let P := Sample.platform in
  let st := {| tickets := []; registrations := []; attendances := [] |} in
  let admin := {| session_user_id := js "admin"; role := UserRole.ADMIN |} in
  let body := {| qrData := Some (js "123"); scan_sessionId := None; action := None |} in
  matches_simple_id (js "123") = true /\
  resolve P (js "123") = inr (JNumber (js "123")) /\
  scan_POST P st 0 0 (Some admin) body = (MissingRegistrationId, st).
Proof. vm_compute. repeat split. Qed.

(** ** The checks before a scan is acted upon *)

(** C4: once the ticket of a scan is resolved, the scan (check-in or
    check-out) ends in a state error, with the store untouched, unless the
    registration is CONFIRMED, the event is PUBLISHED or ONGOING and [now]
    lies within [startDate, endDate]; the error tells which check failed
    first, and with the first two passed a scan before [startDate] is
    answered with the not-started error and one after [endDate] with the
    ended error. *)
Theorem scan_preconditions (P : Platform) (st : Store) (now time : Z)
    (session : option SessionUser) (body : ScanBody)
    (qr : jsstring) (registrationId : json) (ticket : Ticket) :
  scan_frontend P st session body = inr (qr, registrationId, ticket) ->
  let event := registration_event (registration ticket) in
  let confirmed :=
    registration_status (registration ticket) = RegistrationStatus.CONFIRMED in
  let scannable :=
    event_status event = EventStatus.PUBLISHED \/ event_status event = EventStatus.ONGOING in
  let in_window := (startDate event <= now <= endDate event)%Z in
  let result := scan_POST P st now time session body in
  (~ (confirmed /\ scannable /\ in_window) ->
   is_state_error (fst result) = true /\ snd result = st) /\
  (~ confirmed -> fst result = RegistrationNotConfirmed) /\
  (confirmed -> ~ scannable -> fst result = EventNotAvailable (event_status event)) /\
  (confirmed -> scannable -> (now < startDate event)%Z -> fst result = EventNotStarted) /\
  (confirmed -> scannable -> (startDate event <= now)%Z -> (now > endDate event)%Z ->
   fst result = EventEnded) /\
  (confirmed /\ scannable /\ in_window ->
   result = scan_action P st time registrationId body).
Proof.
  intros Hfront event confirmed scannable in_window result.
  subst result confirmed scannable in_window. unfold scan_POST. rewrite Hfront.
  unfold check_scannable. fold event.
  destruct (registration_status (registration ticket)) eqn:Ereg;
    destruct (event_status event) eqn:Eev;
    destruct (Z.ltb now (startDate event)) eqn:E1;
    destruct (Z.gtb now (endDate event)) eqn:E2;
    try apply Z.ltb_lt in E1; try apply Z.ltb_ge in E1;
    try (rewrite Z.gtb_ltb in E2; apply Z.ltb_lt in E2);
    try (rewrite Z.gtb_ltb in E2; apply Z.ltb_ge in E2);
    cbn [fst snd is_state_error];
    repeat split; intros;
    try reflexivity; try congruence; try lia;
    try (exfalso; intuition (congruence || lia)).
Qed.

Lemma scan_preconditions_witness :
  let P := Sample.platform in
  let user := {| user_id := js "u1"; user_name := None; user_email := js "u1@example.com" |} in
  let event := {| event_id := js "e1"; event_name := js "Seminar";
                  startDate := 1710493200000; endDate := 1710522000000;
                  event_status := EventStatus.PUBLISHED |} in
  let reg := {| registration_id := js "r1";
                registration_status := RegistrationStatus.CONFIRMED;
                registration_user := user; registration_event := event |} in
  let ticket := {| ticket_id := js "t1"; ticket_registrationId := js "r1";
                   ticketNumber := js "TK-1"; qrCodeData := None; registration := reg |} in
  let st := {| tickets := [ticket]; registrations := [reg]; attendances := [] |} in
  let admin := {| session_user_id := js "admin"; role := UserRole.ADMIN |} in
  let body := {| qrData := Some (js "r1"); scan_sessionId := None; action := None |} in
  scan_POST P st 1710493199999 1710493199999 (Some admin) body = (EventNotStarted, st) /\
  scan_POST P st 1710522000001 1710522000001 (Some admin) body = (EventEnded, st).
Proof.
  intros P user event reg ticket st admin body.
  pose proof (scan_preconditions P st 1710493199999 1710493199999 (Some admin) body
                (js "r1") (JString (js "r1")) ticket eq_refl) as Hbefore.
  pose proof (scan_preconditions P st 1710522000001 1710522000001 (Some admin) body
                (js "r1") (JString (js "r1")) ticket eq_refl) as Hafter.
  cbv zeta in Hbefore, Hafter.
  destruct Hbefore as (Hstate1 & _ & _ & Hnot_started & _ & _).
  destruct Hafter as (Hstate2 & _ & _ & _ & Hended & _).
  split; apply injective_projections.
  - apply Hnot_started; [reflexivity | left; reflexivity | cbn; lia].
  - apply Hstate1. cbn. lia.
  - apply Hended; [reflexivity | left; reflexivity | cbn; lia | cbn; lia].
  - apply Hstate2. cbn. lia.
Defined.

(** ** Check-in and check-out *)

Lemma attendance_for_spec (r : jsstring) (sid : option jsstring) (a : Attendance) :
  attendance_for (str_eqb r) sid a = true <->
  attendance_registrationId a = r /\ sessionId a = sid.
Proof.
  unfold attendance_for. rewrite andb_true_iff, str_eqb_eq, opt_str_eqb_eq.
  split; intros [H1 H2]; split; congruence.
Qed.



Lemma find_split {A : Type} (f : A -> bool) (l : list A) (a : A) :
  find f l = Some a ->
  exists before after,
    l = before ++ a :: after /\ f a = true /\ forall x, In x before -> f x = false.
Proof.
  induction l as [|x l IH]; [discriminate|].
  cbn [find]. destruct (f x) eqn:E.
  - intros H; injection H as ->. exists [], l. repeat split; [assumption | intros ? []].
  - intros H. destruct (IH H) as (before & after & -> & Hfa & Hbefore).
    exists (x :: before), after. repeat split; [assumption|].
    intros y [->|Hy]; [assumption | now apply Hbefore].
Qed.

Lemma update_checkOutTime_split (time : Z) (before after : list Attendance) (a : Attendance) :
  (forall x, In x before -> attendance_id x <> attendance_id a) ->
  update_checkOutTime (attendance_id a) time (before ++ a :: after)
  = before ++ with_checkOutTime time a :: after.
Proof.
  intros Hids. induction before as [|x before IH]; cbn [app update_checkOutTime].
  - now rewrite str_eqb_refl.
  - assert (E : str_eqb (attendance_id x) (attendance_id a) = false)
      by (apply str_eqb_neq, Hids; now left).
    rewrite E, IH; [reflexivity|]. intros y Hy. apply Hids. now right.
Qed.

Lemma find_updated (time : Z) (before after : list Attendance) (a : Attendance) :
  (forall x, In x before -> attendance_id x <> attendance_id a) ->
  find (fun x => str_eqb (attendance_id x) (attendance_id a))
       (before ++ with_checkOutTime time a :: after)
  = Some (with_checkOutTime time a).
Proof.
  intros Hids. induction before as [|x before IH]; cbn [app find].
  - cbn [with_checkOutTime attendance_id]. now rewrite str_eqb_refl.
  - assert (E : str_eqb (attendance_id x) (attendance_id a) = false)
      by (apply str_eqb_neq, Hids; now left).
    rewrite E. apply IH. intros y Hy. apply Hids. now right.
Qed.




Lemma scan_action_checkin (P : Platform) (st : Store) (time : Z) (registrationId : json)
    (body : ScanBody) :
  action body = None \/ action body = Some (js "checkin") ->
  scan_action P st time registrationId body
  = scan_checkin P st time registrationId (scan_sessionId body).
Proof. unfold scan_action. intros [-> | ->]; reflexivity. Qed.

Lemma scan_action_checkout (P : Platform) (st : Store) (time : Z) (registrationId : json)
    (body : ScanBody) :
  action body = Some (js "checkout") ->
  scan_action P st time registrationId body
  = scan_checkout P st time registrationId (scan_sessionId body).
Proof. unfold scan_action. intros ->. reflexivity. Qed.



Lemma check_scannable_error (now : Z) (ticket : Ticket) (early : Response) :
  check_scannable now ticket = inl early -> is_state_error early = true.
Proof.
  unfold check_scannable. intros H.
  repeat break_match H; try discriminate; injection H as <-; reflexivity.
Qed.









(** ** The hash and the scan route *)

Lemma find_ticket_agrees (P : Platform) (st : Store) (qr : jsstring) (rid : json) :
  stored_text_names_ticket P st qr rid ->
  find_ticket P st qr rid = find_ticket_by_id P st rid.
Proof.
  unfold stored_text_names_ticket, find_ticket. intros H.
  destruct (find_ticket_by_text st qr) as [t|]; [|reflexivity].
  symmetry. now apply H.
Qed.

Lemma JSON_parse_nonempty (text : jsstring) (v : json) :
  JSON_parse text = Some v -> text <> [].
Proof. intros H ->. discriminate. Qed.

(** What the scan route answers to a raw input that is the text of a JSON
    object, when the lookup by stored text agrees with the lookup by id. *)
Lemma scan_POST_object (P : Platform) (st : Store) (now time : Z)
    (session : option SessionUser) (sid act : option jsstring)
    (qr : jsstring) (props : list (jsstring * json)) :
  JSON_parse qr = Some (JObject props) ->
  (forall rid, assoc (js "registrationId") props = Some rid ->
               stored_text_names_ticket P st qr rid) ->
  scan_POST P st now time session {| qrData := Some qr; scan_sessionId := sid; action := act |}
  = match authorize session with
    | inl early => (early, st)
    | inr _ =>
        match assoc (js "registrationId") props with
        | None => (MissingRegistrationId, st)
        | Some rid =>
            if truthy P (Some rid) then
              match find_ticket_by_id P st rid with
              | None => (InternalServerError, st)
              | Some None =>
                  (InvalidTicket rid (substring0 200 qr)
                     (map preview (firstn 5 (tickets st))), st)
              | Some (Some ticket) =>
                  match check_scannable now ticket with
                  | inl early => (early, st)
                  | inr _ =>
                      scan_action P st time rid
                        {| qrData := None; scan_sessionId := sid; action := act |}
                  end
              end
            else (MissingRegistrationId, st)
        end
    end.
Proof.
  intros Hparse Hstored. unfold scan_POST, scan_frontend. cbn [qrData].
  destruct (authorize session) as [early|[]]; [reflexivity|].
  pose proof (JSON_parse_nonempty _ _ Hparse) as Hne.
  destruct qr as [|c qr]; [congruence|].
  unfold resolve. rewrite Hparse. unfold registrationId_of. cbn [get_prop].
  destruct (assoc (js "registrationId") props) as [rid|] eqn:Erid; [|reflexivity].
  destruct (truthy P (Some rid)); [|reflexivity].
  rewrite find_ticket_agrees by (now apply Hstored).
  destruct (find_ticket_by_id P st rid) as [[ticket|]|]; reflexivity.
Qed.

(** C10, as amended: the scan route never computes the keyed hash, and for
    two raw inputs that are the texts of JSON objects with the same
    registrationId (whatever their hash fields: valid, invalid or absent) it
    leaves the same store and gives the same response, but for the echo of
    the first 200 characters of the raw input in the ticket-not-found
    diagnostic.  This holds provided that a raw input which is the stored
    payload text of a ticket is the text of the ticket that its
    registrationId finds. *)
Theorem hash_not_checked_by_scan (P : Platform) (st : Store) (now time : Z)
    (session : option SessionUser) (sid act : option jsstring)
    (q1 q2 : jsstring) (props1 props2 : list (jsstring * json)) :
  JSON_parse q1 = Some (JObject props1) ->
  JSON_parse q2 = Some (JObject props2) ->
  assoc (js "registrationId") props1 = assoc (js "registrationId") props2 ->
  (forall rid, assoc (js "registrationId") props1 = Some rid ->
               stored_text_names_ticket P st q1 rid /\
               stored_text_names_ticket P st q2 rid) ->
  let run q := scan_POST P st now time session
                 {| qrData := Some q; scan_sessionId := sid; action := act |} in
  snd (run q1) = snd (run q2) /\
  without_echo (fst (run q1)) = without_echo (fst (run q2)) /\
  http_status (fst (run q1)) = http_status (fst (run q2)) /\
  error_text (fst (run q1)) = error_text (fst (run q2)) /\
  (http_status (fst (run q1)) <> 404%Z -> run q1 = run q2) /\
  (forall hmac body, scan_POST (with_hmac P hmac) st now time session body
                     = scan_POST P st now time session body).
Proof.
  intros H1 H2 Hsame Hstored run. subst run. cbv beta.
  rewrite (scan_POST_object P st now time session sid act q1 props1 H1)
    by (intros rid Hrid; apply (Hstored rid Hrid)).
  rewrite (scan_POST_object P st now time session sid act q2 props2 H2)
    by (intros rid Hrid; rewrite <- Hsame in Hrid; apply (Hstored rid Hrid)).
  rewrite <- Hsame.
  split; [|split; [|split; [|split; [|split]]]]; try reflexivity;
    destruct (authorize session) as [early|[]]; try reflexivity;
    destruct (assoc (js "registrationId") props1) as [rid|]; try reflexivity;
    destruct (truthy P (Some rid)); try reflexivity;
    destruct (find_ticket_by_id P st rid) as [[ticket|]|]; try reflexivity.
  cbn [fst http_status]. congruence.
Qed.

Lemma hash_not_checked_by_scan_witness :
  let P := Sample.platform in
  let run q := scan_POST P Sample.store0 Sample.noon Sample.noon (Some Sample.admin)
                 {| qrData := Some q; scan_sessionId := None; action := None |} in
  let signed := Sample.payload1 in
  let unsigned := jsq "{'registrationId':'r1','eventId':'e1','userId':'u1'}" in
  valid (verifyQRCodeData P None Sample.noon signed) = true /\
  valid (verifyQRCodeData P None Sample.noon unsigned) = false /\
  http_status (fst (run signed)) = 200%Z /\
  run signed = run unsigned.
Proof.
  intros P run signed unsigned.
  split; [vm_compute; reflexivity|].
  split; [vm_compute; reflexivity|].
  assert (Hstatus : http_status (fst (run signed)) = 200%Z) by (vm_compute; reflexivity).
  split; [exact Hstatus|].
  refine (proj1 (proj2 (proj2 (proj2 (proj2
            (hash_not_checked_by_scan P Sample.store0 Sample.noon Sample.noon
               (Some Sample.admin) None None signed unsigned
               (ticket_data (js "r1") (js "e1") (js "u1") (toISOString P 1710450000000)
                ++ [(js "hash",
                     JString (ticket_hash P None 1710450000000 (js "r1") (js "e1") (js "u1")))])
               [ (js "registrationId", JString (js "r1"));
                 (js "eventId", JString (js "e1"));
                 (js "userId", JString (js "u1")) ]
               _ _ _ _))))) _).
  - vm_compute. reflexivity.
  - vm_compute. reflexivity.
  - reflexivity.
  - intros rid Hrid. injection Hrid as <-. split; intros ticket Hfound.
    + vm_compute in Hfound. injection Hfound as <-. vm_compute. reflexivity.
    + vm_compute in Hfound. discriminate.
  - fold (run signed). rewrite Hstatus. discriminate.
Defined.

(** C10, as stated, fails: for a registration id that no ticket carries, the
    input with a hash field and the input without one are both answered with
    the ticket-not-found response, but the two responses differ: each echoes
    its raw input, hash included. *)
Lemma hash_field_shows_in_diagnostic :
  let P := Sample.platform in
  let run q := scan_POST P Sample.store0 Sample.noon Sample.noon (Some Sample.admin)
                 {| qrData := Some q; scan_sessionId := None; action := None |} in
  let with_hash := jsq "{'registrationId':'r9','hash':'aa'}" in
  let without_hash := jsq "{'registrationId':'r9'}" in
  JSON_parse with_hash
  = Some (JObject [ (js "registrationId", JString (js "r9")); (js "hash", JString (js "aa")) ]) /\
  JSON_parse without_hash = Some (JObject [ (js "registrationId", JString (js "r9")) ]) /\
  fst (run with_hash)
  = InvalidTicket (JString (js "r9")) with_hash (map (preview) (tickets Sample.store0)) /\
  fst (run without_hash)
  = InvalidTicket (JString (js "r9")) without_hash (map (preview) (tickets Sample.store0)) /\
  run with_hash <> run without_hash.
Proof.
  cbv zeta. repeat split; try (vm_compute; reflexivity).
  vm_compute. discriminate.
Qed.

(* ================================================================== *)
(** * Further properties of the payload functions *)
(* ================================================================== *)

Lemma strict_neq_false (v : option json) (expected : jsstring) :
  strict_neq v expected = false <-> v = Some (JString expected).
Proof.
  unfold strict_neq. destruct v as [[| | |h| |]|]; split; try discriminate.
  - rewrite negb_false_iff, str_eqb_eq. congruence.
  - intros H; injection H as ->. now rewrite str_eqb_refl.
Qed.

(** What it takes to pass the first half of [verifyQRCodeData]. *)
Lemma check_integrity_passed (P : Platform) (env : option jsstring)
    (text : jsstring) (qrData : json) :
  check_integrity P env text = inr qrData ->
  exists props,
    qrData = JObject props /\
    JSON_parse text = Some (JObject props) /\
    assoc (js "hash") props
    = Some (JString (hmac_sha256_hex P (secret_of env)
                       (JSON_stringify P (JObject (without_key (js "hash") props))))) /\
    truthy P (assoc (js "hash") props) = true /\
    truthy P (assoc (js "registrationId") props) = true /\
    truthy P (assoc (js "eventId") props) = true.
Proof.
  unfold check_integrity. intros H.
  destruct (JSON_parse text) as [[| | | | |props]|]; try discriminate.
  cbn [get_prop] in H.
  destruct (truthy P (assoc (js "hash") props)) eqn:Eh; [|discriminate].
  destruct (truthy P (assoc (js "registrationId") props)) eqn:Er; [|discriminate].
  destruct (truthy P (assoc (js "eventId") props)) eqn:Ee; [|discriminate].
  cbn [negb orb] in H.
  destruct (strict_neq _ _) eqn:Es; [discriminate|].
  injection H as <-. apply strict_neq_false in Es.
  exists props. repeat split; assumption.
Qed.

Lemma check_integrity_failed (P : Platform) (env : option jsstring)
    (text : jsstring) (failure : VerifyResult) :
  check_integrity P env text = inl failure -> valid failure = false.
Proof.
  unfold check_integrity. intros H.
  destruct (JSON_parse text) as [[| | | | |props]|];
    try (injection H as <-; reflexivity).
  destruct (_ || _); [injection H as <-; reflexivity|].
  destruct (strict_neq _ _); [injection H as <-; reflexivity|discriminate].
Qed.

(** An accepted text is the text of an object, which is returned. *)
Lemma verify_valid_data (P : Platform) (env : option jsstring) (now : Z) (text : jsstring) :
  valid (verifyQRCodeData P env now text) = true ->
  exists props,
    JSON_parse text = Some (JObject props) /\
    data (verifyQRCodeData P env now text) = Some (JObject props).
Proof.
  unfold verifyQRCodeData.
  destruct (check_integrity P env text) as [failure|qrData] eqn:E.
  - intros Hv. rewrite (check_integrity_failed _ _ _ _ E) in Hv. discriminate.
  - destruct (check_integrity_passed _ _ _ _ E) as (props & -> & Hp & _).
    unfold check_age. intros Hv. exists props. split; [exact Hp|].
    destruct (Date_getTime P _); [|reflexivity].
    destruct (too_old now z); [discriminate|reflexivity].
Qed.

(** X1: [verifyQRCodeData] accepts nothing but a signed object.  When it
    answers [valid: true], the text is the JSON text of an object whose
    [hash] is the keyed hash, under the secret in use, of the serialisation
    of its other properties, whose [registrationId] and [eventId] are truthy,
    and whose timestamp, when it is a date, is not more than 24 hours old;
    and the data returned are that object. *)
Theorem verified_payload_is_signed (P : Platform) (env : option jsstring) (now : Z)
    (text : jsstring) :
  valid (verifyQRCodeData P env now text) = true ->
  exists props,
    JSON_parse text = Some (JObject props) /\
    data (verifyQRCodeData P env now text) = Some (JObject props) /\
    assoc (js "hash") props
    = Some (JString (hmac_sha256_hex P (secret_of env)
                       (JSON_stringify P (JObject (without_key (js "hash") props))))) /\
    truthy P (assoc (js "registrationId") props) = true /\
    truthy P (assoc (js "eventId") props) = true /\
    (forall ts, Date_getTime P (assoc (js "timestamp") props) = Some ts ->
                (now - ts <= 86400000)%Z).
Proof.
  unfold verifyQRCodeData.
  destruct (check_integrity P env text) as [failure|qrData] eqn:E.
  - intros Hv. rewrite (check_integrity_failed _ _ _ _ E) in Hv. discriminate.
  - destruct (check_integrity_passed _ _ _ _ E) as (props & -> & Hp & Hh & _ & Hr & He).
    unfold check_age. cbn [get_prop].
    destruct (Date_getTime P (assoc (js "timestamp") props)) as [ts|] eqn:Ets.
    + destruct (too_old now ts) eqn:Eold; [discriminate|].
      intros _. exists props. do 5 (split; [assumption || reflexivity|]).
      intros ts' Hts'. rewrite Ets in Hts'. injection Hts' as <-.
      destruct (Z_le_gt_dec (now - ts) 86400000) as [Hle|Hgt]; [assumption|].
      apply too_old_spec in Hgt. congruence.
    + intros _. exists props. do 5 (split; [assumption || reflexivity|]).
      intros ts' Hts'. rewrite Ets in Hts'. discriminate.
Qed.

Lemma verified_payload_is_signed_witness :
  let P := Sample.platform in
  let text := Sample.payload1 in
  exists props,
    JSON_parse text = Some (JObject props) /\
    data (verifyQRCodeData P None Sample.noon text) = Some (JObject props) /\
    assoc (js "hash") props
    = Some (JString (hmac_sha256_hex P (secret_of None)
                       (JSON_stringify P (JObject (without_key (js "hash") props))))) /\
    truthy P (assoc (js "registrationId") props) = true /\
    truthy P (assoc (js "eventId") props) = true /\
    (forall ts, Date_getTime P (assoc (js "timestamp") props) = Some ts ->
                (Sample.noon - ts <= 86400000)%Z).
Proof.
  apply (verified_payload_is_signed Sample.platform None Sample.noon Sample.payload1).
  vm_compute. reflexivity.
Defined.

(** X2: the payload text tells tickets apart.  Two calls of
    [generateQRCodeData] that differ in the registrationId, the eventId or
    the userId return different texts, whatever the times and the secrets. *)
Theorem payload_text_identifies_ticket (P : Platform) (env env' : option jsstring)
    (now now' : Z) (r e u r' e' u' : jsstring) :
  (r, e, u) <> (r', e', u') ->
  generateQRCodeData P env now r e u <> generateQRCodeData P env' now' r' e' u'.
Proof.
  intros Hdiff Heq. apply (f_equal JSON_parse) in Heq.
  rewrite !generate_is_payload_text in Heq. unfold ticket_payload in Heq.
  rewrite !parse_ticket_object in Heq. unfold ticket_data in Heq.
  cbn [app] in Heq. congruence.
Qed.

Lemma payload_text_identifies_ticket_witness :
  (js "r1", js "e1", js "u1") <> (js "r2", js "e1", js "u1") /\
  generateQRCodeData Sample.platform None Sample.noon (js "r1") (js "e1") (js "u1")
  <> generateQRCodeData Sample.platform None Sample.noon (js "r2") (js "e1") (js "u1").
Proof.
  split; [discriminate|].
  apply payload_text_identifies_ticket. discriminate.
Defined.

(* ================================================================== *)
(** * Further properties of the two attendance routes *)
(* ================================================================== *)

Lemma scan_frontend_authorized (P : Platform) (st : Store) (session : option SessionUser)
    (body : ScanBody) (x : jsstring * json * Ticket) :
  scan_frontend P st session body = inr x ->
  exists user, session = Some user /\ role user <> UserRole.USER.
Proof.
  unfold scan_frontend, authorize. destruct session as [user|]; [|discriminate].
  destruct (role user) eqn:R; [discriminate| |];
    intros _; exists user; (split; [reflexivity | rewrite R; discriminate]).
Qed.

Lemma manual_frontend_spec (st : Store) (session : option SessionUser)
    (body : ManualBody) (r : jsstring) (reg : Registration) :
  manual_frontend st session body = inr (r, reg) ->
  (exists user, session = Some user /\ role user <> UserRole.USER) /\
  manual_registrationId body = Some r /\ r <> [] /\
  In reg (registrations st) /\ registration_id reg = r /\
  registration_status reg = RegistrationStatus.CONFIRMED.
Proof.
  unfold manual_frontend, authorize. destruct session as [user|]; [|discriminate].
  intros H. split.
  - exists user. split; [reflexivity|]. intros R. rewrite R in H. discriminate.
  - destruct (role user); [discriminate| |];
      (destruct (manual_registrationId body) as [[|c s]|]; try discriminate;
       destruct (find _ (registrations st)) as [found|] eqn:F; try discriminate;
       destruct (registration_status found) eqn:S; try discriminate;
       injection H as <- <-; apply find_some in F as [Hin Heq];
       apply str_eqb_eq in Heq;
       repeat (split; [now auto || discriminate|]); assumption).
Qed.

Lemma update_checkOutTime_ids (id : jsstring) (time : Z) (rows : list Attendance) :
  map attendance_id (update_checkOutTime id time rows) = map attendance_id rows.
Proof.
  induction rows as [|a rows IH]; [reflexivity|].
  cbn [update_checkOutTime]. destruct (str_eqb _ _); cbn [map]; [reflexivity|].
  now rewrite IH.
Qed.

(** What the dispatch on [action] can do to the store. *)
Lemma scan_action_frame (P : Platform) (st : Store) (time : Z) (rid : json)
    (body : ScanBody) :
  let result := scan_action P st time rid body in
  let ids := map attendance_id (attendances st) in
  tickets (snd result) = tickets st /\
  registrations (snd result) = registrations st /\
  (map attendance_id (attendances (snd result)) = ids \/
   map attendance_id (attendances (snd result)) = ids ++ [prisma_new_id P ids]) /\
  (snd result <> st -> http_status (fst result) = 200%Z).
Proof.
  assert (Same : forall r : Response,
             tickets st = tickets st /\ registrations st = registrations st /\
             (map attendance_id (attendances st) = map attendance_id (attendances st) \/
              map attendance_id (attendances st)
              = map attendance_id (attendances st)
                ++ [prisma_new_id P (map attendance_id (attendances st))]) /\
             (st <> st -> http_status r = 200%Z)).
  { intros r. split; [reflexivity|]. split; [reflexivity|].
    split; [now left|]. intros H. now contradiction H. }
  unfold scan_action. cbv zeta.
  destruct (str_eqb _ (js "checkin")).
  - unfold scan_checkin. destruct (prisma_where P rid); [|apply Same].
    destruct (find _ _); [apply Same|].
    destruct rid; try apply Same.
    cbn [fst snd set_attendances tickets registrations attendances].
    split; [reflexivity|]. split; [reflexivity|]. split; [|reflexivity].
    right. rewrite map_app. reflexivity.
  - destruct (str_eqb _ (js "checkout")); [|apply Same].
    unfold scan_checkout. destruct (prisma_where P rid); [|apply Same].
    destruct (find _ _) as [a|]; [|apply Same].
    destruct (find _ _); [|apply Same].
    cbn [fst snd set_attendances tickets registrations attendances].
    split; [reflexivity|]. split; [reflexivity|]. split; [|reflexivity].
    left. apply update_checkOutTime_ids.
Qed.

(** X3: what a scan request cannot do.  Whatever the request, the scan
    handler leaves the tickets and the registrations as they are, deletes no
    attendance row and reorders none (the row ids stay, with at most the id
    of one new row after them); and the store differs afterwards only when
    the response is a 200 and the caller is a signed-in admin or event
    organizer. *)
Theorem scan_request_frame (P : Platform) (st : Store) (now time : Z)
    (session : option SessionUser) (body : ScanBody) :
  let result := scan_POST P st now time session body in
  let ids := map attendance_id (attendances st) in
  tickets (snd result) = tickets st /\
  registrations (snd result) = registrations st /\
  (map attendance_id (attendances (snd result)) = ids \/
   map attendance_id (attendances (snd result)) = ids ++ [prisma_new_id P ids]) /\
  (snd result <> st ->
   http_status (fst result) = 200%Z /\
   exists user, session = Some user /\ role user <> UserRole.USER).
Proof.
  cbv zeta. unfold scan_POST.
  destruct (scan_frontend P st session body) as [early|[[qr rid] ticket]] eqn:F.
  - cbn [fst snd]. split; [reflexivity|]. split; [reflexivity|]. split; [now left|].
    intros H. now contradiction H.
  - destruct (check_scannable now ticket) as [early|[]].
    + cbn [fst snd]. split; [reflexivity|]. split; [reflexivity|]. split; [now left|].
      intros H. now contradiction H.
    + destruct (scan_action_frame P st time rid body) as (Ht & Hr & Hids & Hs).
      split; [exact Ht|]. split; [exact Hr|]. split; [exact Hids|].
      intros H. split; [now apply Hs|]. exact (scan_frontend_authorized _ _ _ _ _ F).
Qed.

(** X4: the manual route records attendance only for a registration that
    exists and is confirmed.  Whatever the request, the handler leaves the
    store as it is, or answers with a success and appends one row: a
    [MANUAL] row, open, for the registration id of the body, which is the id
    of a stored registration whose status is [CONFIRMED]; and the caller is
    then a signed-in admin or event organizer. *)
Theorem manual_request_frame (P : Platform) (st : Store) (time : Z)
    (session : option SessionUser) (body : ManualBody) :
  let result := manual_POST P st time session body in
  snd result = st \/
  exists a reg user,
    fst result = CheckInSuccessful a /\
    snd result = set_attendances st (attendances st ++ [a]) /\
    method a = CheckInMethod.MANUAL /\
    checkInTime a = Some time /\ checkOutTime a = None /\
    manual_registrationId body = Some (attendance_registrationId a) /\
    In reg (registrations st) /\
    registration_id reg = attendance_registrationId a /\
    registration_status reg = RegistrationStatus.CONFIRMED /\
    session = Some user /\ role user <> UserRole.USER.
Proof.
  cbv zeta. unfold manual_POST.
  destruct (manual_frontend st session body) as [early|[r reg]] eqn:F; [now left|].
  destruct (manual_frontend_spec _ _ _ _ _ F) as ((user & Hs & Hrole) & Hb & _ & Hin & Hid & Hst).
  unfold manual_checkin. destruct (find _ _); [now left|].
  right. exists (new_attendance P st r (sessionId_or_null (manual_sessionId body)) time
                   CheckInMethod.MANUAL), reg, user.
  cbn [fst snd new_attendance method checkInTime checkOutTime attendance_registrationId].
  repeat (split; [assumption || reflexivity|]). assumption.
Qed.

Lemma NoDup_snoc {A : Type} (l : list A) (x : A) :
  NoDup l -> ~ In x l -> NoDup (l ++ [x]).
Proof.
  induction l as [|y l IH]; cbn; intros Hl Hx.
  - constructor; [intros []|constructor].
  - inversion Hl as [|? ? Hy Hl']; subst. constructor.
    + rewrite in_app_iff. cbn. intros [H|[H|[]]]; [now apply Hy|]. subst. apply Hx. now left.
    + apply IH; [assumption|]. intros H. apply Hx. now right.
Qed.

(** X5: the row ids stay distinct.  When the ids of the attendance rows are
    distinct and the id the database gives a new row is none of them, the
    ids are distinct after any scan request and after any manual request. *)
Theorem attendance_ids_stay_distinct (P : Platform) (st : Store) (now time : Z)
    (session : option SessionUser) (scan : ScanBody) (manual : ManualBody) :
  let ids := map attendance_id (attendances st) in
  NoDup ids ->
  ~ In (prisma_new_id P ids) ids ->
  NoDup (map attendance_id (attendances (snd (scan_POST P st now time session scan)))) /\
  NoDup (map attendance_id (attendances (snd (manual_POST P st time session manual)))).
Proof.
  cbv zeta. intros Hnd Hfresh. split.
  - unfold scan_POST.
    destruct (scan_frontend P st session scan) as [early|[[qr rid] ticket]]; [exact Hnd|].
    destruct (check_scannable now ticket) as [early|[]]; [exact Hnd|].
    destruct (scan_action_frame P st time rid scan) as (_ & _ & [E|E] & _); rewrite E.
    + exact Hnd.
    + now apply NoDup_snoc.
  - unfold manual_POST.
    destruct (manual_frontend st session manual) as [early|[r reg]]; [exact Hnd|].
    unfold manual_checkin. destruct (find _ _); [exact Hnd|].
    cbn [snd set_attendances attendances]. rewrite map_app. now apply NoDup_snoc.
Qed.

Lemma attendance_ids_stay_distinct_witness :
  let P := Sample.platform in
  NoDup (map attendance_id
           (attendances (snd (scan_POST P Sample.store1 Sample.noon Sample.noon
                                (Some Sample.admin) Sample.checkout_r1)))) /\
  NoDup (map attendance_id
           (attendances (snd (manual_POST P Sample.store1 Sample.noon
                                (Some Sample.admin)
                                {| manual_registrationId := Some (js "r1");
                                   manual_sessionId := Some (js "s1") |})))).
Proof.
  apply (attendance_ids_stay_distinct Sample.platform Sample.store1).
  - repeat constructor. intros [].
  - vm_compute. intros [H|[]]. discriminate.
Defined.




Lemma find_none_all {A : Type} (f : A -> bool) (l : list A) :
  (forall x, In x l -> f x = false) -> find f l = None.
Proof.
  induction l as [|y l IH]; [reflexivity|]. intros H. cbn [find].
  rewrite (H y) by now left. apply IH. intros x Hx. apply H. now right.
Qed.

Lemma find_snoc {A : Type} (f : A -> bool) (l : list A) (a : A) :
  (forall x, In x l -> f x = false) ->
  find f (l ++ [a]) = if f a then Some a else None.
Proof.
  induction l as [|y l IH]; intros H; [reflexivity|].
  cbn [app find]. rewrite (H y) by now left. apply IH. intros x Hx. apply H. now right.
Qed.

Lemma update_checkOutTime_snoc (time : Z) (l : list Attendance) (a : Attendance) :
  ~ In (attendance_id a) (map attendance_id l) ->
  update_checkOutTime (attendance_id a) time (l ++ [a]) = l ++ [with_checkOutTime time a].
Proof.
  intros H. apply (update_checkOutTime_split time l [] a).
  intros x Hx E. apply H. rewrite <- E. now apply in_map.
Qed.

(** The part of a scan request before the attendance is looked up reads the
    tickets and the scanned text, nothing else. *)
Lemma scan_frontend_ext (P : Platform) (st st' : Store) (session : option SessionUser)
    (body body' : ScanBody) :
  tickets st = tickets st' -> qrData body = qrData body' ->
  scan_frontend P st session body = scan_frontend P st' session body'.
Proof.
  intros Ht Hq. unfold scan_frontend, find_ticket, find_ticket_by_text, find_ticket_by_id.
  now rewrite Ht, Hq.
Qed.

(** A check-in, a second one, a check-out and what follows, on the rows as
    the handler builds them. *)
Lemma scan_lifecycle_steps (P : Platform) (st : Store) (now time1 time2 : Z)
    (session : option SessionUser) (qr : jsstring) (sid : option jsstring)
    (r : jsstring) (ticket : Ticket) :
  let checkin := {| qrData := Some qr; scan_sessionId := sid; action := None |} in
  let checkout :=
    {| qrData := Some qr; scan_sessionId := sid; action := Some (js "checkout") |} in
  scan_frontend P st session checkin = inr (qr, JString r, ticket) ->
  check_scannable now ticket = inr tt ->
  ~ has_attendance st r (sessionId_or_null sid) ->
  ~ In (prisma_new_id P (map attendance_id (attendances st)))
       (map attendance_id (attendances st)) ->
  let a := new_attendance P st r (sessionId_or_null sid) time1 CheckInMethod.QR_CODE in
  let st1 := set_attendances st (attendances st ++ [a]) in
  let st2 := set_attendances st (attendances st ++ [with_checkOutTime time2 a]) in
  scan_POST P st now time1 session checkin = (CheckInSuccessful a, st1) /\
  scan_POST P st1 now time2 session checkin = (AlreadyCheckedIn a, st1) /\
  scan_POST P st1 now time2 session checkout
  = (CheckOutSuccessful (with_checkOutTime time2 a), st2) /\
  scan_POST P st2 now time2 session checkout = (NoActiveCheckIn, st2) /\
  scan_POST P st2 now time2 session checkin
  = (AlreadyCheckedIn (with_checkOutTime time2 a), st2).
Proof.
  intros checkin checkout F C Hno Hfresh a st1 st2.
  assert (None_for : forall x, In x (attendances st) ->
            attendance_for (str_eqb r) (sessionId_or_null sid) x = false).
  { intros x Hx. destruct (attendance_for _ _ x) eqn:E; [|reflexivity].
    apply attendance_for_spec in E. exfalso. apply Hno. now exists x. }
  assert (None_open : forall x, In x (attendances st) ->
            attendance_for (str_eqb r) (sessionId_or_null sid) x && is_open x = false).
  { intros x Hx. now rewrite None_for. }
  assert (For_a : forall t, attendance_for (str_eqb r) (sessionId_or_null sid) a = true
            /\ attendance_for (str_eqb r) (sessionId_or_null sid) (with_checkOutTime t a)
               = true).
  { intros t. split; apply attendance_for_spec; split; reflexivity. }
  assert (F1 : forall b, qrData b = Some qr ->
            scan_frontend P st1 session b = inr (qr, JString r, ticket)).
  { intros b Hb. rewrite <- F. apply scan_frontend_ext; [reflexivity | exact Hb]. }
  assert (F2 : forall b, qrData b = Some qr ->
            scan_frontend P st2 session b = inr (qr, JString r, ticket)).
  { intros b Hb. rewrite <- F. apply scan_frontend_ext; [reflexivity | exact Hb]. }
  assert (Hid : forall x, In x (attendances st) ->
            str_eqb (attendance_id x) (attendance_id a) = false).
  { intros x Hx. apply str_eqb_neq. intros E. apply Hfresh.
    change (prisma_new_id P (map attendance_id (attendances st))) with (attendance_id a).
    rewrite <- E. now apply in_map. }
  split.
  { unfold scan_POST. rewrite F, C.
    rewrite scan_action_checkin by now left.
    unfold scan_checkin. cbn [prisma_where scan_sessionId checkin].
    now rewrite (find_none_all _ _ None_for). }
  split.
  { unfold scan_POST. rewrite (F1 checkin eq_refl), C.
    rewrite scan_action_checkin by now left.
    unfold scan_checkin. cbn [prisma_where scan_sessionId checkin st1 set_attendances attendances].
    rewrite (find_snoc _ _ a None_for). now rewrite (proj1 (For_a time2)). }
  split.
  { unfold scan_POST. rewrite (F1 checkout eq_refl), C.
    rewrite scan_action_checkout by reflexivity.
    unfold scan_checkout.
    cbn [prisma_where scan_sessionId checkout st1 set_attendances attendances].
    rewrite (find_snoc _ _ a None_open). rewrite (proj1 (For_a time2)).
    cbn [andb is_open a new_attendance checkInTime checkOutTime is_some negb].
    fold a. rewrite update_checkOutTime_snoc by exact Hfresh.
    rewrite (find_snoc _ _ (with_checkOutTime time2 a) Hid).
    cbn [with_checkOutTime attendance_id]. rewrite str_eqb_refl. reflexivity. }
  split.
  { unfold scan_POST. rewrite (F2 checkout eq_refl), C.
    rewrite scan_action_checkout by reflexivity.
    unfold scan_checkout.
    cbn [prisma_where scan_sessionId checkout st2 set_attendances attendances].
    rewrite (find_snoc _ _ (with_checkOutTime time2 a) None_open).
    rewrite (proj2 (For_a time2)). reflexivity. }
  { unfold scan_POST. rewrite (F2 checkin eq_refl), C.
    rewrite scan_action_checkin by now left.
    unfold scan_checkin.
    cbn [prisma_where scan_sessionId checkin st2 set_attendances attendances].
    rewrite (find_snoc _ _ (with_checkOutTime time2 a) None_for).
    now rewrite (proj2 (For_a time2)). }
Qed.

(** X7: the life of an attendance row under the scan route.  Take a scan that
    resolves to a ticket whose registration and event allow scanning, for a
    registration id and session without a row, the database giving the new
    row an unused id; the session is the [sessionId] of the request when
    that is a string that is not empty, and null otherwise.  The check-in
    succeeds and appends a row of that registration id and session, with
    [checkInTime] the time of the write, no [checkOutTime] and the method
    QR_CODE; a second check-in is refused with that row; a check-out
    replaces it by the same row with [checkOutTime] the time of that write;
    after that a further check-out finds no active check-in, and a further
    check-in is still refused, with the closed row. *)
Theorem scan_attendance_lifecycle (P : Platform) (st : Store) (now time1 time2 : Z)
    (session : option SessionUser) (qr : jsstring) (sid : option jsstring)
    (r : jsstring) (ticket : Ticket) :
  let checkin := {| qrData := Some qr; scan_sessionId := sid; action := None |} in
  let checkout :=
    {| qrData := Some qr; scan_sessionId := sid; action := Some (js "checkout") |} in
  let key := match sid with
             | Some (c :: s) => Some (c :: s)
             | _ => None
             end in
  scan_frontend P st session checkin = inr (qr, JString r, ticket) ->
  check_scannable now ticket = inr tt ->
  ~ has_attendance st r key ->
  ~ In (prisma_new_id P (map attendance_id (attendances st)))
       (map attendance_id (attendances st)) ->
  let row checkOutTime' :=
    {| attendance_id := prisma_new_id P (map attendance_id (attendances st));
       attendance_registrationId := r;
       sessionId := key;
       checkInTime := Some time1;
       checkOutTime := checkOutTime';
       method := CheckInMethod.QR_CODE |} in
  let st1 := set_attendances st (attendances st ++ [row None]) in
  let st2 := set_attendances st (attendances st ++ [row (Some time2)]) in
  scan_POST P st now time1 session checkin = (CheckInSuccessful (row None), st1) /\
  scan_POST P st1 now time2 session checkin = (AlreadyCheckedIn (row None), st1) /\
  scan_POST P st1 now time2 session checkout
  = (CheckOutSuccessful (row (Some time2)), st2) /\
  scan_POST P st2 now time2 session checkout = (NoActiveCheckIn, st2) /\
  scan_POST P st2 now time2 session checkin = (AlreadyCheckedIn (row (Some time2)), st2).
Proof.
  intros checkin checkout key F C Hno Hfresh row st1 st2.
  exact (scan_lifecycle_steps P st now time1 time2 session qr sid r ticket F C Hno Hfresh).
Qed.

Lemma scan_attendance_lifecycle_witness :
  let P := Sample.platform in
  let st := Sample.store1 in
  let session := Some Sample.admin in
  let now := Sample.noon in
  let time1 := Sample.noon in
  let time2 := (Sample.noon + 3600000)%Z in
  let checkin :=
    {| qrData := Some (js "r1"); scan_sessionId := Some (js "s1"); action := None |} in
  let checkout :=
    {| qrData := Some (js "r1"); scan_sessionId := Some (js "s1");
       action := Some (js "checkout") |} in
  let row checkOutTime' :=
    {| attendance_id := prisma_new_id P (map attendance_id (attendances st));
       attendance_registrationId := js "r1";
       sessionId := Some (js "s1");
       checkInTime := Some time1;
       checkOutTime := checkOutTime';
       method := CheckInMethod.QR_CODE |} in
  let st1 := set_attendances st (attendances st ++ [row None]) in
  let st2 := set_attendances st (attendances st ++ [row (Some time2)]) in
  has_attendance st (js "r1") None /\
  scan_POST P st now time1 session checkin = (CheckInSuccessful (row None), st1) /\
  scan_POST P st1 now time2 session checkin = (AlreadyCheckedIn (row None), st1) /\
  scan_POST P st1 now time2 session checkout
  = (CheckOutSuccessful (row (Some time2)), st2) /\
  scan_POST P st2 now time2 session checkout = (NoActiveCheckIn, st2) /\
  scan_POST P st2 now time2 session checkin = (AlreadyCheckedIn (row (Some time2)), st2).
Proof.
  split.
  - exists Sample.open_row. split; [now left | split; reflexivity].
  - apply (scan_attendance_lifecycle Sample.platform Sample.store1 Sample.noon Sample.noon
             (Sample.noon + 3600000)%Z (Some Sample.admin) (js "r1") (Some (js "s1"))
             (js "r1") Sample.ticket1).
    + vm_compute. reflexivity.
    + reflexivity.
    + intros (a & [<-|[]] & _ & Hs). discriminate.
    + vm_compute. intros [H|[]]. discriminate.
Defined.

(** ** The diagnostics of the scan route *)

Lemma substring0_length (n : nat) (s : jsstring) : length (substring0 n s) <= n.
Proof. unfold substring0. apply firstn_le_length. Qed.

Lemma received_preview_length (qrData : jsstring) : length (received_preview qrData) <= 103.
Proof.
  unfold received_preview. rewrite length_app.
  pose proof (substring0_length 100 qrData) as H.
  remember (length (substring0 100 qrData)) as n.
  destruct (Nat.ltb _ _); cbn; lia.
Qed.

Lemma preview_length (t : Ticket) :
  length (preview_id (preview t)) <= 11 /\ length (qrDataPreview (preview t)) <= 103.
Proof.
  unfold preview. cbn [preview_id qrDataPreview]. rewrite !length_app.
  pose proof (substring0_length 8 (ticket_id t)) as H.
  remember (length (substring0 8 (ticket_id t))) as n.
  split; [cbn; lia|].
  destruct (qrCodeData t) as [q|].
  - pose proof (substring0_length 100 q) as H'.
    remember (length (substring0 100 q)) as m. cbn; lia.
  - cbn. lia.
Qed.

Lemma registrationId_of_error (P : Platform) (v : json) (early : Response) :
  registrationId_of P v = inl early ->
  early = InternalServerError \/ early = MissingRegistrationId.
Proof.
  unfold registrationId_of.
  destruct v; try (intros H; injection H as <-; now left);
    (destruct (get_prop _ _); [destruct (truthy P _); [discriminate|]|];
     intros H; injection H as <-; now right).
Qed.

Lemma scan_frontend_diagnostics (P : Platform) (st : Store) (session : option SessionUser)
    (body : ScanBody) (early : Response) :
  scan_frontend P st session body = inl early ->
  match early with
  | InvalidQRFormat received =>
      exists qr, qrData body = Some qr /\ received = received_preview qr
  | InvalidTicket searchedId receivedQrData availableTickets =>
      exists qr qrCodeData,
        qrData body = Some qr /\
        resolve P qr = inr qrCodeData /\
        registrationId_of P qrCodeData = inr searchedId /\
        receivedQrData = substring0 200 qr /\
        availableTickets = map preview (firstn 5 (tickets st))
  | _ => True
  end.
Proof.
  unfold scan_frontend.
  destruct (authorize session) as [e|ok] eqn:A.
  - intros H. injection H as H. subst early. unfold authorize in A.
    destruct session as [user|]; [destruct (role user)|];
      try discriminate; injection A as A; rewrite <- A; exact I.
  - destruct (qrData body) as [[|c qr]|]; try (intros H; injection H as <-; exact I).
    destruct (resolve P (c :: qr)) as [e|v] eqn:Res.
    + intros H. injection H as H. subst early. unfold resolve in Res.
      destruct (JSON_parse (c :: qr)); [discriminate|].
      destruct (resolve_fallback P (c :: qr)); [discriminate|].
      injection Res as <-. now exists (c :: qr).
    + destruct (registrationId_of P v) as [e|rid] eqn:R.
      * intros H. injection H as H. subst early.
        destruct (registrationId_of_error P v e R) as [-> | ->]; exact I.
      * destruct (find_ticket P st (c :: qr) rid) as [[t|]|];
          intros H; try discriminate; injection H as <-; [|exact I].
        exists (c :: qr), v. repeat split; assumption || reflexivity.
Qed.

(** X8: the diagnostics of the scan route.  The format error echoes at most
    103 characters of the scanned text.  The ticket-not-found response
    echoes at most 200 characters of it in [receivedQrData] and describes at
    most five stored tickets, each with at most 11 characters of the ticket
    id and at most 103 of the stored payload; its [searchedId] is the
    registrationId the text resolved to, in full: for a scanned identifier
    that is neither JSON nor an address, the whole scanned text, whatever
    its length.  Both responses leave the store as it is. *)
Theorem scan_diagnostics_bounded (P : Platform) (st : Store) (now time : Z)
    (session : option SessionUser) (body : ScanBody) :
  match fst (scan_POST P st now time session body) with
  | InvalidQRFormat received =>
      length received <= 103 /\ snd (scan_POST P st now time session body) = st
  | InvalidTicket searchedId receivedQrData availableTickets =>
      length receivedQrData <= 200 /\
      length availableTickets <= 5 /\
      Forall (fun p => length (preview_id p) <= 11 /\ length (qrDataPreview p) <= 103)
             availableTickets /\
      (exists qr qrCodeData,
         qrData body = Some qr /\
         receivedQrData = substring0 200 qr /\
         resolve P qr = inr qrCodeData /\
         registrationId_of P qrCodeData = inr searchedId /\
         (JSON_parse qr = None -> startsWith (js "http") qr = false ->
          matches_simple_id qr = true ->
          searchedId = JString qr)) /\
      snd (scan_POST P st now time session body) = st
  | _ => True
  end.
Proof.
  unfold scan_POST.
  destruct (scan_frontend P st session body) as [early|[[qr rid] ticket]] eqn:F.
  - apply scan_frontend_diagnostics in F. cbn [fst snd]. destruct early; try exact I.
    + destruct F as (qr & _ & ->). split; [apply received_preview_length | reflexivity].
    + destruct F as (qr & v & Hbody & Hres & Hrid & -> & ->).
      split; [apply substring0_length|]. split.
      * rewrite length_map. apply firstn_le_length.
      * split.
        -- apply Forall_forall. intros p Hp.
           apply in_map_iff in Hp as (t & <- & _). apply preview_length.
        -- split; [|reflexivity]. exists qr, v.
           do 4 (split; [assumption || reflexivity|]).
           intros Hjson Hhttp Hid. unfold resolve, resolve_fallback in Hres.
           rewrite Hjson, Hhttp, Hid in Hres. injection Hres as <-.
           pose proof (matches_simple_id_nonempty _ Hid) as Hne.
           unfold registrationId_of in Hrid. cbn [get_prop assoc] in Hrid.
           change (str_eqb (js "registrationId") (js "registrationId")) with true in Hrid.
           cbv iota in Hrid. rewrite (proj2 (truthy_string P qr) Hne) in Hrid.
           injection Hrid as <-. reflexivity.
  - destruct (check_scannable now ticket) as [early|[]] eqn:C.
    + apply check_scannable_error in C. cbn [fst]. destruct early; try exact I; discriminate.
    + unfold scan_action. cbv zeta.
      destruct (str_eqb _ (js "checkin")).
      * unfold scan_checkin. destruct (prisma_where P rid); [|exact I].
        destruct (find _ _); [exact I|]. destruct rid; exact I.
      * destruct (str_eqb _ (js "checkout")); [|exact I].
        unfold scan_checkout. destruct (prisma_where P rid); [|exact I].
        destruct (find _ _); [|exact I]. destruct (find _ _); exact I.
Qed.

(** X9: a scanned text that is JSON but no object is refused, whatever the
    store holds.  For a signed-in admin or organizer, when [JSON.parse]
    accepts the text and the value is not an object, the other readings of
    the text (URL, identifier, base64) play no part: the response is
    [Invalid QR code: missing registration ID], or the 500 of the handler
    when the value is [null]; the store is unchanged. *)
Theorem scan_json_not_object (P : Platform) (st : Store) (now time : Z)
    (user : SessionUser) (qr : jsstring) (sid act : option jsstring) (v : json) :
  role user <> UserRole.USER ->
  JSON_parse qr = Some v ->
  (forall props, v <> JObject props) ->
  scan_POST P st now time (Some user)
    {| qrData := Some qr; scan_sessionId := sid; action := act |}
  = (match v with JNull => InternalServerError | _ => MissingRegistrationId end, st).
Proof.
  intros Hrole Hparse Hobj.
  pose proof (JSON_parse_nonempty _ _ Hparse) as Hne.
  unfold scan_POST, scan_frontend, authorize.
  destruct (role user); [now contradiction Hrole| |];
    (cbn [qrData]; destruct qr as [|c qr]; [now contradiction Hne|];
     unfold resolve; rewrite Hparse;
     destruct v; try reflexivity; now contradiction (Hobj props)).
Qed.

Lemma scan_json_not_object_witness :
  let P := Sample.platform in
  let run q := scan_POST P Sample.store0 Sample.noon Sample.noon (Some Sample.admin)
                 {| qrData := Some q; scan_sessionId := None; action := None |} in
  run (js "null") = (InternalServerError, Sample.store0) /\
  run (jsq "'r1'") = (MissingRegistrationId, Sample.store0).
Proof.
  split.
  - apply (scan_json_not_object Sample.platform Sample.store0 Sample.noon Sample.noon
             Sample.admin (js "null") None None JNull);
      [discriminate | vm_compute; reflexivity | discriminate].
  - apply (scan_json_not_object Sample.platform Sample.store0 Sample.noon Sample.noon
             Sample.admin (jsq "'r1'") None None (JString (js "r1")));
      [discriminate | vm_compute; reflexivity | discriminate].
Defined.

(** ** Issued payloads in the scan route *)

(** X10: a payload issued by [generateQRCodeData] always resolves in the
    scan route.  For a signed-in admin or organizer and a non-empty
    registrationId, the scanned payload text is read as JSON, its
    registrationId is the one it was issued for, and when some stored ticket
    belongs to that registration the lookup returns a ticket: one that stores
    exactly this text, or else one of that registration. *)
Theorem issued_payload_reaches_ticket (P : Platform) (st : Store)
    (env : option jsstring) (issued : Z) (r e u : jsstring)
    (user : SessionUser) (sid act : option jsstring) :
  role user <> UserRole.USER ->
  r <> [] ->
  (exists t, In t (tickets st) /\ ticket_registrationId t = r) ->
  let text := generateQRCodeData P env issued r e u in
  resolve P text = inr (ticket_payload P env issued r e u) /\
  exists ticket,
    scan_frontend P st (Some user)
      {| qrData := Some text; scan_sessionId := sid; action := act |}
    = inr (text, JString r, ticket) /\
    In ticket (tickets st) /\
    (qrCodeData ticket = Some text \/ ticket_registrationId ticket = r).
Proof.
  intros Hrole Hr (t & Ht & Htr) text.
  assert (Hparse : JSON_parse text = Some (ticket_payload P env issued r e u)).
  { unfold text. rewrite generate_is_payload_text. apply parse_ticket_object. }
  assert (Hres : resolve P text = inr (ticket_payload P env issued r e u)).
  { unfold resolve. now rewrite Hparse. }
  split; [exact Hres|].
  pose proof (JSON_parse_nonempty _ _ Hparse) as Hne.
  unfold scan_frontend, authorize. cbn [qrData].
  assert (Hrid : registrationId_of P (ticket_payload P env issued r e u) = inr (JString r)).
  { unfold registrationId_of, ticket_payload, ticket_data. cbn [get_prop app assoc].
    rewrite str_eqb_refl. now rewrite (proj2 (truthy_string P r) Hr). }
  assert (Hfind : exists ticket,
             find_ticket P st text (JString r) = Some (Some ticket) /\
             In ticket (tickets st) /\
             (qrCodeData ticket = Some text \/ ticket_registrationId ticket = r)).
  { unfold find_ticket, find_ticket_by_text.
    destruct (find _ (tickets st)) as [found|] eqn:F1.
    - exists found. apply find_some in F1 as [Hin Heq]. apply opt_str_eqb_eq in Heq.
      split; [reflexivity|]. split; [assumption|now left].
    - unfold find_ticket_by_id. cbn [prisma_where].
      destruct (find (fun t0 => str_eqb r (ticket_registrationId t0)) (tickets st))
        as [found|] eqn:F2.
      + exists found. apply find_some in F2 as [Hin Heq]. apply str_eqb_eq in Heq.
        split; [reflexivity|]. split; [assumption|now right].
      + exfalso. pose proof (find_none _ _ F2 t Ht) as Hn. cbn in Hn.
        rewrite Htr, str_eqb_refl in Hn. discriminate. }
  destruct Hfind as (ticket & Hf & Hin & Hor).
  exists ticket. split; [|split; assumption].
  destruct (role user); [now contradiction Hrole| |];
    (destruct text as [|c rest] eqn:Etext; [now contradiction Hne|];
     rewrite Hres, Hrid, Hf; reflexivity).
Qed.

Lemma issued_payload_reaches_ticket_witness :
  let P := Sample.platform in
  let text := generateQRCodeData P None 1710450000000 (js "r1") (js "e1") (js "u1") in
  resolve P text = inr (ticket_payload P None 1710450000000 (js "r1") (js "e1") (js "u1")) /\
  exists ticket,
    scan_frontend P Sample.store0 (Some Sample.admin)
      {| qrData := Some text; scan_sessionId := None; action := None |}
    = inr (text, JString (js "r1"), ticket) /\
    In ticket (tickets Sample.store0) /\
    (qrCodeData ticket = Some text \/ ticket_registrationId ticket = js "r1").
Proof.
  apply (issued_payload_reaches_ticket Sample.platform Sample.store0 None 1710450000000
           (js "r1") (js "e1") (js "u1") Sample.admin None None).
  - discriminate.
  - discriminate.
  - exists Sample.ticket1. split; [now left | reflexivity].
Defined.

(* ================================================================== *)
(** * One row for each registration and session *)
(* ================================================================== *)

Lemma update_checkOutTime_pairs (id : jsstring) (time : Z) (rows : list Attendance) :
  map (fun a => (attendance_registrationId a, sessionId a)) (update_checkOutTime id time rows)
  = map (fun a => (attendance_registrationId a, sessionId a)) rows.
Proof.
  induction rows as [|a rows IH]; [reflexivity|].
  cbn [update_checkOutTime]. destruct (str_eqb _ _); cbn [map]; [reflexivity|].
  now rewrite IH.
Qed.

Lemma no_row_no_pair (st : Store) (r : jsstring) (sid : option jsstring) :
  find (attendance_for (str_eqb r) sid) (attendances st) = None ->
  ~ In (r, sid) (attendance_pairs st).
Proof.
  intros F Hin. unfold attendance_pairs in Hin. apply in_map_iff in Hin as (a & E & Ha).
  injection E as E1 E2.
  pose proof (find_none _ _ F a Ha) as Hn.
  assert (attendance_for (str_eqb r) sid a = true) by now apply attendance_for_spec.
  congruence.
Qed.

(** X11: the check-in guard keeps one row for each pair.  When no two
    attendance rows have the same registrationId and sessionId, the same
    holds after any scan request and after any manual request. *)
Theorem one_row_per_registration_and_session (P : Platform) (st : Store) (now time : Z)
    (session : option SessionUser) (scan : ScanBody) (manual : ManualBody) :
  NoDup (attendance_pairs st) ->
  NoDup (attendance_pairs (snd (scan_POST P st now time session scan))) /\
  NoDup (attendance_pairs (snd (manual_POST P st time session manual))).
Proof.
  intros Hnd. split.
  - unfold scan_POST.
    destruct (scan_frontend P st session scan) as [early|[[qr rid] ticket]]; [exact Hnd|].
    destruct (check_scannable now ticket) as [early|[]]; [exact Hnd|].
    unfold scan_action. cbv zeta.
    destruct (str_eqb _ (js "checkin")).
    + unfold scan_checkin. destruct (prisma_where P rid) as [selects|] eqn:W; [|exact Hnd].
      destruct (find _ _) eqn:F; [exact Hnd|]. destruct rid; try exact Hnd.
      cbn [prisma_where] in W. injection W as <-.
      unfold attendance_pairs. cbn [snd set_attendances attendances].
      rewrite map_app. apply NoDup_snoc; [exact Hnd|].
      cbn [new_attendance attendance_registrationId sessionId].
      now apply no_row_no_pair.
    + destruct (str_eqb _ (js "checkout")); [|exact Hnd].
      unfold scan_checkout. destruct (prisma_where P rid); [|exact Hnd].
      destruct (find _ _) as [a|]; [|exact Hnd].
      destruct (find _ _); [|exact Hnd].
      unfold attendance_pairs. cbn [snd set_attendances attendances].
      now rewrite update_checkOutTime_pairs.
  - unfold manual_POST.
    destruct (manual_frontend st session manual) as [early|[r reg]]; [exact Hnd|].
    unfold manual_checkin. destruct (find _ _) eqn:F; [exact Hnd|].
    unfold attendance_pairs. cbn [snd set_attendances attendances].
    rewrite map_app. apply NoDup_snoc; [exact Hnd|].
    cbn [new_attendance attendance_registrationId sessionId].
    now apply no_row_no_pair.
Qed.

Lemma one_row_per_registration_and_session_witness :
  let P := Sample.platform in
  NoDup (attendance_pairs
           (snd (scan_POST P Sample.store1 Sample.noon Sample.noon (Some Sample.admin)
                   {| qrData := Some (js "r1"); scan_sessionId := Some (js "s1");
                      action := None |}))) /\
  NoDup (attendance_pairs
           (snd (manual_POST P Sample.store1 Sample.noon (Some Sample.admin)
                   Sample.manual_r1))).
Proof.
  apply (one_row_per_registration_and_session Sample.platform Sample.store1).
  repeat constructor. intros [].
Defined.

(* ================================================================== *)
(** * The check-out by row id *)
(* ================================================================== *)

Lemma find_by_id_split (rows : list Attendance) (id : jsstring) (a : Attendance) :
  find (fun x => str_eqb (attendance_id x) id) rows = Some a ->
  exists before after,
    rows = before ++ a :: after /\ attendance_id a = id /\
    forall x, In x before -> attendance_id x <> attendance_id a.
Proof.
  intros F. apply find_split in F as (before & after & -> & Ha & Hb).
  apply str_eqb_eq in Ha. exists before, after. split; [reflexivity|]. split; [exact Ha|].
  intros x Hx E. specialize (Hb x Hx). apply str_eqb_neq in Hb. congruence.
Qed.

(** X12: a row is checked out by its id once.  For a signed-in admin or
    organizer and a [checkout] of a row id that exists: when the row (the
    first with that id) has no [checkOutTime], it is replaced by a row whose
    [checkOutTime] is the time of the request and whose id, registrationId,
    sessionId, [checkInTime] and method are those it had, every other row
    staying as it is, and the same request made again, at any time, is
    refused with [Already checked out] and changes nothing; when it has one,
    the request is refused at once.  So a recorded check-out time is never
    overwritten. *)
Theorem attendance_checked_out_once (st : Store) (time later : Z) (user : SessionUser)
    (attendanceId : jsstring) (a : Attendance) :
  role user <> UserRole.USER ->
  find_attendance st attendanceId = Some a ->
  let checkout t s := attendance_PUT s t (Some user) attendanceId (Some (js "checkout")) in
  (checkOutTime a <> None -> checkout time st = (AlreadyCheckedOut, st)) /\
  (checkOutTime a = None ->
   exists before after updated,
     attendances st = before ++ a :: after /\
     checkOutTime updated = Some time /\
     attendance_id updated = attendanceId /\
     attendance_id updated = attendance_id a /\
     attendance_registrationId updated = attendance_registrationId a /\
     sessionId updated = sessionId a /\
     checkInTime updated = checkInTime a /\
     method updated = method a /\
     let st' := set_attendances st (before ++ updated :: after) in
     checkout time st = (Shared (CheckOutSuccessful updated), st') /\
     checkout later st' = (AlreadyCheckedOut, st')).
Proof.
  intros Hrole F. cbv zeta.
  assert (A : authorize (Some user) = inr tt).
  { unfold authorize. destruct (role user); [now contradiction Hrole| |]; reflexivity. }
  unfold attendance_PUT. rewrite A, F.
  change (opt_str_eqb (Some (js "checkout")) (Some (js "checkout"))) with true. cbv iota.
  split.
  - intros Hout. destruct (checkOutTime a); [reflexivity|now contradiction Hout].
  - intros Hnone. rewrite Hnone. cbn [is_some].
    unfold find_attendance in F.
    destruct (find_by_id_split _ _ _ F) as (before & after & Hrows & Hid & Hbefore).
    exists before, after, (with_checkOutTime time a).
    split; [exact Hrows|].
    split; [reflexivity|]. split; [exact Hid|].
    do 5 (split; [reflexivity|]).
    rewrite Hrows, <- Hid.
    rewrite update_checkOutTime_split, find_updated by assumption.
    split; [reflexivity|].
    unfold find_attendance. cbn [set_attendances attendances].
    rewrite find_updated by assumption. reflexivity.
Qed.

Lemma attendance_checked_out_once_witness :
  let checkout t s :=
    attendance_PUT s t (Some Sample.admin) (js "a1") (Some (js "checkout")) in
  let a := Sample.open_row in
  (checkOutTime a <> None -> checkout Sample.noon Sample.store1 = (AlreadyCheckedOut, Sample.store1)) /\
  (checkOutTime a = None ->
   exists before after updated,
     attendances Sample.store1 = before ++ a :: after /\
     checkOutTime updated = Some Sample.noon /\
     attendance_id updated = js "a1" /\
     attendance_id updated = attendance_id a /\
     attendance_registrationId updated = attendance_registrationId a /\
     sessionId updated = sessionId a /\
     checkInTime updated = checkInTime a /\
     method updated = method a /\
     let st' := set_attendances Sample.store1 (before ++ updated :: after) in
     checkout Sample.noon Sample.store1 = (Shared (CheckOutSuccessful updated), st') /\
     checkout (Sample.noon + 1)%Z st' = (AlreadyCheckedOut, st')).
Proof.
  apply (attendance_checked_out_once Sample.store1 Sample.noon (Sample.noon + 1)%Z
           Sample.admin (js "a1") Sample.open_row).
  - discriminate.
  - reflexivity.
Defined.


(** X14: a row closed by its id is closed for the scan route.  Over a table
    with one row for each registration and session, once the open row of a
    pair has been checked out through [PUT /api/attendance/[id]], a scanned
    check-out for that registration and session finds no active check-in and
    changes nothing. *)
Theorem closed_by_id_is_closed_for_scan (P : Platform) (st : Store) (now time later : Z)
    (user : SessionUser) (session : option SessionUser) (attendanceId : jsstring)
    (a : Attendance) (body : ScanBody) (qr : jsstring) (ticket : Ticket) :
  role user <> UserRole.USER ->
  NoDup (attendance_pairs st) ->
  find_attendance st attendanceId = Some a ->
  checkOutTime a = None ->
  action body = Some (js "checkout") ->
  sessionId a = sessionId_or_null (scan_sessionId body) ->
  scan_frontend P st session body = inr (qr, JString (attendance_registrationId a), ticket) ->
  check_scannable now ticket = inr tt ->
  let closed := attendance_PUT st time (Some user) attendanceId (Some (js "checkout")) in
  fst closed = Shared (CheckOutSuccessful (with_checkOutTime time a)) /\
  scan_POST P (snd closed) now later session body = (NoActiveCheckIn, snd closed).
Proof.
  intros Hrole Hnd F Hnone Hact Hsid Hfront Hscan. cbv zeta.
  assert (A : authorize (Some user) = inr tt).
  { unfold authorize. destruct (role user); [now contradiction Hrole| |]; reflexivity. }
  unfold attendance_PUT. rewrite A, F.
  change (opt_str_eqb (Some (js "checkout")) (Some (js "checkout"))) with true. cbv iota.
  rewrite Hnone. cbn [is_some].
  unfold find_attendance in F.
  destruct (find_by_id_split _ _ _ F) as (before & after & Hrows & Hid & Hbefore).
  rewrite Hrows, <- Hid.
  rewrite update_checkOutTime_split, find_updated by assumption.
  cbn [fst snd]. split; [reflexivity|].
  unfold scan_POST.
  assert (Hfront' : forall rows,
            scan_frontend P (set_attendances st rows) session body
            = inr (qr, JString (attendance_registrationId a), ticket)).
  { intros rows. rewrite <- Hfront. apply scan_frontend_ext; reflexivity. }
  rewrite Hfront', Hscan.
  rewrite scan_action_checkout by exact Hact.
  unfold scan_checkout. cbn [prisma_where set_attendances attendances].
  rewrite find_none_all; [reflexivity|].
  unfold attendance_pairs in Hnd. rewrite Hrows, map_app in Hnd. cbn [map] in Hnd.
  apply NoDup_remove_2 in Hnd. rewrite <- map_app in Hnd.
  intros x Hx. apply in_app_or in Hx as [Hx|[Hx|Hx]].
  - destruct (attendance_for _ _ x) eqn:E; [|reflexivity].
    apply attendance_for_spec in E as [E1 E2]. exfalso. apply Hnd.
    apply in_map_iff. exists x. split; [now rewrite E1, E2, Hsid|].
    apply in_or_app. now left.
  - subst x. unfold is_open. cbn [with_checkOutTime checkOutTime is_some negb].
    now rewrite !andb_false_r.
  - destruct (attendance_for _ _ x) eqn:E; [|reflexivity].
    apply attendance_for_spec in E as [E1 E2]. exfalso. apply Hnd.
    apply in_map_iff. exists x. split; [now rewrite E1, E2, Hsid|].
    apply in_or_app. now right.
Qed.

Lemma closed_by_id_is_closed_for_scan_witness :
  let P := Sample.platform in
  let closed :=
    attendance_PUT Sample.store1 Sample.noon (Some Sample.admin) (js "a1")
      (Some (js "checkout")) in
  fst closed = Shared (CheckOutSuccessful (with_checkOutTime Sample.noon Sample.open_row)) /\
  scan_POST P (snd closed) Sample.noon (Sample.noon + 1)%Z (Some Sample.admin)
    Sample.checkout_r1
  = (NoActiveCheckIn, snd closed).
Proof.
  apply (closed_by_id_is_closed_for_scan Sample.platform Sample.store1 Sample.noon Sample.noon
           (Sample.noon + 1)%Z Sample.admin (Some Sample.admin) (js "a1") Sample.open_row
           Sample.checkout_r1 (js "r1") Sample.ticket1).
  - discriminate.
  - repeat constructor. intros [].
  - reflexivity.
  - reflexivity.
  - reflexivity.
  - reflexivity.
  - vm_compute. reflexivity.
  - reflexivity.
Defined.

(* ================================================================== *)
(** * The verification route *)
(* ================================================================== *)

Lemma signed_in_spec (session : option SessionUser) (user : SessionUser) :
  signed_in session = Some user <-> session = Some user /\ session_user_id user <> [].
Proof.
  unfold signed_in. destruct session as [u|]; [|split; [discriminate|intros [H _]; discriminate]].
  destruct (session_user_id u) eqn:E; cbn [str_falsy]; split.
  - discriminate.
  - intros [H Hne]. injection H as ->. congruence.
  - intros H. injection H as <-. split; [reflexivity|]. rewrite E. discriminate.
  - intros [H _]. exact H.
Qed.

Lemma not_own_event_false (user : SessionUser) (event : EventRow) :
  not_own_event user event = false <->
  (role user = UserRole.EVENT_ORGANIZER -> createdById event = session_user_id user).
Proof.
  unfold not_own_event. destruct (role user); split; try reflexivity; try discriminate.
  - intros H _. apply negb_false_iff in H. now apply str_eqb_eq.
  - intros H. apply negb_false_iff, str_eqb_eq. now apply H.
Qed.

(** X15: what a [valid: true] of the verification route vouches for.  When
    [POST /api/qr/verify] answers with a ticket, the caller is a signed-in
    admin, or the organizer who created the event; [verifyQRCodeData] has
    accepted the text; the ticket is a stored one whose registrationId the
    payload selects, and the payload's [eventId] and [userId] are those of the
    ticket's registration; and the time lies within the event. *)
Theorem qr_verify_vouches (P : Platform) (env : option jsstring) (db : Database)
    (verify_time now : Z) (session : option SessionUser) (text : jsstring)
    (ticket : TicketRow) (reg : RegistrationRow) (event : EventRow) :
  qr_verify_POST P env db verify_time now session (Some text) = QRValid ticket reg event ->
  (exists user, session = Some user /\ session_user_id user <> [] /\
                role user <> UserRole.USER /\
                (role user = UserRole.EVENT_ORGANIZER ->
                 createdById event = session_user_id user)) /\
  valid (verifyQRCodeData P env verify_time text) = true /\
  (exists props selects,
     JSON_parse text = Some (JObject props) /\
     where_registrationId P (assoc (js "registrationId") props) = Some selects /\
     selects (registrationId ticket) = true /\
     assoc (js "eventId") props = Some (JString (eventId reg)) /\
     assoc (js "userId") props = Some (JString (userId reg))) /\
  In ticket (ticketRows db) /\
  registration_of db ticket = Some reg /\ event_of db reg = Some event /\
  (eventRow_startDate event <= now <= eventRow_endDate event)%Z.
Proof.
  unfold qr_verify_POST.
  destruct (signed_in session) as [user|] eqn:S; [|discriminate].
  apply signed_in_spec in S as [Hs Hid].
  destruct (role user) eqn:R; [discriminate| |];
    (destruct text as [|c text']; [discriminate|];
     destruct (valid (verifyQRCodeData P env verify_time (c :: text'))) eqn:V;
       [|discriminate];
     destruct (verify_valid_data _ _ _ _ V) as (props & Hp & Hd);
     rewrite Hd; cbn [negb get_prop];
     destruct (where_registrationId P _) as [selects|] eqn:W; [|discriminate];
     destruct (find _ (ticketRows db)) as [t|] eqn:F; [|discriminate];
     destruct (registration_of db t) as [rg|] eqn:RO; [|discriminate];
     destruct (event_of db rg) as [ev|] eqn:EO; [|discriminate];
     destruct (strict_neq _ _ || strict_neq _ _) eqn:M; [discriminate|];
     destruct (not_own_event user ev) eqn:O; [discriminate|];
     destruct (Z.ltb now _) eqn:L1; [discriminate|];
     destruct (Z.gtb now _) eqn:L2; [discriminate|];
     intros H; injection H as <- <- <-;
     apply orb_false_iff in M as [M1 M2];
     apply strict_neq_false in M1, M2;
     apply find_some in F as [Hin Hsel];
     apply Z.ltb_ge in L1; rewrite Z.gtb_ltb in L2; apply Z.ltb_ge in L2;
     split;
       [exists user; split; [exact Hs|]; split; [exact Hid|]; split;
          [rewrite R; discriminate | now apply not_own_event_false]|];
     split; [reflexivity|];
     split; [exists props, selects; repeat (split; [assumption|]); assumption|];
     split; [assumption|]; split; [assumption|]; split; [assumption|]; lia).
Qed.

Lemma qr_verify_vouches_witness :
  let P := Sample.platform in
  let db := SampleDb.db1 in
  let session := Some SampleDb.organizer in
  let text := Sample.payload1 in
  let ticket := SampleDb.ticket1 in
  let reg := SampleDb.registration1 in
  let event := SampleDb.event1 in
  (exists user, session = Some user /\ session_user_id user <> [] /\
                role user <> UserRole.USER /\
                (role user = UserRole.EVENT_ORGANIZER ->
                 createdById event = session_user_id user)) /\
  valid (verifyQRCodeData P None Sample.noon text) = true /\
  (exists props selects,
     JSON_parse text = Some (JObject props) /\
     where_registrationId P (assoc (js "registrationId") props) = Some selects /\
     selects (registrationId ticket) = true /\
     assoc (js "eventId") props = Some (JString (eventId reg)) /\
     assoc (js "userId") props = Some (JString (userId reg))) /\
  In ticket (ticketRows db) /\
  registration_of db ticket = Some reg /\ event_of db reg = Some event /\
  (eventRow_startDate event <= Sample.noon <= eventRow_endDate event)%Z.
Proof.
  apply (qr_verify_vouches Sample.platform None SampleDb.db1 Sample.noon Sample.noon
           (Some SampleDb.organizer) Sample.payload1).
  vm_compute. reflexivity.
Defined.

Lemma verify_issued (P : Platform) (env : option jsstring) (issued now : Z)
    (r e u : jsstring) :
  r <> [] -> e <> [] ->
  ticket_hash P env issued r e u <> [] ->
  Date_getTime P (Some (JString (toISOString P issued))) = Some issued ->
  verifyQRCodeData P env now (generateQRCodeData P env issued r e u)
  = if too_old now issued then expired else verified (ticket_payload P env issued r e u).
Proof.
  intros Hr He Hh Hd. unfold verifyQRCodeData.
  rewrite (verify_fresh_ticket P env issued now r e u Hr He Hh).
  unfold check_age, ticket_payload, ticket_data. cbn [get_prop app assoc].
  change (str_eqb (js "timestamp") (js "registrationId")) with false.
  change (str_eqb (js "timestamp") (js "eventId")) with false.
  change (str_eqb (js "timestamp") (js "userId")) with false.
  change (str_eqb (js "timestamp") (js "timestamp")) with true.
  cbv iota. now rewrite Hd.
Qed.

(** The verification route on an issued payload. *)
Lemma qr_verify_issued (P : Platform) (env : option jsstring)
    (db : Database) (issued verify_time now : Z) (user : SessionUser)
    (ticket : TicketRow) (reg : RegistrationRow) (event : EventRow) :
  session_user_id user <> [] ->
  role user <> UserRole.USER ->
  (role user = UserRole.EVENT_ORGANIZER -> createdById event = session_user_id user) ->
  registrationId ticket <> [] -> eventId reg <> [] ->
  ticket_hash P env issued (registrationId ticket) (eventId reg) (userId reg) <> [] ->
  Date_getTime P (Some (JString (toISOString P issued))) = Some issued ->
  find (fun t => str_eqb (registrationId ticket) (registrationId t)) (ticketRows db)
  = Some ticket ->
  registration_of db ticket = Some reg ->
  event_of db reg = Some event ->
  (eventRow_startDate event <= now <= eventRow_endDate event)%Z ->
  qr_verify_POST P env db verify_time now (Some user)
    (Some (generateQRCodeData P env issued (registrationId ticket) (eventId reg) (userId reg)))
  = if too_old verify_time issued then QRCodeInvalid (js "QR code has expired")
    else QRValid ticket reg event.
Proof.
  intros Hid Hrole Hown Hr He Hh Hd Hfind Hreg Hev Hwin.
  set (text := generateQRCodeData P env issued (registrationId ticket) (eventId reg)
                 (userId reg)).
  assert (Hne : text <> []).
  { apply (JSON_parse_nonempty text (ticket_payload P env issued (registrationId ticket)
                                       (eventId reg) (userId reg))).
    unfold text. rewrite generate_is_payload_text. apply parse_ticket_object. }
  assert (S : signed_in (Some user) = Some user) by now apply signed_in_spec.
  assert (V := verify_issued P env issued verify_time _ _ (userId reg) Hr He Hh Hd).
  fold text in V.
  assert (O : not_own_event user event = false) by now apply not_own_event_false.
  unfold qr_verify_POST. rewrite S.
  destruct (role user); [now contradiction Hrole| |];
    (destruct text as [|c rest] eqn:Et; [now contradiction Hne|];
     rewrite V; destruct (too_old verify_time issued); [reflexivity|];
     cbn [valid verified negb data ticket_payload ticket_data app get_prop assoc];
     change (str_eqb (js "registrationId") (js "registrationId")) with true;
     change (str_eqb (js "eventId") (js "registrationId")) with false;
     change (str_eqb (js "eventId") (js "eventId")) with true;
     change (str_eqb (js "userId") (js "registrationId")) with false;
     change (str_eqb (js "userId") (js "eventId")) with false;
     change (str_eqb (js "userId") (js "userId")) with true;
     cbv iota; cbn [where_registrationId prisma_where];
     rewrite Hfind, Hreg, Hev; cbn [strict_neq];
     rewrite !str_eqb_refl; cbn [negb orb]; rewrite O;
     replace (Z.ltb now (eventRow_startDate event)) with false
       by (symmetry; apply Z.ltb_ge; lia);
     replace (Z.gtb now (eventRow_endDate event)) with false
       by (symmetry; rewrite Z.gtb_ltb; apply Z.ltb_ge; lia);
     reflexivity).
Qed.

(** X16: a ticket issued at registration is verified for 24 hours.  Take the
    payload [generateQRCodeData] issued for a registration, a stored ticket of
    that registration whose event and user are the issued ones, a signed-in
    admin (or the organizer of the event) and a time within the event.  Under
    the same secret, [POST /api/qr/verify] answers with the ticket when the
    payload is at most 24 hours old, and with [QR code has expired]
    afterwards. *)
Theorem issued_ticket_verifies_for_a_day (P : Platform) (env : option jsstring)
    (db : Database) (issued verify_time now : Z) (user : SessionUser)
    (ticket : TicketRow) (reg : RegistrationRow) (event : EventRow) :
  session_user_id user <> [] ->
  role user <> UserRole.USER ->
  (role user = UserRole.EVENT_ORGANIZER -> createdById event = session_user_id user) ->
  registrationId ticket <> [] -> eventId reg <> [] ->
  ticket_hash P env issued (registrationId ticket) (eventId reg) (userId reg) <> [] ->
  Date_getTime P (Some (JString (toISOString P issued))) = Some issued ->
  find (fun t => str_eqb (registrationId ticket) (registrationId t)) (ticketRows db)
  = Some ticket ->
  registration_of db ticket = Some reg ->
  event_of db reg = Some event ->
  (eventRow_startDate event <= now <= eventRow_endDate event)%Z ->
  let text :=
    generateQRCodeData P env issued (registrationId ticket) (eventId reg) (userId reg) in
  let response := qr_verify_POST P env db verify_time now (Some user) (Some text) in
  ((verify_time - issued <= 86400000)%Z -> response = QRValid ticket reg event) /\
  ((verify_time - issued > 86400000)%Z ->
   response = QRCodeInvalid (js "QR code has expired")).
Proof.
  intros Hid Hrole Hown Hr He Hh Hd Hfind Hreg Hev Hwin text response.
  unfold response, text.
  rewrite (qr_verify_issued P env db issued verify_time now user ticket reg event)
    by assumption.
  split; intros Hage.
  - destruct (too_old verify_time issued) eqn:T; [|reflexivity].
    apply too_old_spec in T. lia.
  - apply too_old_spec in Hage. now rewrite Hage.
Qed.

Lemma issued_ticket_verifies_for_a_day_witness :
  let P := Sample.platform in
  let issued := 1710450000000%Z in
  let text := generateQRCodeData P None issued (js "r1") (js "e1") (js "u1") in
  let response t :=
    qr_verify_POST P None SampleDb.db1 t Sample.noon (Some Sample.admin) (Some text) in
  ((Sample.noon - issued <= 86400000)%Z ->
   response Sample.noon = QRValid SampleDb.ticket1 SampleDb.registration1 SampleDb.event1) /\
  ((Sample.noon - issued > 86400000)%Z ->
   response Sample.noon = QRCodeInvalid (js "QR code has expired")).
Proof.
  apply (issued_ticket_verifies_for_a_day Sample.platform None SampleDb.db1 1710450000000
           Sample.noon Sample.noon Sample.admin SampleDb.ticket1 SampleDb.registration1
           SampleDb.event1).
  - discriminate.
  - discriminate.
  - discriminate.
  - discriminate.
  - discriminate.
  - vm_compute. discriminate.
  - vm_compute. reflexivity.
  - reflexivity.
  - reflexivity.
  - reflexivity.
  - vm_compute. split; discriminate.
Defined.

(* ================================================================== *)
(** * Marking a ticket as used *)
(* ================================================================== *)

Lemma find_ticketRow_split (rows : list TicketRow) (id : jsstring) (t : TicketRow) :
  find (fun x => str_eqb (ticketRow_id x) id) rows = Some t ->
  exists before after,
    rows = before ++ t :: after /\ ticketRow_id t = id /\
    forall x, In x before -> str_eqb (ticketRow_id x) id = false.
Proof.
  intros F. apply find_split in F as (before & after & -> & Ht & Hb).
  apply str_eqb_eq in Ht. now exists before, after.
Qed.

Lemma update_used_split (id : jsstring) (time : Z) (before after : list TicketRow)
    (t : TicketRow) :
  ticketRow_id t = id ->
  (forall x, In x before -> str_eqb (ticketRow_id x) id = false) ->
  update_used id time (before ++ t :: after) = before ++ with_used time t :: after.
Proof.
  intros Ht. induction before as [|x before IH]; intros Hb; cbn [app update_used].
  - now rewrite Ht, str_eqb_refl.
  - rewrite (Hb x) by now left. f_equal. apply IH. intros y Hy. apply Hb. now right.
Qed.

Lemma find_used (id : jsstring) (before after : list TicketRow) (t : TicketRow) :
  ticketRow_id t = id ->
  (forall x, In x before -> str_eqb (ticketRow_id x) id = false) ->
  find (fun x => str_eqb (ticketRow_id x) id) (before ++ t :: after) = Some t.
Proof.
  intros Ht. induction before as [|x before IH]; intros Hb; cbn [app find].
  - now rewrite Ht, str_eqb_refl.
  - rewrite (Hb x) by now left. apply IH. intros y Hy. apply Hb. now right.
Qed.

(** X17: a ticket is marked as used once, and a used ticket stays as it is.
    Whatever the request, [PUT /api/tickets/[id]] leaves events and
    registrations alone and every used ticket unchanged; it either leaves the
    tickets as they are, or answers with a success and replaces one ticket
    that was unused (the first with the requested id) by a ticket with
    [isUsed] true, [usedAt] the time of the request and every other column
    as it was, every other ticket staying the same; that ticket is the one
    the response carries, and the same request made again, at any time, is
    then refused with [Ticket has already been used]. *)
Theorem ticket_marked_used_once (db : Database) (time later : Z)
    (session : option SessionUser) (id : jsstring) (action' : option jsstring) :
  let result := ticket_PUT db time session id action' in
  events (snd result) = events db /\
  registrationRows (snd result) = registrationRows db /\
  (forall t, In t (ticketRows db) -> isUsed t = true -> In t (ticketRows (snd result))) /\
  (snd result = db \/
   exists before t after updated,
     ticketRows db = before ++ t :: after /\
     isUsed t = false /\ ticketRow_id t = id /\
     isUsed updated = true /\ usedAt updated = Some time /\
     ticketRow_id updated = ticketRow_id t /\
     registrationId updated = registrationId t /\
     ticketRow_ticketNumber updated = ticketRow_ticketNumber t /\
     qrCode updated = qrCode t /\
     ticketRow_qrCodeData updated = ticketRow_qrCodeData t /\
     fst result = TicketCheckedIn updated /\
     ticketRows (snd result) = before ++ updated :: after /\
     ticket_PUT (snd result) later session id action'
     = (TicketAlreadyUsed, snd result)).
Proof.
  cbv zeta.
  destruct (ticket_PUT db time session id action') as [response db'] eqn:E.
  cbn [fst snd]. unfold ticket_PUT in E.
  assert (Same : db' = db ->
            events db' = events db /\ registrationRows db' = registrationRows db /\
            (forall t, In t (ticketRows db) -> isUsed t = true -> In t (ticketRows db')) /\
            (db' = db \/
             exists before t after updated,
               ticketRows db = before ++ t :: after /\
               isUsed t = false /\ ticketRow_id t = id /\
               isUsed updated = true /\ usedAt updated = Some time /\
               ticketRow_id updated = ticketRow_id t /\
               registrationId updated = registrationId t /\
               ticketRow_ticketNumber updated = ticketRow_ticketNumber t /\
               qrCode updated = qrCode t /\
               ticketRow_qrCodeData updated = ticketRow_qrCodeData t /\
               response = TicketCheckedIn updated /\
               ticketRows db' = before ++ updated :: after /\
               ticket_PUT db' later session id action' = (TicketAlreadyUsed, db'))).
  { intros ->. split; [reflexivity|]. split; [reflexivity|].
    split; [auto|now left]. }
  destruct (signed_in session) as [user|] eqn:S;
    [|apply Same; congruence].
  destruct (role user) eqn:R; [apply Same; congruence| |];
    (destruct (negb (opt_str_eqb action' _)) eqn:A;
       [apply Same; congruence|];
     destruct (find_ticketRow db id) as [t|] eqn:F;
       [|apply Same; congruence];
     destruct (registration_of db t) as [rg|] eqn:RO;
       [|apply Same; congruence];
     destruct (event_of db rg) as [ev|] eqn:EO;
       [|apply Same; congruence];
     destruct (not_own_event user ev) eqn:O;
       [apply Same; congruence|];
     destruct (isUsed t) eqn:U;
       [apply Same; congruence|];
     clear Same;
     unfold find_ticketRow in F;
     destruct (find_ticketRow_split _ _ _ F) as (before & after & Hrows & Hid & Hb);
     rewrite Hrows in E;
     rewrite (update_used_split id time before after t Hid Hb) in E;
     rewrite (find_used id before after (with_used time t) Hid Hb) in E;
     injection E as <- <-;
     cbn [set_ticketRows events registrationRows ticketRows];
     split; [reflexivity|]; split; [reflexivity|]; split;
       [intros x Hx Hused; rewrite Hrows in Hx; apply in_app_or in Hx as [Hx|[Hx|Hx]];
          [apply in_or_app; now left
          |subst x; congruence
          |apply in_or_app; right; now right]
       |];
     right; exists before, t, after, (with_used time t);
     split; [exact Hrows|]; split; [exact U|]; split; [exact Hid|];
     do 7 (split; [reflexivity|]);
     split; [reflexivity|]; split; [reflexivity|];
     unfold ticket_PUT; rewrite S, R, A; unfold find_ticketRow;
     cbn [set_ticketRows ticketRows];
     rewrite (find_used id before after (with_used time t) Hid Hb);
     change (registration_of _ (with_used time t)) with (registration_of db t);
     rewrite RO;
     change (event_of _ rg) with (event_of db rg);
     rewrite EO, O; reflexivity).
Qed.

(* ================================================================== *)
(** * Ticket numbers *)
(* ================================================================== *)

Lemma hex_digit_id_char (d : N) : (d < 36)%N -> is_id_char (hex_digit d) = true.
Proof.
  intros Hd. unfold is_id_char, hex_digit, is_lower, is_upper, is_digit.
  destruct (N.ltb d 10) eqn:E; bools.
  - assert (H : in_range 48 57 (48 + d) = true) by (apply in_range_spec; lia).
    rewrite H. now rewrite !orb_true_r.
  - assert (H : in_range 97 122 (87 + d) = true) by (apply in_range_spec; lia).
    now rewrite H.
Qed.

Lemma digits36_id_chars (fuel : nat) (n : N) (acc : jsstring) :
  forallb is_id_char acc = true -> forallb is_id_char (digits36 fuel n acc) = true.
Proof.
  revert n acc. induction fuel as [|fuel IH]; intros n acc Hacc; [exact Hacc|].
  cbn [digits36].
  assert (H : forallb is_id_char (hex_digit (n mod 36) :: acc) = true).
  { cbn [forallb]. rewrite hex_digit_id_char by (apply N.mod_lt; discriminate). exact Hacc. }
  destruct (N.eqb _ _); [exact H | now apply IH].
Qed.

Lemma toString36_id_chars (n : Z) : forallb is_id_char (toString36 n) = true.
Proof.
  destruct n as [|p|p]; [reflexivity| |]; cbn [toString36 forallb];
    now rewrite ?digits36_id_chars.
Qed.

Lemma toUpperCase_id_chars (s : jsstring) :
  forallb is_id_char s = true -> forallb is_id_char (toUpperCase s) = true.
Proof.
  induction s as [|c s IH]; [reflexivity|]. cbn [toUpperCase map forallb].
  intros H. apply andb_prop in H as [Hc Hs]. fold (toUpperCase s). rewrite (IH Hs), andb_true_r.
  destruct (is_lower c) eqn:L; [|exact Hc].
  unfold is_lower in L. apply in_range_spec in L.
  unfold is_id_char, is_upper.
  assert (H : in_range 65 90 (c - 32) = true) by (apply in_range_spec; lia).
  rewrite H. now rewrite orb_true_r.
Qed.

Lemma Buffer_hex_id_chars (bytes : list N) : forallb is_id_char (Buffer_hex bytes) = true.
Proof.
  induction bytes as [|b bytes IH]; [reflexivity|].
  unfold Buffer_hex. cbn [flat_map app forallb]. fold (Buffer_hex bytes).
  rewrite !hex_digit_id_char, IH; [reflexivity| |].
  - pose proof (N.mod_lt b 16). lia.
  - pose proof (N.mod_lt (b / 16) 16). lia.
Qed.

Lemma generateTicketNumber_shape (now : Z) (random : list N) :
  generateTicketNumber now random
  = 84%N :: 75%N :: 45%N :: toString36 now ++ 45%N :: toUpperCase (Buffer_hex random).
Proof. reflexivity. Qed.

Lemma ticket_number_matches (now : Z) (random : list N) :
  matches_simple_id (generateTicketNumber now random) = true.
Proof.
  rewrite generateTicketNumber_shape. unfold matches_simple_id.
  cbn [forallb]. rewrite forallb_app. cbn [forallb].
  rewrite toString36_id_chars, toUpperCase_id_chars by apply Buffer_hex_id_chars.
  reflexivity.
Qed.

Lemma ticket_number_not_json (now : Z) (random : list N) :
  JSON_parse (generateTicketNumber now random) = None.
Proof.
  rewrite generateTicketNumber_shape.
  apply JSON_parse_bad_start; (reflexivity || discriminate).
Qed.

(** X18: a ticket number is a bare identifier for the scan route.  Whatever
    the clock and the random bytes, the text [generateTicketNumber] returns
    matches the identifier pattern, is no JSON text and does not begin with
    [http]; so the scan route resolves it to a registrationId equal to the
    whole text. *)
Theorem ticket_number_is_bare_identifier (P : Platform) (now : Z) (random : list N) :
  let number := generateTicketNumber now random in
  matches_simple_id number = true /\
  JSON_parse number = None /\
  startsWith (js "http") number = false /\
  resolve P number = inr (JObject [ (js "registrationId", JString number) ]).
Proof.
  cbv zeta.
  pose proof (ticket_number_matches now random) as Hid.
  pose proof (ticket_number_not_json now random) as Hjson.
  assert (Hhttp : startsWith (js "http") (generateTicketNumber now random) = false).
  { rewrite generateTicketNumber_shape. reflexivity. }
  split; [exact Hid|]. split; [exact Hjson|]. split; [exact Hhttp|].
  unfold resolve, resolve_fallback. now rewrite Hjson, Hhttp, Hid.
Qed.

(** X19: a scan of the ticket number is tested against rows of the number.
    When the ticket is reached by its number (no ticket stores the number as
    its payload or has it as registrationId) and the registration and the
    event allow the scan, the check-in is answered [Already checked in]
    exactly when an attendance row has the ticket number as its
    [registrationId], for the session of the request (its [sessionId] when
    that is a string that is not empty, null otherwise); the row shown is
    such a row and the store stays as it is.  Rows recorded under the id of
    the ticket's registration do not enter the test. *)
Theorem ticket_number_scan_keyed_by_number (P : Platform) (st : Store) (now time : Z)
    (user : SessionUser) (sid : option jsstring) (issued : Z) (random : list N)
    (ticket : Ticket) :
  let number := generateTicketNumber issued random in
  let key := match sid with
             | Some (c :: s) => Some (c :: s)
             | _ => None
             end in
  role user <> UserRole.USER ->
  find_ticket_by_text st number = None ->
  find (fun t => str_eqb number (ticket_registrationId t)) (tickets st) = None ->
  find (fun t => str_eqb number (ticketNumber t)) (tickets st) = Some ticket ->
  check_scannable now ticket = inr tt ->
  let result :=
    scan_POST P st now time (Some user)
      {| qrData := Some number; scan_sessionId := sid; action := None |} in
  ((exists a, fst result = AlreadyCheckedIn a) <-> has_attendance st number key) /\
  (forall a, fst result = AlreadyCheckedIn a ->
             In a (attendances st) /\ attendance_registrationId a = number /\
             sessionId a = key /\ snd result = st).
Proof.
  intros number key Hrole Htext Hreg Hnum Hscan result.
  pose proof (ticket_number_matches issued random) as Hid.
  assert (Hres : resolve P number = inr (JObject [ (js "registrationId", JString number) ])).
  { unfold resolve, resolve_fallback, number.
    rewrite ticket_number_not_json, Hid.
    now rewrite generateTicketNumber_shape at 1. }
  fold number in Hid.
  pose proof (matches_simple_id_nonempty _ Hid) as Hne.
  assert (F : scan_frontend P st (Some user)
                {| qrData := Some number; scan_sessionId := sid; action := None |}
              = inr (number, JString number, ticket)).
  { unfold scan_frontend, authorize. cbn [qrData].
    destruct (role user); [now contradiction Hrole| |];
      (destruct number as [|c rest] eqn:En; [now contradiction Hne|];
       rewrite Hres; cbn [registrationId_of get_prop assoc];
       change (str_eqb (js "registrationId") (js "registrationId")) with true; cbv iota;
       cbn [truthy str_falsy negb];
       unfold find_ticket, find_ticket_by_id; rewrite Htext; cbn [prisma_where];
       rewrite Hreg, Hnum; reflexivity). }
  assert (R : result = scan_checkin P st time (JString number) sid).
  { unfold result, scan_POST. rewrite F, Hscan. now rewrite scan_action_checkin by now left. }
  rewrite R. unfold scan_checkin. cbn [prisma_where].
  change (sessionId_or_null sid) with key.
  destruct (find (attendance_for (str_eqb number) key) (attendances st)) as [found|] eqn:E.
  - apply find_some in E as [Hin Hfor]. apply attendance_for_spec in Hfor as [Hr Hs].
    cbn [fst snd]. split.
    + split; [intros _; now exists found | intros _; now exists found].
    + intros a Ha. injection Ha as <-. repeat split; assumption.
  - cbn [fst snd]. split.
    + split; [intros (a & Ha); discriminate|].
      intros (a & Hin & Hr & Hs).
      pose proof (find_none _ _ E a Hin) as Hn.
      assert (attendance_for (str_eqb number) key a = true)
        by now apply attendance_for_spec.
      congruence.
    + intros a Ha. discriminate.
Qed.

Lemma app_inj_length {A : Type} (l1 l1' l2 l2' : list A) :
  length l2 = length l2' -> l1 ++ l2 = l1' ++ l2' -> l1 = l1' /\ l2 = l2'.
Proof.
  intros Hlen. revert l1'. induction l1 as [|x l1 IH]; intros [|y l1'] H; cbn [app] in H.
  - now split.
  - apply (f_equal (@length A)) in H. cbn [length] in H. rewrite length_app in H. lia.
  - apply (f_equal (@length A)) in H. cbn [length] in H. rewrite length_app in H. lia.
  - injection H as -> H. destruct (IH _ H) as [-> ->]. now split.
Qed.

Lemma digit36_value_digit (d : N) : (d < 36)%N -> digit36_value (hex_digit d) = d.
Proof.
  intros Hd. unfold digit36_value, hex_digit.
  destruct (N.ltb d 10) eqn:E; bools.
  - replace (N.ltb (48 + d) 58) with true by (symmetry; apply N.ltb_lt; lia). lia.
  - replace (N.ltb (87 + d) 58) with false by (symmetry; apply N.ltb_ge; lia). lia.
Qed.

(** The digits are those of [n]: read back in base 36 they give [n], when
    the fuel covers the bits of [n]. *)
Lemma parse36_digits36 (fuel : nat) (n : N) (acc : jsstring) :
  (n < 2 ^ N.of_nat fuel)%N ->
  fold_left (fun v c => (v * 36 + digit36_value c)%N) (digits36 fuel n acc) 0%N
  = fold_left (fun v c => (v * 36 + digit36_value c)%N) acc n.
Proof.
  revert n acc. induction fuel as [|fuel IH]; intros n acc Hn.
  - cbn in Hn. assert (n = 0%N) by lia. now subst n.
  - cbn [digits36].
    assert (Hmod : (n mod 36 < 36)%N) by (apply N.mod_lt; discriminate).
    pose proof (N.div_mod n 36 ltac:(discriminate)) as Hdiv.
    destruct (N.eqb (n / 36) 0) eqn:E; bools.
    + cbn [fold_left]. rewrite digit36_value_digit by exact Hmod. f_equal. lia.
    + rewrite IH.
      * cbn [fold_left]. rewrite digit36_value_digit by exact Hmod. f_equal. lia.
      * rewrite Nat2N.inj_succ, N.pow_succ_r' in Hn.
        apply N.Div0.div_lt_upper_bound. lia.
Qed.

Lemma parse36_toString36 (n : Z) : (0 <= n)%Z -> parse36 (toString36 n) = Z.to_N n.
Proof.
  intros Hn. destruct n as [|p|p]; [reflexivity| |lia].
  unfold parse36, toString36. rewrite parse36_digits36; [reflexivity|].
  rewrite N2Nat.id. apply N.size_gt.
Qed.

Lemma upper_hex_value (d : N) :
  (d < 16)%N ->
  hex_value (if is_lower (hex_digit d) then (hex_digit d - 32)%N else hex_digit d) = Some d.
Proof.
  intros Hd. unfold hex_digit. destruct (N.ltb d 10) eqn:E; bools.
  - assert (L : is_lower (48 + d) = false) by (apply in_range_false; lia).
    rewrite L. unfold hex_value.
    assert (D : is_digit (48 + d) = true) by (apply in_range_spec; lia).
    rewrite D. f_equal. lia.
  - assert (L : is_lower (87 + d) = true) by (apply in_range_spec; lia).
    rewrite L. unfold hex_value.
    assert (D : is_digit (87 + d - 32) = false) by (apply in_range_false; lia).
    assert (D1 : in_range 97 102 (87 + d - 32) = false) by (apply in_range_false; lia).
    assert (D2 : in_range 65 70 (87 + d - 32) = true) by (apply in_range_spec; lia).
    rewrite D, D1, D2. f_equal. lia.
Qed.

Lemma upper_hex_injective (random random' : list N) :
  length random = length random' ->
  Forall (fun b => b < 256)%N random -> Forall (fun b => b < 256)%N random' ->
  toUpperCase (Buffer_hex random) = toUpperCase (Buffer_hex random') ->
  random = random'.
Proof.
  revert random'. induction random as [|b random IH]; intros [|b' random'] Hlen Hb Hb' H;
    try discriminate; [reflexivity|].
  unfold Buffer_hex, toUpperCase in H. cbn [flat_map app map] in H.
  injection H as H1 H2 H.
  inversion Hb as [|? ? Hlt Hrest]; subst. inversion Hb' as [|? ? Hlt' Hrest']; subst.
  assert (Hd1 : (b / 16 mod 16 < 16)%N) by (apply N.mod_lt; discriminate).
  assert (Hd2 : (b mod 16 < 16)%N) by (apply N.mod_lt; discriminate).
  assert (Hd1' : (b' / 16 mod 16 < 16)%N) by (apply N.mod_lt; discriminate).
  assert (Hd2' : (b' mod 16 < 16)%N) by (apply N.mod_lt; discriminate).
  apply (f_equal hex_value) in H1, H2.
  rewrite !upper_hex_value in H1, H2 by assumption.
  injection H1 as H1. injection H2 as H2.
  assert (b = b').
  { pose proof (N.div_mod b 16 ltac:(discriminate)).
    pose proof (N.div_mod b' 16 ltac:(discriminate)).
    assert (b / 16 < 16)%N by (apply N.Div0.div_lt_upper_bound; lia).
    assert (b' / 16 < 16)%N by (apply N.Div0.div_lt_upper_bound; lia).
    rewrite (N.mod_small (b / 16)) in H1 by assumption.
    rewrite (N.mod_small (b' / 16)) in H1 by assumption. lia. }
  subst b'. f_equal. apply IH; [now injection Hlen | assumption | assumption|].
  exact H.
Qed.

Lemma upper_hex_length (random : list N) :
  length (toUpperCase (Buffer_hex random)) = 2 * length random.
Proof.
  unfold toUpperCase, Buffer_hex. rewrite length_map.
  rewrite (flat_map_constant_length (c := 2)) by reflexivity. lia.
Qed.

(** X20: ticket numbers tell clock readings and random bytes apart.  For
    clock readings that are not negative and random bytes of the same
    number (four, in the code), two calls of [generateTicketNumber] that
    differ in the clock reading or in a byte return different numbers. *)
Theorem ticket_numbers_differ (now now' : Z) (random random' : list N) :
  (0 <= now)%Z -> (0 <= now')%Z ->
  length random = length random' ->
  Forall (fun b => b < 256)%N random -> Forall (fun b => b < 256)%N random' ->
  (now, random) <> (now', random') ->
  generateTicketNumber now random <> generateTicketNumber now' random'.
Proof.
  intros Hn Hn' Hlen Hb Hb' Hdiff Heq. apply Hdiff.
  rewrite !generateTicketNumber_shape in Heq. injection Heq as Heq.
  change (toString36 now ++ 45%N :: toUpperCase (Buffer_hex random))
    with (toString36 now ++ [45%N] ++ toUpperCase (Buffer_hex random)) in Heq.
  change (toString36 now' ++ 45%N :: toUpperCase (Buffer_hex random'))
    with (toString36 now' ++ [45%N] ++ toUpperCase (Buffer_hex random')) in Heq.
  rewrite !app_assoc in Heq.
  apply app_inj_length in Heq as [Ht Hr];
    [|rewrite !upper_hex_length; now rewrite Hlen].
  apply app_inj_tail in Ht as [Ht _].
  apply (f_equal parse36) in Ht. rewrite !parse36_toString36 in Ht by assumption.
  apply upper_hex_injective in Hr; [|assumption..].
  f_equal; [lia | exact Hr].
Qed.

Lemma ticket_numbers_differ_witness :
  (1710450000000%Z, [159; 58; 33; 188]%N) <> (1710450000000%Z, [159; 58; 33; 189]%N) /\
  generateTicketNumber 1710450000000 [159; 58; 33; 188]%N
  <> generateTicketNumber 1710450000000 [159; 58; 33; 189]%N.
Proof.
  split; [discriminate|].
  apply ticket_numbers_differ; try lia; try reflexivity; try discriminate;
    repeat constructor.
Defined.

Lemma ticket_number_scan_keyed_by_number_witness :
  let P := Sample.platform in
  let st := SampleIssuer.store2 in
  let number := generateTicketNumber 1710450000000 [159; 58; 33; 188]%N in
  let result :=
    scan_POST P st Sample.noon Sample.noon (Some Sample.admin)
      {| qrData := Some number; scan_sessionId := None; action := None |} in
  has_attendance st (ticket_registrationId SampleIssuer.ticket2) None /\
  ((exists a, fst result = AlreadyCheckedIn a) <-> has_attendance st number None) /\
  (forall a, fst result = AlreadyCheckedIn a ->
             In a (attendances st) /\ attendance_registrationId a = number /\
             sessionId a = None /\ snd result = st).
Proof.
  split.
  - exists Sample.open_row. split; [now left | split; reflexivity].
  - apply (ticket_number_scan_keyed_by_number Sample.platform SampleIssuer.store2 Sample.noon
             Sample.noon Sample.admin None 1710450000000 [159; 58; 33; 188]%N
             SampleIssuer.ticket2).
    + discriminate.
    + vm_compute. reflexivity.
    + vm_compute. reflexivity.
    + vm_compute. reflexivity.
    + reflexivity.
Defined.

(* ================================================================== *)
(** * The registration route *)
(* ================================================================== *)

Lemma validCategory_valid (body : RegisterBody) :
  In (validCategory body) ParticipantCategory_values.
Proof.
  assert (Public : In (js "PUBLIC") ParticipantCategory_values) by (right; now left).
  unfold validCategory. destruct (register_category body) as [c|]; [|exact Public].
  destruct c; try exact Public.
  destruct (isValidParticipantCategory (JString s)) eqn:V; [|exact Public].
  unfold isValidParticipantCategory, includes in V.
  apply existsb_exists in V as (x & Hx & E). apply str_eqb_eq in E. now subst.
Qed.

(** The outcomes of the handler: no change and no 201, or a registration
    that passed every check, with or without its ticket. *)
Lemma registrations_POST_cases (P : Platform) (env : option jsstring) (I : Issuer)
    (db : Database) (session : option SessionUser) (body : RegisterBody) :
  let result := registrations_POST P env I db session body in
  (snd result = db /\ register_http_status (fst result) <> 201%Z) \/
  exists user eventId' event,
    signed_in session = Some user /\
    register_eventId body = Some eventId' /\ eventId' <> [] /\
    find (fun e => str_eqb (eventRow_id e) eventId') (events db) = Some event /\
    eventRow_status event = EventStatus.PUBLISHED /\
    is_full db event = false /\
    find_registration db eventId' (session_user_id user) = None /\
    let reg := new_registration P db eventId' (session_user_id user) body in
    let db1 := add_registration db reg in
    (generateTicket P env I (registrationRow_id reg) eventId' (session_user_id user) = None /\
     result = (RegisteredWithoutTicket reg, db1)) \/
    (exists ticketData,
       generateTicket P env I (registrationRow_id reg) eventId' (session_user_id user)
       = Some ticketData /\
       result = (Registered reg (new_ticket P db1 reg ticketData),
                 add_ticket db1 (new_ticket P db1 reg ticketData))).
Proof.
  cbv zeta. unfold registrations_POST.
  destruct (signed_in session) as [user|] eqn:S; [|left; split; [reflexivity|discriminate]].
  destruct (register_eventId body) as [[|c ev]|] eqn:B;
    try (left; split; [reflexivity|discriminate]).
  destruct (find _ (events db)) as [event|] eqn:F;
    [|left; split; [reflexivity|discriminate]].
  destruct (eventRow_status event) eqn:St;
    try (left; split; [reflexivity|discriminate]).
  destruct (is_full db event) eqn:Full; [left; split; [reflexivity|discriminate]|].
  destruct (find_registration db (c :: ev) (session_user_id user)) eqn:R;
    [left; split; [reflexivity|discriminate]|].
  right. exists user, (c :: ev), event.
  do 2 (split; [reflexivity|]). split; [discriminate|].
  do 4 (split; [assumption || reflexivity|]).
  destruct (generateTicket P env I _ _ _) as [ticketData|].
  - right. exists ticketData. split; reflexivity.
  - left. split; reflexivity.
Qed.

Lemma generateTicket_spec (P : Platform) (env : option jsstring) (I : Issuer)
    (r e u : jsstring) (ticketData : TicketData) :
  generateTicket P env I r e u = Some ticketData ->
  ticketData_ticketNumber ticketData = generateTicketNumber (Date_now I) (randomBytes I) /\
  ticketData_qrCodeData ticketData = generateQRCodeData P env (issued_at I) r e u /\
  QRCode_toDataURL I (ticketData_qrCodeData ticketData) = Some (ticketData_qrCode ticketData).
Proof.
  unfold generateTicket, generateQRCodeImage. cbv zeta.
  destruct (QRCode_toDataURL I _) as [image|] eqn:E; [|discriminate].
  intros H. injection H as <-. cbn. repeat split. exact E.
Qed.

(** X21: what a registration request leaves behind.  Whatever the request,
    [POST /api/registrations] leaves the events and every stored
    registration and ticket as they are.  It adds nothing unless it answers
    201, and then it adds one registration: [CONFIRMED], of the signed-in
    caller, for the event of the body, which is stored and [PUBLISHED], in a
    category of [ParticipantCategory]; and with it either no ticket (the
    ticket error) or one unused ticket of that registration, whose number is
    [generateTicketNumber]'s, whose payload is the one [generateQRCodeData]
    signs for the new registration, its event and the caller, and whose image
    encodes that payload. *)
Theorem registration_outcome (P : Platform) (env : option jsstring) (I : Issuer)
    (db : Database) (session : option SessionUser) (body : RegisterBody) :
  let result := registrations_POST P env I db session body in
  let db' := snd result in
  events db' = events db /\
  ((db' = db /\ register_http_status (fst result) <> 201%Z) \/
   exists reg,
     registrationRows db' = registrationRows db ++ [reg] /\
     registrationRow_status reg = RegistrationStatus.CONFIRMED /\
     In (category reg) ParticipantCategory_values /\
     (exists user, session = Some user /\ userId reg = session_user_id user) /\
     userId reg <> [] /\
     register_eventId body = Some (eventId reg) /\
     (exists event, In event (events db) /\ eventRow_id event = eventId reg /\
                    eventRow_status event = EventStatus.PUBLISHED) /\
     ((fst result = RegisteredWithoutTicket reg /\ ticketRows db' = ticketRows db) \/
      exists ticket,
        fst result = Registered reg ticket /\
        ticketRows db' = ticketRows db ++ [ticket] /\
        registrationId ticket = registrationRow_id reg /\
        isUsed ticket = false /\ usedAt ticket = None /\
        ticketRow_ticketNumber ticket
        = generateTicketNumber (Date_now I) (randomBytes I) /\
        ticketRow_qrCodeData ticket
        = Some (generateQRCodeData P env (issued_at I) (registrationRow_id reg)
                  (eventId reg) (userId reg)) /\
        (exists text, ticketRow_qrCodeData ticket = Some text /\
                      QRCode_toDataURL I text = Some (qrCode ticket)))).
Proof.
  cbv zeta.
  destruct (registrations_POST_cases P env I db session body)
    as [[Hdb Hst]|(user & ev & event & S & B & Hne & F & St & _ & _ & Hout)].
  - rewrite Hdb. split; [reflexivity|]. left. now split.
  - cbv zeta in Hout. apply signed_in_spec in S as [S Hid].
    apply find_some in F as [Hin Hev]. apply str_eqb_eq in Hev.
    assert (Hreg : forall db'' r,
               registrationRows db'' = registrationRows db ++
                 [new_registration P db ev (session_user_id user) body] ->
               r = new_registration P db ev (session_user_id user) body ->
               registrationRows db'' = registrationRows db ++ [r] /\
               registrationRow_status r = RegistrationStatus.CONFIRMED /\
               In (category r) ParticipantCategory_values /\
               (exists user0, session = Some user0 /\ userId r = session_user_id user0) /\
               userId r <> [] /\
               register_eventId body = Some (eventId r) /\
               (exists event0, In event0 (events db) /\ eventRow_id event0 = eventId r /\
                               eventRow_status event0 = EventStatus.PUBLISHED)).
    { intros db'' r Hrows ->. split; [exact Hrows|]. split; [reflexivity|].
      split; [apply validCategory_valid|]. split; [now exists user|].
      split; [exact Hid|]. split; [exact B|]. now exists event. }
    destruct Hout as [[_ ->]|(ticketData & G & ->)]; cbn [fst snd].
    + split; [reflexivity|]. right.
      exists (new_registration P db ev (session_user_id user) body).
      destruct (Hreg (add_registration db (new_registration P db ev (session_user_id user) body))
                  _ eq_refl eq_refl) as (H1 & H2 & H3 & H4 & H5 & H6 & H7).
      do 7 (split; [assumption|]). left. split; reflexivity.
    + split; [reflexivity|]. right.
      exists (new_registration P db ev (session_user_id user) body).
      destruct (Hreg (add_registration db (new_registration P db ev (session_user_id user) body))
                  _ eq_refl eq_refl) as (H1 & H2 & H3 & H4 & H5 & H6 & H7).
      do 7 (split; [assumption|]). right.
      destruct (generateTicket_spec _ _ _ _ _ _ _ G) as (Hn & Hq & Himg).
      eexists. split; [reflexivity|].
      cbn [add_ticket set_ticketRows add_registration ticketRows new_ticket registrationId
           isUsed usedAt ticketRow_ticketNumber ticketRow_qrCodeData qrCode].
      do 4 (split; [reflexivity|]). split; [exact Hn|]. split; [now rewrite Hq|].
      eexists. split; [reflexivity | exact Himg].
Qed.

(** X22: one registration for an event and a user.  When no two stored
    registrations have the same event and user, the same holds after any
    registration request. *)
Theorem one_registration_per_event_and_user (P : Platform) (env : option jsstring)
    (I : Issuer) (db : Database) (session : option SessionUser) (body : RegisterBody) :
  let pairs d := map (fun r => (eventId r, userId r)) (registrationRows d) in
  NoDup (pairs db) ->
  NoDup (pairs (snd (registrations_POST P env I db session body))).
Proof.
  cbv zeta. intros Hnd.
  destruct (registrations_POST_cases P env I db session body)
    as [[Hdb _]|(user & ev & event & _ & _ & _ & _ & _ & _ & R & Hout)].
  - now rewrite Hdb.
  - cbv zeta in Hout.
    assert (Hnew : NoDup (map (fun r => (eventId r, userId r))
                            (registrationRows db
                             ++ [new_registration P db ev (session_user_id user) body]))).
    { rewrite map_app. apply NoDup_snoc; [exact Hnd|].
      cbn [map new_registration eventId userId]. intros Hin.
      apply in_map_iff in Hin as (r & E & Hr). injection E as E1 E2.
      unfold find_registration in R. pose proof (find_none _ _ R r Hr) as Hn.
      cbn in Hn. rewrite E1, E2, !str_eqb_refl in Hn. discriminate. }
    destruct Hout as [[_ ->]|(ticketData & _ & ->)]; exact Hnew.
Qed.

Lemma one_registration_per_event_and_user_witness :
  let pairs d := map (fun r => (eventId r, userId r)) (registrationRows d) in
  NoDup (pairs (snd (registrations_POST Sample.platform None SampleIssuer.issuer SampleDb.db1
                       (Some SampleIssuer.visitor) SampleIssuer.register_e1))).
Proof.
  apply (one_registration_per_event_and_user Sample.platform None SampleIssuer.issuer
           SampleDb.db1).
  repeat constructor. intros [].
Defined.

Lemma NoDup_map_inj {A B : Type} (f : A -> B) (l : list A) (a b : A) :
  NoDup (map f l) -> In a l -> In b l -> f a = f b -> a = b.
Proof.
  induction l as [|x l IH]; [intros _ []|].
  cbn [map]. intros Hnd Ha Hb E. inversion Hnd as [|? ? Hx Hl]; subst.
  destruct Ha as [->|Ha], Hb as [->|Hb].
  - reflexivity.
  - exfalso. apply Hx. rewrite E. now apply in_map.
  - exfalso. apply Hx. rewrite <- E. now apply in_map.
  - now apply IH.
Qed.

(** X23: the capacity of an event is respected.  Over events of distinct
    ids, an event with a positive [maxCapacity] that has no more
    registrations than its capacity has no more than that after any
    registration request. *)
Theorem capacity_respected (P : Platform) (env : option jsstring) (I : Issuer)
    (db : Database) (session : option SessionUser) (body : RegisterBody)
    (event : EventRow) (capacity : Z) :
  NoDup (map eventRow_id (events db)) ->
  In event (events db) ->
  maxCapacity event = Some capacity ->
  (0 < capacity)%Z ->
  (count_registrations db event <= capacity)%Z ->
  (count_registrations (snd (registrations_POST P env I db session body)) event
   <= capacity)%Z.
Proof.
  intros Hnd Hin Hcap Hpos Hcount.
  destruct (registrations_POST_cases P env I db session body)
    as [[Hdb _]|(user & ev & target & _ & _ & _ & F & _ & Full & _ & Hout)].
  - now rewrite Hdb.
  - cbv zeta in Hout.
    assert (Hnew : (count_registrations
                      (add_registration db (new_registration P db ev (session_user_id user) body))
                      event <= capacity)%Z).
    { unfold count_registrations in *. cbn [add_registration registrationRows].
      rewrite filter_app, length_app. cbn [filter new_registration eventId].
      destruct (str_eqb ev (eventRow_id event)) eqn:E; [|cbn [length]; lia].
      apply str_eqb_eq in E. apply find_some in F as [Hin' Hid]. apply str_eqb_eq in Hid.
      assert (target = event) by (apply (NoDup_map_inj eventRow_id (events db)); congruence).
      subst target. unfold is_full in Full. rewrite Hcap in Full.
      apply andb_false_iff in Full as [Full|Full].
      - apply negb_false_iff, Z.eqb_eq in Full. lia.
      - unfold count_registrations in Full. rewrite Z.geb_leb in Full.
        apply Z.leb_gt in Full. cbn [length]. lia. }
    destruct Hout as [[_ ->]|(ticketData & _ & ->)]; exact Hnew.
Qed.

Lemma capacity_respected_witness :
  (count_registrations
     (snd (registrations_POST Sample.platform None SampleIssuer.issuer SampleDb.db1
             (Some SampleIssuer.visitor) SampleIssuer.register_e1))
     SampleDb.event1 <= 2)%Z.
Proof.
  apply (capacity_respected Sample.platform None SampleIssuer.issuer SampleDb.db1
           (Some SampleIssuer.visitor) SampleIssuer.register_e1 SampleDb.event1 2).
  - repeat constructor. intros [].
  - now left.
  - reflexivity.
  - reflexivity.
  - vm_compute. discriminate.
Defined.

(** X24: the ticket of a new registration passes the verification route.
    When a registration request is answered with a ticket, the id given to
    the registration being new and not empty and every stored ticket
    belonging to a stored registration, then the payload stored with the
    ticket, presented to [POST /api/qr/verify] under the same secret by a
    signed-in admin (or the organizer of the event) during the event, is
    answered with that ticket, registration and event as long as it is at
    most 24 hours old, and with [QR code has expired] afterwards. *)
Theorem registered_ticket_verifies (P : Platform) (env : option jsstring) (I : Issuer)
    (db : Database) (session : option SessionUser) (body : RegisterBody)
    (reg : RegistrationRow) (ticket : TicketRow) (event : EventRow)
    (verify_time now : Z) (verifier : SessionUser) :
  let result := registrations_POST P env I db session body in
  let ids := map registrationRow_id (registrationRows db) in
  fst result = Registered reg ticket ->
  prisma_new_id P ids <> [] ->
  ~ In (prisma_new_id P ids) ids ->
  (forall t, In t (ticketRows db) -> In (registrationId t) ids) ->
  ticket_hash P env (issued_at I) (registrationRow_id reg) (eventId reg) (userId reg) <> [] ->
  Date_getTime P (Some (JString (toISOString P (issued_at I)))) = Some (issued_at I) ->
  event_of db reg = Some event ->
  session_user_id verifier <> [] ->
  role verifier <> UserRole.USER ->
  (role verifier = UserRole.EVENT_ORGANIZER ->
   createdById event = session_user_id verifier) ->
  (eventRow_startDate event <= now <= eventRow_endDate event)%Z ->
  let response :=
    qr_verify_POST P env (snd result) verify_time now (Some verifier)
      (ticketRow_qrCodeData ticket) in
  ((verify_time - issued_at I <= 86400000)%Z -> response = QRValid ticket reg event) /\
  ((verify_time - issued_at I > 86400000)%Z ->
   response = QRCodeInvalid (js "QR code has expired")).
Proof.
  intros result ids Hfst Hne Hfresh Hfk Hhash Hdate Hev Hvid Hvrole Hvown Hwin response.
  destruct (registrations_POST_cases P env I db session body)
    as [[_ Hst]|(user & ev & target & S & _ & Hevne & _ & _ & _ & _ & Hout)].
  { fold result in Hst. rewrite Hfst in Hst. now contradiction Hst. }
  cbv zeta in Hout. fold result in Hout.
  destruct Hout as [[_ Hres]|(ticketData & G & Hres)].
  { rewrite Hres in Hfst. discriminate. }
  assert (Hreg : reg = new_registration P db ev (session_user_id user) body).
  { rewrite Hres in Hfst. now injection Hfst. }
  assert (Htk : ticket = new_ticket P (add_registration db reg) reg ticketData).
  { rewrite Hres in Hfst. rewrite Hreg. now injection Hfst. }
  assert (Hdb : snd result = add_ticket (add_registration db reg) ticket).
  { rewrite Hres. cbn [snd]. now rewrite Htk, Hreg. }
  destruct (generateTicket_spec _ _ _ _ _ _ _ G) as (_ & Hq & _).
  assert (Hrid : registrationRow_id reg = prisma_new_id P ids) by now rewrite Hreg.
  assert (Htrid : registrationId ticket = registrationRow_id reg) by now rewrite Htk.
  assert (Hev_id : eventId reg = ev) by now rewrite Hreg.
  assert (Huid : userId reg = session_user_id user) by now rewrite Hreg.
  assert (Htext : ticketRow_qrCodeData ticket
                  = Some (generateQRCodeData P env (issued_at I) (registrationId ticket)
                            (eventId reg) (userId reg))).
  { rewrite Htrid, Hev_id, Huid, Htk. cbn [new_ticket ticketRow_qrCodeData].
    now rewrite Hq, Hreg. }
  assert (Resp : response
                 = if too_old verify_time (issued_at I)
                   then QRCodeInvalid (js "QR code has expired")
                   else QRValid ticket reg event).
  { unfold response. rewrite Htext, Hdb.
    apply qr_verify_issued; try assumption.
    - rewrite Htrid, Hrid. exact Hne.
    - rewrite Hev_id. exact Hevne.
    - now rewrite Htrid.
    - cbn [add_ticket set_ticketRows add_registration ticketRows].
      rewrite find_snoc; [now rewrite str_eqb_refl|].
      intros t Ht. apply str_eqb_neq. intros E. apply Hfresh.
      rewrite <- Hrid, <- Htrid, E. now apply Hfk.
    - unfold registration_of.
      cbn [add_ticket set_ticketRows add_registration registrationRows].
      rewrite find_snoc; [now rewrite Htrid, str_eqb_refl|].
      intros r Hr. apply str_eqb_neq. intros E. apply Hfresh.
      rewrite <- Hrid, <- Htrid, <- E. now apply in_map. }
  rewrite Resp. split; intros Hage.
  - destruct (too_old verify_time (issued_at I)) eqn:T; [|reflexivity].
    apply too_old_spec in T. lia.
  - apply too_old_spec in Hage. now rewrite Hage.
Qed.

Lemma registered_ticket_verifies_witness :
  let P := Sample.platform in
  let I := SampleIssuer.issuer in
  let result :=
    registrations_POST P None I SampleDb.db1 (Some SampleIssuer.visitor)
      SampleIssuer.register_e1 in
  let reg := new_registration P SampleDb.db1 (js "e1") (js "u2") SampleIssuer.register_e1 in
  exists ticket,
    fst result = Registered reg ticket /\
    let response :=
      qr_verify_POST P None (snd result) Sample.noon Sample.noon (Some Sample.admin)
        (ticketRow_qrCodeData ticket) in
    ((Sample.noon - issued_at I <= 86400000)%Z ->
     response = QRValid ticket reg SampleDb.event1) /\
    ((Sample.noon - issued_at I > 86400000)%Z ->
     response = QRCodeInvalid (js "QR code has expired")).
Proof.
  intros P I result reg.
  destruct (generateTicket P None I (registrationRow_id reg) (js "e1") (js "u2"))
    as [ticketData|] eqn:G; [|vm_compute in G; discriminate].
  exists (new_ticket P (add_registration SampleDb.db1 reg) reg ticketData).
  assert (Hfst : fst result
                 = Registered reg (new_ticket P (add_registration SampleDb.db1 reg) reg
                                     ticketData)).
  { unfold result, registrations_POST.
    change (signed_in (Some SampleIssuer.visitor)) with (Some SampleIssuer.visitor).
    cbv iota.
    change (register_eventId SampleIssuer.register_e1) with (Some (js "e1")).
    change (find (fun e => str_eqb (eventRow_id e) (js "e1")) (events SampleDb.db1))
      with (Some SampleDb.event1).
    change (eventRow_status SampleDb.event1) with EventStatus.PUBLISHED.
    change (is_full SampleDb.db1 SampleDb.event1) with false.
    change (find_registration SampleDb.db1 (js "e1")
              (session_user_id SampleIssuer.visitor)) with (@None RegistrationRow).
    cbv iota zeta.
    change (session_user_id SampleIssuer.visitor) with (js "u2").
    fold reg. fold P I. rewrite G. reflexivity. }
  split; [exact Hfst|].
  apply (registered_ticket_verifies P None I SampleDb.db1 (Some SampleIssuer.visitor)
           SampleIssuer.register_e1 reg _ SampleDb.event1 Sample.noon Sample.noon
           Sample.admin Hfst).
  - vm_compute. discriminate.
  - vm_compute. intros [H|[]]. discriminate.
  - intros t [<-|[]]. vm_compute. now left.
  - vm_compute. discriminate.
  - vm_compute. reflexivity.
  - reflexivity.
  - discriminate.
  - discriminate.
  - discriminate.
  - vm_compute. split; discriminate.
Defined.
